(** * ALX Travel App: listings, bookings and reviews

    A shallow embedding of the validation rules and derived attributes of
    [listings/models.py] and [alx_travel_app/listings/serializers.py],
    with the properties the specification states about them.

    Conventions of the embedding:
    - a Python [int] is a [Z]; the value of a [Decimal] is a canonical
      rational [Qc], and a [Decimal] as a request carries it, with its
      digits and exponent, is a [Decimal.t];
    - a [float] is the rational it denotes, so that the quotient of two
      [int]s by [/] is the double nearest to the exact quotient;
    - a [str] is a [string], its characters the code points below 256;
    - a [datetime.date] is a record of year, month and day, compared
      lexicographically and subtracted through [toordinal], as the
      [datetime] module does;
    - a UUID is the 128-bit number it denotes, an [N];
    - a raised exception is the [Raise] case of [result]; code that
      queries or writes the database runs in the monad [DB], whose state
      holds the tables and the log of the queries issued so far. *)

From Stdlib Require Import Ascii QArith Qcanon Qround Qabs Qpower Lqa.
From stdpp Require Import gmap strings list pretty numbers.

Open Scope Z_scope.

(** ** Exceptions and results *)

Module Exn.

(** The exception classes the code raises or relies on. *)
Inductive exn : Type :=
  | serializers_ValidationError (detail : string)
      (* rest_framework.serializers.ValidationError *)
  | ValidationError (message : string)
      (* django.core.exceptions.ValidationError *)
  | DoesNotExist
      (* Listing.DoesNotExist, raised by Listing.objects.get and by the
         access to a dangling foreign key *)
  | IntegrityError (constraint : string)
      (* django.db.IntegrityError, raised by the database for a violated
         constraint; it carries the name of the constraint *)
  | InvalidOperation
      (* decimal.InvalidOperation, raised when a Decimal is formatted for
         a column that has too few digits for it *)
  | OverflowError
      (* the quotient of two ints is too large for a float *)
  | ZeroDivisionError.

(** The error taxonomy of the specification, and the kind of the
    exceptions that it does not name. *)
Inductive kind : Type :=
  | ValidationErrorKind
  | NotFoundErrorKind
  | ConflictErrorKind
  | InvalidStateErrorKind
  | UnnamedErrorKind.

(** The name under which the database reports a violated [unique_together]
    of [Review]. *)
Definition review_unique_together : string := "unique_together(listing, user)".

(** How the exceptions of the code map to the taxonomy: both
    [ValidationError] classes are validation errors, a missing row is
    not-found, a violated uniqueness constraint is a conflict and every
    other violated constraint an invalid state.  The arithmetic errors of
    Python are outside the taxonomy. *)
Definition kind_of (e : exn) : kind :=
  match e with
  | serializers_ValidationError _ => ValidationErrorKind
  | ValidationError _ => ValidationErrorKind
  | DoesNotExist => NotFoundErrorKind
  | IntegrityError c =>
      if String.eqb c review_unique_together then ConflictErrorKind
      else InvalidStateErrorKind
  | InvalidOperation | OverflowError | ZeroDivisionError => UnnamedErrorKind
  end.


Inductive result (A : Type) : Type :=
  | Ok (a : A)
  | Raise (e : exn).

Arguments Ok {A} a.
Arguments Raise {A} e.

Definition is_ok {A} (r : result A) : bool :=
  match r with Ok _ => true | Raise _ => false end.

(** [fails_with r k]: [r] is an exception of kind [k]. *)
Definition fails_with {A} (r : result A) (k : kind) : Prop :=
  match r with
  | Ok _ => False
  | Raise e => kind_of e = k
  end.

End Exn.
Export Exn.

(** ** Field validators *)

(** [django.core.validators.MinValueValidator(limit)] and
    [MaxValueValidator(limit)] on integers and on decimals: they raise
    when the value is below, respectively above, the limit.  The message
    is Django's. *)
Definition MinValueValidator (limit value : Z) : result unit :=
  if value <? limit
  then Raise (ValidationError
                ("Ensure this value is greater than or equal to " +:+ pretty limit +:+ "."))
  else Ok ().

Definition MaxValueValidator (limit value : Z) : result unit :=
  if value >? limit
  then Raise (ValidationError
                ("Ensure this value is less than or equal to " +:+ pretty limit +:+ "."))
  else Ok ().

Definition MinValueValidator_Decimal (limit : Z) (value : Qc) : result unit :=
  if bool_decide (value < Qc_of_Z limit)%Qc
  then Raise (ValidationError
                ("Ensure this value is greater than or equal to " +:+ pretty limit +:+ "."))
  else Ok ().

(** Runs the validators of a model field in order, stopping at the first
    that raises. *)
Fixpoint run_validators {A} (vs : list (A -> result unit)) (value : A) : result unit :=
  match vs with
  | [] => Ok ()
  | v :: vs' =>
      match v value with
      | Ok _ => run_validators vs' value
      | Raise e => Raise e
      end
  end.

(** [ReviewSerializer.validate_rating]. *)
Definition validate_rating (value : Z) : result Z :=
  if negb ((1 <=? value) && (value <=? 5))
  then Raise (serializers_ValidationError "Rating must be between 1 and 5.")
  else Ok value.

(** The validators of the model field [Review.rating]. *)
Definition Review_rating_validators : list (Z -> result unit) :=
  [MinValueValidator 1; MaxValueValidator 5].

(** [ListingSerializer.validate_price_per_night]. *)
Definition validate_price_per_night (value : Qc) : result Qc :=
  if bool_decide (value <= 0)%Qc
  then Raise (serializers_ValidationError "Price per night must be positive.")
  else Ok value.

(** The validators of the model field [Listing.price_per_night]. *)
Definition Listing_price_per_night_validators : list (Qc -> result unit) :=
  [MinValueValidator_Decimal 0].

(** [ListingSerializer.validate_max_guest_count]. *)
Definition validate_max_guest_count (value : Z) : result Z :=
  if value <? 1
  then Raise (serializers_ValidationError "Maximum guest count must be at least 1.")
  else Ok value.

(** [BookingSerializer.validate_total_price]. *)
Definition validate_total_price (value : Qc) : result Qc :=
  if bool_decide (value <= 0)%Qc
  then Raise (serializers_ValidationError "Total price must be positive.")
  else Ok value.

(** ** Numbers *)

(** The integer nearest to [q], a tie going to the even one: the rounding
    of [float] arithmetic and of [Decimal.quantize] (ROUND_HALF_EVEN). *)
Definition round_half_even (q : Q) : Z :=
  let f := Qfloor q in
  match (q - inject_Z f ?= 1 # 2)%Q with
  | Lt => f
  | Gt => f + 1
  | Eq => if Z.even f then f else f + 1
  end.

(** *** float

    A finite [float] is the rational that it denotes, a binary64 number;
    the sign of zero, which no rule reads, is left out. *)

Module float.

(** The binary exponent of [q <> 0]: the [e] with [2^e <= |q| < 2^(e+1)]. *)
Definition exponent (q : Q) : Z :=
  let e := Z.log2 (Z.abs (Qnum q)) - Z.log2 (Z.pos (Qden q)) in
  if Qle_bool (2 ^ e) (Qabs q) then e else e - 1.

(** The exponent of the unit in the last place of the doubles around [q]:
    53 significant bits, and no exponent below that of the subnormals. *)
Definition ulp_exponent (q : Q) : Z := Z.max (exponent q - 52) (-1074).

(** [q] rounded to a 53-bit significand, the exponent not yet bounded
    above. *)
Definition round_double (q : Q) : Q :=
  if Qeq_bool q 0 then 0%Q
  else
    let p := ulp_exponent q in
    (inject_Z (round_half_even (q / 2 ^ p)) * 2 ^ p)%Q.

(** [sys.float_info.max]. *)
Definition max_double : Q := (inject_Z (2 ^ 53 - 1) * 2 ^ 971)%Q.

(** [a / b] on two [int]s: the correctly rounded quotient, as CPython's
    [long_true_divide] computes it. *)
Definition truediv (a b : Z) : result Qc :=
  if b =? 0 then Raise ZeroDivisionError
  else
    let x := round_double (inject_Z a / inject_Z b) in
    if Qle_bool (Qabs x) max_double then Ok (Q2Qc x) else Raise OverflowError.

End float.

(** A number that a property returns: an [int] or a [float]. *)
Inductive number : Type :=
  | Int (n : Z)
  | Float (x : Qc).

(** *** decimal.Decimal *)

Module Decimal.

(** A finite [Decimal], as [as_tuple] shows it: a sign, the coefficient
    whose decimal digits are the digit tuple, and an exponent. *)
Record t : Type := mk {
  sign : bool;
  coefficient : N;
  exponent : Z
}.

Definition value (d : t) : Qc :=
  Q2Qc ((if sign d then - 1 else 1) * inject_Z (Z.of_N (coefficient d))
        * 10 ^ exponent d)%Q.

Fixpoint count_digits (fuel : nat) (n : N) : Z :=
  match fuel with
  | O => 1
  | S fuel' => if (n <? 10)%N then 1 else 1 + count_digits fuel' (n / 10)%N
  end.

(** [len(digittuple)]: the number of decimal digits of the coefficient,
    1 for the coefficient 0. *)
Definition len_digits (d : t) : Z :=
  count_digits (N.to_nat (N.log2 (coefficient d))) (coefficient d).

End Decimal.

(** [rest_framework.fields.DecimalField.validate_precision]. *)
Definition DecimalField_validate_precision (max_digits decimal_places : Z)
    (value : Decimal.t) : result Decimal.t :=
  let exponent := Decimal.exponent value in
  let '(total_digits, whole_digits, places) :=
    if exponent >=? 0
    then (Decimal.len_digits value + exponent,
          Decimal.len_digits value + exponent, 0)
    else if Decimal.len_digits value >? Z.abs exponent
    then (Decimal.len_digits value,
          Decimal.len_digits value - Z.abs exponent, Z.abs exponent)
    else (Z.abs exponent, 0, Z.abs exponent) in
  if total_digits >? max_digits
  then Raise (serializers_ValidationError
                ("Ensure that there are no more than " +:+ pretty max_digits
                 +:+ " digits in total."))
  else if places >? decimal_places
  then Raise (serializers_ValidationError
                ("Ensure that there are no more than " +:+ pretty decimal_places
                 +:+ " decimal places."))
  else if whole_digits >? max_digits - decimal_places
  then Raise (serializers_ValidationError
                ("Ensure that there are no more than "
                 +:+ pretty (max_digits - decimal_places)
                 +:+ " digits before the decimal point."))
  else Ok value.

(** [value.quantize(Decimal(1).scaleb(-decimal_places))]: the multiple of
    [10^-decimal_places] nearest to [value], a tie going to the even one. *)
Definition quantize (decimal_places : Z) (value : Qc) : Qc :=
  Q2Qc (inject_Z (round_half_even (value * 10 ^ decimal_places))
        / 10 ^ decimal_places)%Q.

(** [django.db.backends.utils.format_number], by which the value of a
    [DecimalField] is prepared for its column: it is quantized in a
    context of [max_digits] digits, which raises when the result has more.
    (A backend that hands the decimal to the server instead has the column
    refuse the same values.) *)
Definition format_number (value : Qc) (max_digits decimal_places : Z)
  : result Qc :=
  let quantized := quantize decimal_places value in
  if Qle_bool (10 ^ (max_digits - decimal_places)) (Qabs quantized)
  then Raise InvalidOperation
  else Ok quantized.

(** ** Dates *)

(** The part of Python's [datetime] module that [DateField] values use:
    construction, comparison, [toordinal] and subtraction. *)
Module datetime.

Definition MINYEAR : Z := 1.
Definition MAXYEAR : Z := 9999.

Record date : Type := mkdate { year : Z; month : Z; day : Z }.

(** A subtraction of two dates only sets the [days] of the [timedelta]. *)
Record timedelta : Type := mktimedelta { days : Z }.

Definition _is_leap (year : Z) : bool :=
  (year mod 4 =? 0) && (negb (year mod 100 =? 0) || (year mod 400 =? 0)).

Definition _days_before_year (year : Z) : Z :=
  let y := year - 1 in
  y * 365 + y / 4 - y / 100 + y / 400.

Definition _DAYS_IN_MONTH : list Z :=
  [-1; 31; 28; 31; 30; 31; 30; 31; 31; 30; 31; 30; 31].

Definition _DAYS_BEFORE_MONTH : list Z :=
  [-1; 0; 31; 59; 90; 120; 151; 181; 212; 243; 273; 304; 334].

Definition _days_in_month (year month : Z) : Z :=
  if (month =? 2) && _is_leap year then 29
  else nth (Z.to_nat month) _DAYS_IN_MONTH 0.

Definition _days_before_month (year month : Z) : Z :=
  nth (Z.to_nat month) _DAYS_BEFORE_MONTH 0
  + (if (month >? 2) && _is_leap year then 1 else 0).

Definition _ymd2ord (year month day : Z) : Z :=
  _days_before_year year + _days_before_month year month + day.

(** A month and a day of that month, whatever the year. *)
Definition in_calendar (d : date) : Prop :=
  1 <= month d <= 12 /\
  1 <= day d <= _days_in_month (year d) (month d).

(** The dates the constructor [date(year, month, day)] accepts. *)
Definition valid (d : date) : Prop :=
  MINYEAR <= year d <= MAXYEAR /\ in_calendar d.

Definition toordinal (d : date) : Z :=
  _ymd2ord (year d) (month d) (day d).

(** Comparison is that of the tuples (year, month, day). *)
Definition lt (a b : date) : bool :=
  (year a <? year b)
  || ((year a =? year b)
      && ((month a <? month b)
          || ((month a =? month b) && (day a <? day b)))).

Definition eqb (a b : date) : bool :=
  (year a =? year b) && (month a =? month b) && (day a =? day b).

Definition le (a b : date) : bool := lt a b || eqb a b.

(** [a - b]. *)
Definition sub (a b : date) : timedelta :=
  mktimedelta (toordinal a - toordinal b).

End datetime.

Abbreviation date := datetime.date.

(** The day after [d] in the Gregorian calendar: the specification's
    unit of "a day from one date to the next".  It is not part of the
    code, which subtracts ordinals. *)
Definition tomorrow (d : date) : date :=
  let y := datetime.year d in
  let m := datetime.month d in
  if datetime.day d <? datetime._days_in_month y m
  then datetime.mkdate y m (datetime.day d + 1)
  else if m <? 12
       then datetime.mkdate y (m + 1) 1
       else datetime.mkdate (y + 1) 1 1.

(** [n] days after [d]. *)
Definition days_after (n : nat) (d : date) : date := Nat.iter n tomorrow d.

(** ** Strings *)

(** [str.split(sep)] for a separator of one character: the pieces between
    the occurrences of [sep], so always at least one piece. *)
Fixpoint str_split (sep : ascii) (s : string) : list string :=
  match s with
  | EmptyString => [EmptyString]
  | String c s' =>
      if Ascii.eqb c sep then EmptyString :: str_split sep s'
      else match str_split sep s' with
           | [] => [String c EmptyString]
           | piece :: pieces => String c piece :: pieces
           end
  end.

(** [str.isspace] on one character: the code points below 256 that
    Python counts as whitespace. *)
Definition isspace (c : ascii) : bool :=
  let n := N_of_ascii c in
  ((9 <=? n) && (n <=? 13) || (28 <=? n) && (n <=? 32)
   || (n =? 133) || (n =? 160))%N.

Fixpoint lstrip (s : string) : string :=
  match s with
  | EmptyString => EmptyString
  | String c s' => if isspace c then lstrip s' else s
  end.

Fixpoint rstrip (s : string) : string :=
  match s with
  | EmptyString => EmptyString
  | String c s' =>
      match rstrip s' with
      | EmptyString => if isspace c then EmptyString else String c EmptyString
      | rest => String c rest
      end
  end.

(** [str.strip()]. *)
Definition strip (s : string) : string := rstrip (lstrip s).

(** [c in s] for a character [c]. *)
Fixpoint contains (c : ascii) (s : string) : bool :=
  match s with
  | EmptyString => false
  | String c' s' => Ascii.eqb c' c || contains c s'
  end.

(** Truth value of a [str]: false only for the empty one. *)
Definition str_bool (s : string) : bool :=
  match s with EmptyString => false | String _ _ => true end.

(** ** The tables *)

Abbreviation UUID := N.

Module Listing.
Record t : Type := mk {
  listing_id : UUID;
  title : string;
  description : string;
  location : string;
  price_per_night : Qc;
  number_of_bedrooms : Z;
  number_of_bathrooms : Z;
  max_guest_count : Z;
  host : Z;              (* the primary key of the User *)
  is_available : bool;
  amenities : string
}.
End Listing.

Inductive BOOKING_STATUS_CHOICES : Type :=
  | pending | confirmed | canceled | completed.

Module Booking.
Record t : Type := mk {
  listing : UUID;        (* the column listing_id *)
  user : Z;              (* the column user_id *)
  check_in_date : date;
  check_out_date : date;
  number_of_guests : Z;
  total_price : Qc;
  status : BOOKING_STATUS_CHOICES;
  special_requests : string
}.
End Booking.

Module Review.
Record t : Type := mk {
  listing : UUID;
  user : Z;
  rating : Z;
  comment : string
}.
End Review.

(** The rows of the three tables and the primary keys of the users.  The
    listings are keyed by [listing_id]; the bookings and the reviews are
    listed newest first ([ordering = ['-created_at']]), their own primary
    keys and the timestamps, which no rule reads, left out. *)
Record Database : Type := mkDatabase {
  users : gset Z;
  listings : gmap UUID Listing.t;
  bookings : list Booking.t;
  reviews : list Review.t
}.

(** The statements sent to the database. *)
Inductive query : Type :=
  | SELECT_listing (listing_id : UUID)
  | SELECT_reviews (listing_id : UUID)
  | INSERT_booking (row : Booking.t)
  | INSERT_review (row : Review.t).

Record World : Type := mkWorld {
  db : Database;
  queries : list query     (* the statements issued so far, oldest first *)
}.

(** ** The monad of code that talks to the database *)

Definition DB (A : Type) : Type := World -> result A * World.

#[export] Instance DB_ret : MRet DB := fun A (a : A) w => (Ok a, w).

#[export] Instance DB_bind : MBind DB := fun A B (k : A -> DB B) (m : DB A) w =>
  match m w with
  | (Ok a, w') => k a w'
  | (Raise e, w') => (Raise e, w')
  end.

Definition raise {A} (e : exn) : DB A := fun w => (Raise e, w).

(** [try: body except ...: handler]; the handler re-raises what it does
    not catch. *)
Definition try_except {A} (body : DB A) (handler : exn -> DB A) : DB A :=
  fun w =>
    match body w with
    | (Ok a, w') => (Ok a, w')
    | (Raise e, w') => handler e w'
    end.

Definition lift {A} (r : result A) : DB A := fun w => (r, w).

Definition issue (q : query) : DB unit :=
  fun w => (Ok (), mkWorld (db w) (queries w ++ [q])).

Definition read_db : DB Database := fun w => (Ok (db w), w).

Definition write_db (d : Database) : DB unit :=
  fun w => (Ok (), mkWorld d (queries w)).

(** [Listing.objects.get(listing_id=listing_id)]. *)
Definition Listing_objects_get (listing_id : UUID) : DB Listing.t :=
  _ ← issue (SELECT_listing listing_id);
  d ← read_db;
  match listings d !! listing_id with
  | Some l => mret l
  | None => raise DoesNotExist
  end.

(** The rows of the reverse relation [listing.reviews]. *)
Definition reviews_of (self : Listing.t) (d : Database) : list Review.t :=
  filter (fun r => Review.listing r = Listing.listing_id self) (reviews d).

(** [listing.reviews.all()], evaluated. *)
Definition Listing_reviews_all (self : Listing.t) : DB (list Review.t) :=
  _ ← issue (SELECT_reviews (Listing.listing_id self));
  d ← read_db;
  mret (reviews_of self d).

(** ** listings/models.py *)

(** Python's [sum] of a sequence of integers. *)
Definition sum (l : list Z) : Z := fold_left Z.add l 0.

(** [len]. *)
Definition len {A} (l : list A) : Z := Z.of_nat (length l).

(** The property [Listing.average_rating]: the [float] that [/] yields,
    or the [int] 0. *)
Definition Listing_average_rating (self : Listing.t) : DB number :=
  reviews ← Listing_reviews_all self;
  match reviews with
  | _ :: _ =>
      average ← lift (float.truediv (sum (Review.rating <$> reviews)) (len reviews));
      mret (Float average)
  | [] => mret (Int 0)
  end.

(** What [average_rating] returns when [rs] are the reviews it has read. *)
Definition average_of (rs : list Review.t) : result number :=
  match rs with
  | [] => Ok (Int 0)
  | _ :: _ =>
      match float.truediv (sum (Review.rating <$> rs)) (len rs) with
      | Ok average => Ok (Float average)
      | Raise e => Raise e
      end
  end.

(** The property [Booking.duration_days]. *)
Definition Booking_duration_days (self : Booking.t) : Z :=
  datetime.days
    (datetime.sub (Booking.check_out_date self) (Booking.check_in_date self)).

(** The two messages that booking validation raises, on both paths. *)
Definition checkout_message : string :=
  "Check-out date must be after check-in date.".

Definition guests_message (number_of_guests max_guest_count : Z) : string :=
  "Number of guests (" +:+ pretty number_of_guests +:+ ") exceeds "
  +:+ "maximum allowed (" +:+ pretty max_guest_count +:+ ").".

(** [Booking.clean].  The access [self.listing] follows the foreign key
    and raises [DoesNotExist] when it dangles. *)
Definition Booking_clean (self : Booking.t) : DB unit :=
  if datetime.le (Booking.check_out_date self) (Booking.check_in_date self)
  then raise (ValidationError checkout_message)
  else
    listing ← Listing_objects_get (Booking.listing self);
    if Booking.number_of_guests self >? Listing.max_guest_count listing
    then raise (ValidationError
                  (guests_message (Booking.number_of_guests self)
                                  (Listing.max_guest_count listing)))
    else mret ().

(** The names of the constraints of the tables, as the database reports
    them. *)
Definition check_out_after_check_in : string := "check_out_after_check_in".
Definition at_least_one_guest : string := "at_least_one_guest".
Definition number_of_guests_check : string := "number_of_guests_check".
Definition rating_check : string := "rating_check".
Definition listing_fkey : string := "listing_id_fkey".
Definition user_fkey : string := "user_id_fkey".

(** The constraint that a row violates, if any: the checks of
    [Meta.constraints] in their order, the one on the number of guests
    after the check [>= 0] that the column has as a
    [PositiveIntegerField], then the foreign keys.  Which of several
    violated constraints the database names is the backend's choice. *)
Definition Booking_violation (d : Database) (row : Booking.t) : option string :=
  if negb (datetime.lt (Booking.check_in_date row) (Booking.check_out_date row))
  then Some check_out_after_check_in
  else if negb (Booking.number_of_guests row >=? 0)
  then Some number_of_guests_check
  else if negb (Booking.number_of_guests row >=? 1)
  then Some at_least_one_guest
  else if negb (bool_decide (is_Some (listings d !! Booking.listing row)))
  then Some listing_fkey
  else if negb (bool_decide (Booking.user row ∈ users d))
  then Some user_fkey
  else None.

(** The row as the table holds it: [total_price] is a column of
    [DecimalField(max_digits=10, decimal_places=2)]. *)
Definition Booking_with_total_price (row : Booking.t) (total_price : Qc)
  : Booking.t :=
  Booking.mk (Booking.listing row) (Booking.user row)
    (Booking.check_in_date row) (Booking.check_out_date row)
    (Booking.number_of_guests row) total_price
    (Booking.status row) (Booking.special_requests row).

(** The row that the table holds when [row] has been inserted: the price
    is rounded to the two decimal places of the column. *)
Definition Booking_stored (row : Booking.t) : Booking.t :=
  Booking_with_total_price row (quantize 2 (Booking.total_price row)).

(** [Booking.objects.create(...)]: the price is formatted for its column,
    which raises before any statement when it has too many digits; the
    INSERT either violates a constraint, and changes nothing, or adds the
    row.  The object returned keeps the price it was given. *)
Definition Booking_objects_create (row : Booking.t) : DB Booking.t :=
  total_price ← lift (format_number (Booking.total_price row) 10 2);
  let stored := Booking_with_total_price row total_price in
  _ ← issue (INSERT_booking stored);
  d ← read_db;
  match Booking_violation d stored with
  | Some c => raise (IntegrityError c)
  | None =>
      _ ← write_db (mkDatabase (users d) (listings d) (stored :: bookings d)
                      (reviews d));
      mret row
  end.

(** Whether the pair of [unique_together = ['listing', 'user']] of [row]
    is already in the table. *)
Definition Review_same_pair (a b : Review.t) : bool :=
  (Review.listing a =? Review.listing b)%N && (Review.user a =? Review.user b).

(** A [PositiveIntegerField] column carries the check [>= 0]; the
    validators of [rating] are not part of the table. *)
Definition Review_violation (d : Database) (row : Review.t) : option string :=
  if negb (Review.rating row >=? 0)
  then Some rating_check
  else if existsb (Review_same_pair row) (reviews d)
  then Some review_unique_together
  else if negb (bool_decide (is_Some (listings d !! Review.listing row)))
  then Some listing_fkey
  else if negb (bool_decide (Review.user row ∈ users d))
  then Some user_fkey
  else None.

(** [Review.objects.create(...)]. *)
Definition Review_objects_create (row : Review.t) : DB Review.t :=
  _ ← issue (INSERT_review row);
  d ← read_db;
  match Review_violation d row with
  | Some c => raise (IntegrityError c)
  | None =>
      _ ← write_db (mkDatabase (users d) (listings d) (bookings d) (row :: reviews d));
      mret row
  end.

(** ** alx_travel_app/listings/serializers.py *)

(** [ListingSerializer.get_amenities_list]. *)
Definition ListingSerializer_get_amenities_list (obj : Listing.t) : list string :=
  if str_bool (Listing.amenities obj)
  then strip <$> str_split "," (Listing.amenities obj)
  else [].

(** [ListingListSerializer.get_review_count]. *)
Definition ListingListSerializer_get_review_count (obj : Listing.t) : DB Z :=
  reviews ← Listing_reviews_all obj;
  mret (len reviews).

(** [ListingListSerializer.get_amenities_list]. *)
Definition ListingListSerializer_get_amenities_list (obj : Listing.t)
  : list string :=
  if str_bool (Listing.amenities obj)
  then strip <$> str_split "," (Listing.amenities obj)
  else [].

(** The dict of a booking, as the request carries it and as
    [BookingSerializer.validate] receives it: a field is [None] when the
    key is absent, which is what [data.get] returns. *)
Module BookingData.
Record t : Type := mk {
  listing_id : option UUID;
  user_id : option Z;
  check_in_date : option date;
  check_out_date : option date;
  number_of_guests : option Z;
  total_price : option Decimal.t;
  status : option BOOKING_STATUS_CHOICES;
  special_requests : option string
}.
End BookingData.

(** [BookingSerializer.validate].  A date and a UUID are always true as
    conditions, an [int] is true when it is not 0, and [None] is false. *)
Definition BookingSerializer_validate (data : BookingData.t) : DB BookingData.t :=
  let check_in := BookingData.check_in_date data in
  let check_out := BookingData.check_out_date data in
  _ ← match check_in, check_out with
      | Some check_in, Some check_out =>
          if datetime.le check_out check_in
          then raise (serializers_ValidationError checkout_message)
          else mret ()
      | _, _ => mret ()
      end;
  let listing_id := BookingData.listing_id data in
  let number_of_guests := BookingData.number_of_guests data in
  _ ← match listing_id, number_of_guests with
      | Some listing_id, Some number_of_guests =>
          if number_of_guests =? 0 then mret ()
          else
            try_except
              (listing ← Listing_objects_get listing_id;
               if number_of_guests >? Listing.max_guest_count listing
               then raise (serializers_ValidationError
                             (guests_message number_of_guests
                                             (Listing.max_guest_count listing)))
               else mret ())
              (fun e =>
                 match e with
                 | DoesNotExist =>
                     raise (serializers_ValidationError "Invalid listing ID.")
                 | _ => raise e
                 end)
      | _, _ => mret ()
      end;
  mret data.

(** [BookingCreateSerializer.validate] compares the dates without a
    guard; it is defined where both are present. *)
Definition BookingCreateSerializer_validate (check_in check_out : date)
  : result unit :=
  if datetime.le check_out check_in
  then Raise (serializers_ValidationError checkout_message)
  else Ok ().

(** The fields a [BookingSerializer] requires when it creates: those of
    the model without a default.  [status] defaults to [pending] and
    [special_requests] to the empty string. *)
Definition BookingSerializer_to_row (data : BookingData.t) : result Booking.t :=
  match BookingData.listing_id data, BookingData.user_id data,
        BookingData.check_in_date data, BookingData.check_out_date data,
        BookingData.number_of_guests data, BookingData.total_price data with
  | Some l, Some u, Some ci, Some co, Some g, Some p =>
      Ok (Booking.mk l u ci co g (Decimal.value p)
            (default pending (BookingData.status data))
            (default "" (BookingData.special_requests data)))
  | _, _, _, _, _, _ =>
      Raise (serializers_ValidationError "This field is required.")
  end.

(** The row of a request when its fields have been validated: the
    special requests are stripped. *)
Definition Booking_validated (row : Booking.t) : Booking.t :=
  Booking.mk (Booking.listing row) (Booking.user row)
    (Booking.check_in_date row) (Booking.check_out_date row)
    (Booking.number_of_guests row) (Booking.total_price row)
    (Booking.status row) (strip (Booking.special_requests row)).

(** *** The fields of [BookingSerializer]

    What [is_valid()] does before it calls [validate]: each field that
    can be written validates its own value, then the serializer's
    [validate_<field>] runs on it.  The fields are those that
    [ModelSerializer] builds from the model: a field of the model without
    a default is required; [number_of_guests], a [PositiveIntegerField],
    has [min_value=0]; [total_price] is a
    [DecimalField(max_digits=10, decimal_places=2, min_value=0)];
    [special_requests] is a [CharField(allow_blank=True)], which strips
    the string and refuses null characters.  The largest integer of the
    column, which [number_of_guests] has as [max_value], is the database
    backend's, 2147483647 or more, and is left out: the model is the code
    for numbers of guests up to 2147483647. *)

Definition field_required {A} (value : option A) : result A :=
  match value with
  | Some a => Ok a
  | None => Raise (serializers_ValidationError "This field is required.")
  end.

Definition min_value_message : string :=
  "Ensure this value is greater than or equal to 0.".

Definition number_of_guests_field (value : option Z) : result Z :=
  match field_required value with
  | Ok g =>
      if g <? 0 then Raise (serializers_ValidationError min_value_message)
      else Ok g
  | Raise e => Raise e
  end.

(** [DecimalField.quantize] after [validate_precision]: the same number
    with [decimal_places] digits after the point. *)
Definition DecimalField_quantize (decimal_places : Z) (value : Decimal.t)
  : Decimal.t :=
  Decimal.mk (Decimal.sign value)
    (Z.to_N (round_half_even
               (inject_Z (Z.of_N (Decimal.coefficient value))
                * 10 ^ (Decimal.exponent value + decimal_places))%Q))
    (- decimal_places).

Definition total_price_field (value : option Decimal.t) : result Decimal.t :=
  match field_required value with
  | Ok d =>
      match DecimalField_validate_precision 10 2 d with
      | Ok d =>
          let d := DecimalField_quantize 2 d in
          if bool_decide (Decimal.value d < 0)%Qc
          then Raise (serializers_ValidationError min_value_message)
          else
            match validate_total_price (Decimal.value d) with
            | Ok _ => Ok d
            | Raise e => Raise e
            end
      | Raise e => Raise e
      end
  | Raise e => Raise e
  end.

Definition special_requests_field (value : option string)
  : result (option string) :=
  match value with
  | Some s =>
      let s := strip s in
      if contains "000"%char s
      then Raise (serializers_ValidationError "Null characters are not allowed.")
      else Ok (Some s)
  | None => Ok None
  end.

(** The entry of a field in the dict of errors. *)
Definition field_error {A} (name : string) (r : result A)
  : list (string * string) :=
  match r with
  | Raise (serializers_ValidationError message) => [(name, message)]
  | _ => []
  end.

(** The errors of the fields, as text: [name: message], in the order of
    [Meta.fields]. *)
Fixpoint errors_detail (errors : list (string * string)) : string :=
  match errors with
  | [] => ""
  | [(name, message)] => name +:+ ": " +:+ message
  | (name, message) :: rest =>
      name +:+ ": " +:+ message +:+ " " +:+ errors_detail rest
  end.

(** [Serializer.to_internal_value]: the validated data, or one
    [ValidationError] with the errors of all the fields. *)
Definition BookingSerializer_to_internal_value (data : BookingData.t)
  : result BookingData.t :=
  let listing_id := field_required (BookingData.listing_id data) in
  let user_id := field_required (BookingData.user_id data) in
  let check_in_date := field_required (BookingData.check_in_date data) in
  let check_out_date := field_required (BookingData.check_out_date data) in
  let number_of_guests := number_of_guests_field (BookingData.number_of_guests data) in
  let total_price := total_price_field (BookingData.total_price data) in
  let special_requests :=
    special_requests_field (BookingData.special_requests data) in
  match listing_id, user_id, check_in_date, check_out_date,
        number_of_guests, total_price, special_requests with
  | Ok l, Ok u, Ok ci, Ok co, Ok g, Ok p, Ok r =>
      Ok (BookingData.mk (Some l) (Some u) (Some ci) (Some co) (Some g) (Some p)
            (BookingData.status data) r)
  | _, _, _, _, _, _, _ =>
      Raise (serializers_ValidationError
               (errors_detail
                  (field_error "listing_id" listing_id
                   ++ field_error "user_id" user_id
                   ++ field_error "check_in_date" check_in_date
                   ++ field_error "check_out_date" check_out_date
                   ++ field_error "number_of_guests" number_of_guests
                   ++ field_error "total_price" total_price
                   ++ field_error "special_requests" special_requests)))
  end.

(** Creating a booking through the serializer: [is_valid()] validates the
    fields, then calls [validate]; [save()] inserts the row. *)
Definition BookingSerializer_create (data : BookingData.t) : DB Booking.t :=
  internal ← lift (BookingSerializer_to_internal_value data);
  validated ← BookingSerializer_validate internal;
  row ← lift (BookingSerializer_to_row validated);
  Booking_objects_create row.

(** ** The notions of the specification *)

(** The total of a list of ratings. *)
Definition total (l : list Z) : Z := foldr Z.add 0 l.

(** The arithmetic mean of a non-empty list: the total over the number
    of elements. *)
Definition arithmetic_mean (l : list Z) : Q :=
  (inject_Z (total l) / inject_Z (Z.of_nat (length l)))%Q.

(** The doubles: the numbers [m * 2^e] with a significand of at most 53
    bits and an exponent in the range of binary64. *)
Definition is_double (x : Q) : Prop :=
  exists m e : Z,
    Z.abs m < 2 ^ 53 /\ -1074 <= e <= 971 /\ (x == inject_Z m * 2 ^ e)%Q.

(** [x] is a double nearest to [q]. *)
Definition nearest_double (q x : Q) : Prop :=
  is_double x /\ forall y, is_double y -> (Qabs (x - q) <= Qabs (y - q))%Q.

(** [sep.join(pieces)], the inverse of splitting. *)
Fixpoint str_join (sep : ascii) (pieces : list string) : string :=
  match pieces with
  | [] => EmptyString
  | [piece] => piece
  | piece :: rest => piece +:+ String sep (str_join sep rest)
  end.


(** [pieces] is [s] split on [sep]: the pieces hold no separator and
    give back [s] when joined by it. *)
Definition split_on (sep : ascii) (s : string) (pieces : list string) : Prop :=
  pieces <> [] /\
  Forall (fun piece => contains sep piece = false) pieces /\
  str_join sep pieces = s.

Fixpoint all_space (s : string) : bool :=
  match s with
  | EmptyString => true
  | String c s' => isspace c && all_space s'
  end.

Definition starts_with_space (s : string) : bool :=
  match s with
  | EmptyString => false
  | String c _ => isspace c
  end.

Fixpoint ends_with_space (s : string) : bool :=
  match s with
  | EmptyString => false
  | String c EmptyString => isspace c
  | String _ s' => ends_with_space s'
  end.

(** [u] is [t] without its leading and trailing whitespace. *)
Definition trimmed (t u : string) : Prop :=
  exists leading trailing,
    t = leading +:+ u +:+ trailing /\
    all_space leading = true /\ all_space trailing = true /\
    starts_with_space u = false /\ ends_with_space u = false.

(** The user has a review of the listing in the table. *)
Definition reviewed (d : Database) (listing : UUID) (user : Z) : Prop :=
  exists r, r ∈ reviews d /\ Review.listing r = listing /\ Review.user r = user.

(** At most one review for each pair of a listing and a user. *)
Definition unique_reviews (d : Database) : Prop :=
  NoDup ((fun r => (Review.listing r, Review.user r)) <$> reviews d).

(** ** The data of the specification's examples *)

(** A listing for four guests with three amenities, and a database in
    which it has reviews rated 3, 4 and 5 while another listing has one
    rated 1. *)
Definition rated_listing : Listing.t :=
  Listing.mk 7%N "Villa in Lagos" "Beautiful villa" "Lagos" (Qc_of_Z 100)
    2 1 4 1 true "WiFi, Kitchen, Parking".

Definition other_listing : Listing.t :=
  Listing.mk 8%N "Cabin in Accra" "Cosy cabin" "Accra" (Qc_of_Z 50)
    1 1 2 1 true "".

Definition rated_database : Database :=
  mkDatabase {[1; 2; 3; 4]}
    {[ 7%N := rated_listing; 8%N := other_listing ]}
    []
    [Review.mk 7%N 2 3 "Great value for money.";
     Review.mk 8%N 2 1 "Not as described.";
     Review.mk 7%N 3 4 "Great location and very clean.";
     Review.mk 7%N 4 5 "Exceeded our expectations!"].

Definition rated_world : World := mkWorld rated_database [].



(** A booking from 10 to 12 June 2024. *)
Definition june_booking : Booking.t :=
  Booking.mk 1%N 1 (datetime.mkdate 2024 6 10) (datetime.mkdate 2024 6 12)
    2 (Qc_of_Z 200) pending "".

(** The price 200.00. *)
Definition two_hundred : Decimal.t := Decimal.mk false 20000 (-2).

(** The data of a request by user 2 to book a listing from 10 to 12 June
    2024 for a number of guests. *)
Definition booking_request (listing_id : UUID) (number_of_guests : Z)
  : BookingData.t :=
  BookingData.mk (Some listing_id) (Some 2)
    (Some (datetime.mkdate 2024 6 10)) (Some (datetime.mkdate 2024 6 12))
    (Some number_of_guests) (Some two_hundred) None None.

(** The row that such a request inserts. *)
Definition booking_row (listing_id : UUID) (number_of_guests : Z) : Booking.t :=
  Booking.mk listing_id 2 (datetime.mkdate 2024 6 10) (datetime.mkdate 2024 6 12)
    number_of_guests (Decimal.value two_hundred) pending "".

(** A primary key that names no listing of [rated_database]. *)
Definition unknown_listing_id : UUID := 99%N.

(** A review of the other listing by user 3, who has not reviewed it
    while user 2 has, and a second review of the rated listing by user 4,
    whose first review is the oldest of the table. *)
Definition first_review : Review.t :=
  Review.mk 8%N 3 5 "Perfect for a weekend getaway.".

Definition second_review : Review.t :=
  Review.mk 7%N 4 2 "On second thought.".

(** ** More of listings/models.py *)

(** The values that a column of [DecimalField(max_digits, decimal_places)]
    holds: the multiples of [10^-decimal_places] of at most [max_digits]
    digits. *)
Definition Decimal_column (max_digits decimal_places : Z) (q : Qc) : Prop :=
  exists n : Z,
    Z.abs n < 10 ^ max_digits /\ q = Q2Qc (inject_Z n / 10 ^ decimal_places)%Q.

(** What the table of bookings guarantees of a row: its two check
    constraints, its two foreign keys and the type of the column of the
    price. *)
Definition Booking_row_ok (d : Database) (row : Booking.t) : Prop :=
  datetime.lt (Booking.check_in_date row) (Booking.check_out_date row) = true /\
  1 <= Booking.number_of_guests row /\
  is_Some (listings d !! Booking.listing row) /\
  Booking.user row ∈ users d /\
  Decimal_column 10 2 (Booking.total_price row).

Definition bookings_ok (d : Database) : Prop :=
  Forall (Booking_row_ok d) (bookings d).

(** What the table of reviews guarantees of a row. *)
Definition Review_row_ok (d : Database) (row : Review.t) : Prop :=
  0 <= Review.rating row /\
  is_Some (listings d !! Review.listing row) /\
  Review.user row ∈ users d.

Definition reviews_ok (d : Database) : Prop :=
  Forall (Review_row_ok d) (reviews d) /\ unique_reviews d.

(** ** More of Python's strings *)

(** [sep.join(pieces)] for any separator. *)
Fixpoint join (sep : string) (pieces : list string) : string :=
  match pieces with
  | [] => EmptyString
  | [piece] => piece
  | piece :: rest => piece +:+ sep +:+ join sep rest
  end.

(** The number of occurrences of a character. *)
Fixpoint count_char (c : ascii) (s : string) : nat :=
  match s with
  | EmptyString => 0
  | String c' s' => (if Ascii.eqb c' c then 1 else 0) + count_char c s'
  end.

(** ** The sample data of management/commands/seed.py *)

(** The local [amenities_list] of [create_listings]. *)
Definition amenities_list : list (list string) :=
  [ ["WiFi"; "Kitchen"; "Parking"];
    ["WiFi"; "Pool"; "Gym"; "Kitchen"];
    ["WiFi"; "Beach Access"; "Kitchen"; "Parking"];
    ["WiFi"; "Mountain View"; "Fireplace"; "Kitchen"];
    ["WiFi"; "City View"; "Gym"; "Rooftop"];
    ["WiFi"; "Garden"; "Kitchen"; "Parking"];
    ["WiFi"; "Kitchen"; "Balcony"; "Gym"];
    ["WiFi"; "Historic Features"; "Kitchen"; "Parking"];
    ["WiFi"; "City View"; "Luxury Amenities"; "Concierge"];
    ["WiFi"; "Kitchen"; "Parking"];
    ["WiFi"; "Kitchen"; "Backyard"; "Parking"];
    ["WiFi"; "Pool"; "Spa"; "Restaurant"] ].

(** A listing with the given amenities string; the other fields are those
    of [rated_listing]. *)
Definition with_amenities (amenities : string) : Listing.t :=
  Listing.mk 7%N "Villa in Lagos" "Beautiful villa" "Lagos" (Qc_of_Z 100)
    2 1 4 1 true amenities.

(** ** Dates from ordinals *)

(** The rest of the [datetime] module that the seeder uses: [date +
    timedelta], which goes through the ordinal and back. *)
Module datetime_add.
Import datetime.

Definition _DI400Y : Z := _days_before_year 401.
Definition _DI100Y : Z := _days_before_year 101.
Definition _DI4Y : Z := _days_before_year 5.
Definition _MAXORDINAL : Z := 3652059.

(** [_ord2ymd(n)]; its assertions are left out and proved below. *)
Definition _ord2ymd (n : Z) : Z * Z * Z :=
  let n := n - 1 in
  let n400 := n / _DI400Y in
  let n := n mod _DI400Y in
  let year := n400 * 400 + 1 in
  let n100 := n / _DI100Y in
  let n := n mod _DI100Y in
  let n4 := n / _DI4Y in
  let n := n mod _DI4Y in
  let n1 := n / 365 in
  let n := n mod 365 in
  let year := year + (n100 * 100 + n4 * 4 + n1) in
  if (n1 =? 4) || (n100 =? 4) then (year - 1, 12, 31)
  else
    let leapyear := (n1 =? 3) && (negb (n4 =? 24) || (n100 =? 3)) in
    let month := Z.shiftr (n + 50) 5 in
    let preceding :=
      nth (Z.to_nat month) _DAYS_BEFORE_MONTH 0
      + (if (month >? 2) && leapyear then 1 else 0) in
    if preceding >? n
    then
      let month := month - 1 in
      let preceding :=
        preceding
        - (nth (Z.to_nat month) _DAYS_IN_MONTH 0
           + (if (month =? 2) && leapyear then 1 else 0)) in
      (year, month, n - preceding + 1)
    else (year, month, n - preceding + 1).

(** [date.fromordinal(n)], where the constructor accepts the fields. *)
Definition fromordinal (n : Z) : date :=
  let '(y, m, d) := _ord2ymd n in mkdate y m d.

(** [date.__add__] for a [timedelta] of [days] days: the date, or [None]
    for the [OverflowError] of a result out of range. *)
Definition add (self : date) (days : Z) : option date :=
  let o := toordinal self + days in
  if (0 <? o) && (o <=? _MAXORDINAL) then Some (fromordinal o) else None.

End datetime_add.

(** ** management/commands/seed.py *)

(** The exceptions that can end the seeder: those of [random] and of date
    arithmetic, and those of the database. *)
Inductive seed_exn : Type :=
  | IndexError          (* random.choice of an empty sequence *)
  | ValueError          (* random.randint of an empty range *)
  | OverflowError       (* date + timedelta out of range *)
  | DatabaseError (e : exn).

Inductive outcome (A : Type) : Type :=
  | Returns (a : A)
  | Raises (e : seed_exn).

Arguments Returns {A} a.
Arguments Raises {A} e.

(** The state of a run of the seeder: the database and the random
    source, a sequence of raw draws of which [position] have been used. *)
Record SeedState : Type := mkSeedState {
  world : World;
  rng : nat -> N;
  position : nat
}.

Definition Seed (A : Type) : Type := SeedState -> outcome A * SeedState.

#[export] Instance Seed_ret : MRet Seed := fun A (a : A) s => (Returns a, s).

#[export] Instance Seed_bind : MBind Seed :=
  fun A B (k : A -> Seed B) (m : Seed A) s =>
    match m s with
    | (Returns a, s') => k a s'
    | (Raises e, s') => (Raises e, s')
    end.

Definition seed_raise {A} (e : seed_exn) : Seed A := fun s => (Raises e, s).

(** Runs code of the models; an exception of the database ends the
    seeder. *)
Definition in_db {A} (m : DB A) : Seed A :=
  fun s =>
    match m (world s) with
    | (Ok a, w') => (Returns a, mkSeedState w' (rng s) (position s))
    | (Raise e, w') =>
        (Raises (DatabaseError e), mkSeedState w' (rng s) (position s))
    end.

(** Python's [random], every result a function of the next raw draw. *)
Module random.

(** [_randbelow(n)] for [n > 0]: an integer from 0 to [n - 1]. *)
Definition _randbelow (n : Z) : Seed Z :=
  fun s =>
    (Returns (Z.of_N (rng s (position s)) mod n),
     mkSeedState (world s) (rng s) (S (position s))).

(** [random.choice(seq)]. *)
Definition choice {A} (seq : list A) : Seed A :=
  match seq with
  | [] => seed_raise IndexError
  | first :: _ =>
      i ← _randbelow (len seq);
      mret (nth (Z.to_nat i) seq first)
  end.

(** [random.randint(a, b)], that is [randrange(a, b + 1)]. *)
Definition randint (a b : Z) : Seed Z :=
  let width := b + 1 - a in
  if width >? 0
  then i ← _randbelow width; mret (a + i)
  else seed_raise ValueError.

End random.

(** [date + timedelta(days=days)] in the seeder. *)
Definition date_plus (d : date) (days : Z) : Seed date :=
  match datetime_add.add d days with
  | Some d' => mret d'
  | None => seed_raise OverflowError
  end.

(** The local lists of [create_bookings]. *)
Definition statuses : list BOOKING_STATUS_CHOICES :=
  [pending; confirmed; canceled; completed].

Definition special_requests_choices : list string :=
  [""; "Late check-in requested"; "Extra towels please";
   "Quiet room preferred"; "Ground floor if possible"].

(** The local list [review_comments] of [create_reviews]. *)
Definition review_comments : list string :=
  ["Amazing place! Highly recommended.";
   "Great location and very clean.";
   "Perfect for a weekend getaway.";
   "Host was very responsive and helpful.";
   "Beautiful property with great amenities.";
   "Exactly as described. Will book again!";
   "Fantastic experience overall.";
   "Great value for money.";
   "Very comfortable and well-equipped.";
   "Excellent location close to everything.";
   "Clean, comfortable, and convenient.";
   "Would definitely stay here again.";
   "Perfect for families.";
   "Great host and beautiful property.";
   "Exceeded our expectations!"].

(** The users other than the host of a listing:
    [[u for u in users if u != listing.host]].  A user is its primary
    key. *)
Definition guests_of (users : list Z) (listing : Listing.t) : list Z :=
  filter (fun u => u <> Listing.host listing) users.

(** The body of the loop of [Command.create_bookings]; [today] is
    [date.today()], the same day for the whole run. *)
Definition create_booking (users : list Z) (listings : list Listing.t)
    (today : date) : Seed Booking.t :=
  listing ← random.choice listings;
  user ← random.choice (guests_of users listing);
  offset ← random.randint (-30) 60;
  start_date ← date_plus today offset;
  duration ← random.randint 1 14;
  end_date ← date_plus start_date duration;
  guests ← random.randint 1 (Z.min (Listing.max_guest_count listing) 6);
  let total_price := (Listing.price_per_night listing * Qc_of_Z duration)%Qc in
  status ← random.choice statuses;
  special_requests ← random.choice special_requests_choices;
  in_db (Booking_objects_create
           (Booking.mk (Listing.listing_id listing) user start_date end_date
              guests total_price status special_requests)).

(** The loop [for i in range(count)] of [create_bookings], with the list
    [bookings] built so far. *)
Fixpoint create_bookings_loop (users : list Z) (listings : list Listing.t)
    (today : date) (count : nat) (bookings : list Booking.t)
  : Seed (list Booking.t) :=
  match count with
  | O => mret bookings
  | S count' =>
      booking ← create_booking users listings today;
      create_bookings_loop users listings today count' (bookings ++ [booking])
  end.

(** [Command.create_bookings]. *)
Definition create_bookings (users : list Z) (listings : list Listing.t)
    (today : date) (count : Z) : Seed (list Booking.t) :=
  create_bookings_loop users listings today (Z.to_nat count) [].

(** The loop [while attempts < 50] of [create_reviews], with the attempts
    that are left: the listing and the user of a pair that is not in
    [user_listing_pairs], or [None] when the loop runs out and the [else]
    branch skips the review. *)
Fixpoint find_pair (users : list Z) (listings : list Listing.t)
    (user_listing_pairs : gset (Z * UUID)) (attempts_left : nat)
  : Seed (option (Listing.t * Z)) :=
  match attempts_left with
  | O => mret None
  | S attempts_left' =>
      listing ← random.choice listings;
      user ← random.choice (guests_of users listing);
      let pair := (user, Listing.listing_id listing) in
      if decide (pair ∉ user_listing_pairs)
      then mret (Some (listing, user))
      else find_pair users listings user_listing_pairs attempts_left'
  end.

(** The loop [for i in range(count)] of [create_reviews], with the set
    [user_listing_pairs] and the list [reviews] built so far. *)
Fixpoint create_reviews_loop (users : list Z) (listings : list Listing.t)
    (count : nat) (user_listing_pairs : gset (Z * UUID))
    (reviews : list Review.t) : Seed (list Review.t) :=
  match count with
  | O => mret reviews
  | S count' =>
      found ← find_pair users listings user_listing_pairs 50;
      match found with
      | None =>
          create_reviews_loop users listings count' user_listing_pairs reviews
      | Some (listing, user) =>
          let pair := (user, Listing.listing_id listing) in
          rating ← random.randint 3 5;
          comment ← random.choice review_comments;
          review ← in_db (Review_objects_create
                            (Review.mk (Listing.listing_id listing) user
                               rating comment));
          create_reviews_loop users listings count'
            ({[pair]} ∪ user_listing_pairs) (reviews ++ [review])
      end
  end.

(** [Command.create_reviews]. *)
Definition create_reviews (users : list Z) (listings : list Listing.t)
    (count : Z) : Seed (list Review.t) :=
  create_reviews_loop users listings (Z.to_nat count) ∅ [].

(** ** Notions for the properties of the seeder *)

(** What the random source may change: only its position. *)
Definition draws (s s' : SeedState) : Prop :=
  world s' = world s /\ rng s' = rng s /\ (position s <= position s')%nat.

(** What one turn of the loop of [create_bookings] yields when it
    returns. *)
Definition seeded_booking (users : list Z) (listings : list Listing.t)
    (today : date) (row : Booking.t) : Prop :=
  exists listing,
    listing ∈ listings /\
    Booking.listing row = Listing.listing_id listing /\
    Booking.user row ∈ users /\
    Booking.user row <> Listing.host listing /\
    datetime.valid (Booking.check_in_date row) /\
    datetime.valid (Booking.check_out_date row) /\
    -30 <= datetime.days (datetime.sub (Booking.check_in_date row) today) <= 60 /\
    1 <= Booking_duration_days row <= 14 /\
    1 <= Booking.number_of_guests row <= 6 /\
    Booking.number_of_guests row <= Listing.max_guest_count listing /\
    Booking.total_price row
    = (Listing.price_per_night listing * Qc_of_Z (Booking_duration_days row))%Qc.

(** A state for examples: the database [rated_database], whose users are
    1 to 4, and a random source whose raw draws are 0, 7, 14, ... *)
Definition example_state : SeedState :=
  mkSeedState rated_world (fun n => N.of_nat (7 * n)) 0.

(** 10 June 2024, as [date.today()]. *)
Definition example_today : date := datetime.mkdate 2024 6 10.

(** The pair that [create_reviews] records for a review:
    [(user.id, listing.listing_id)]. *)
Definition pair_of (row : Review.t) : Z * UUID :=
  (Review.user row, Review.listing row).

(** What one turn of the loop of [create_reviews] inserts. *)
Definition seeded_review (users : list Z) (listings : list Listing.t)
    (row : Review.t) : Prop :=
  exists listing,
    listing ∈ listings /\
    Review.listing row = Listing.listing_id listing /\
    Review.user row ∈ users /\
    Review.user row <> Listing.host listing /\
    3 <= Review.rating row <= 5 /\
    Review.comment row ∈ review_comments.

(** The listings and the users given to the seeder are in the
    database. *)
Definition seeded_from (user_list : list Z) (listing_list : list Listing.t)
    (d : Database) : Prop :=
  (forall l, l ∈ listing_list ->
     is_Some (listings d !! Listing.listing_id l)) /\
  (forall u, u ∈ user_list -> u ∈ users d).

(** [str.lower()] on the code points below 256: the letters A to Z and
    the capital letters of Latin-1 move 32 places up. *)
Definition lower_char (c : ascii) : ascii :=
  let n := N_of_ascii c in
  if ((65 <=? n) && (n <=? 90) || (192 <=? n) && (n <=? 214)
      || (216 <=? n) && (n <=? 222))%N
  then ascii_of_N (n + 32)
  else c.

Fixpoint lower (s : string) : string :=
  match s with
  | EmptyString => EmptyString
  | String c s' => String (lower_char c) (lower s')
  end.

(** The local lists of [create_listings]. *)
Definition cities : list string :=
  ["New York"; "Los Angeles"; "Chicago"; "Houston"; "Phoenix";
   "Philadelphia"; "San Antonio"; "San Diego"; "Dallas"; "San Jose";
   "Austin"; "Jacksonville"; "Fort Worth"; "Columbus"; "Charlotte";
   "San Francisco"; "Indianapolis"; "Seattle"; "Denver"; "Boston"].

Definition property_types : list string :=
  ["Cozy Apartment"; "Luxury Villa"; "Beach House"; "Mountain Cabin";
   "City Loft"; "Country Cottage"; "Modern Condo"; "Historic Home";
   "Penthouse Suite"; "Charming Studio"; "Family House"; "Resort Room"].

(** The listing that one turn of the loop of [create_listings] builds: the
    three choices and the keyword arguments of [Listing.objects.create], in
    the order in which they are evaluated.  [listing_id] is the primary key
    that the default [uuid.uuid4] gives the row; the INSERT itself is not
    part of this function. *)
Definition new_listing (users : list Z) (listing_id : UUID) : Seed Listing.t :=
  property_type ← random.choice property_types;
  city ← random.choice cities;
  amenities ← random.choice amenities_list;
  price ← random.randint 50 500;
  number_of_bedrooms ← random.randint 1 4;
  number_of_bathrooms ← random.randint 1 3;
  max_guest_count ← random.randint 1 8;
  host ← random.choice users;
  is_available ← random.choice [true; true; true; false];
  mret (Listing.mk listing_id
          (property_type +:+ " in " +:+ city)
          ("Beautiful " +:+ lower property_type
           +:+ " located in the heart of " +:+ city
           +:+ ". Perfect for travelers looking for comfort and convenience.")
          city
          (Qc_of_Z price)
          number_of_bedrooms number_of_bathrooms max_guest_count
          host is_available (join ", " amenities)).

(** What [new_listing] builds. *)
Definition seeded_listing (users : list Z) (listing_id : UUID)
    (l : Listing.t) : Prop :=
  Listing.listing_id l = listing_id /\
  Listing.host l ∈ users /\
  Listing.location l ∈ cities /\
  (exists property_type,
     property_type ∈ property_types /\
     Listing.title l = property_type +:+ " in " +:+ Listing.location l) /\
  (String.length (Listing.title l) <= 200)%nat /\
  (String.length (Listing.location l) <= 100)%nat /\
  validate_price_per_night (Listing.price_per_night l)
    = Ok (Listing.price_per_night l) /\
  run_validators Listing_price_per_night_validators (Listing.price_per_night l)
    = Ok () /\
  (Qc_of_Z 50 <= Listing.price_per_night l <= Qc_of_Z 500)%Qc /\
  validate_max_guest_count (Listing.max_guest_count l)
    = Ok (Listing.max_guest_count l) /\
  1 <= Listing.max_guest_count l <= 8 /\
  1 <= Listing.number_of_bedrooms l <= 4 /\
  1 <= Listing.number_of_bathrooms l <= 3 /\
  ListingSerializer_get_amenities_list l ∈ amenities_list.

(** * Properties *)

(** ** The calendar *)

Section Calendar.
Import datetime.

Lemma month_cases m : 1 <= m <= 12 ->
  m = 1 \/ m = 2 \/ m = 3 \/ m = 4 \/ m = 5 \/ m = 6 \/
  m = 7 \/ m = 8 \/ m = 9 \/ m = 10 \/ m = 11 \/ m = 12.
Proof. lia. Qed.

Ltac split_month H :=
  apply month_cases in H;
  repeat (destruct H as [H | H]); subst.

Lemma days_before_next_year y :
  _days_before_year (y + 1) =
  _days_before_year y + (if _is_leap y then 366 else 365).
Proof.
  unfold _days_before_year, _is_leap.
  replace (y + 1 - 1) with (y - 1 + 1) by lia.
  destruct (y mod 4 =? 0) eqn:E4, (y mod 100 =? 0) eqn:E100,
           (y mod 400 =? 0) eqn:E400; simpl;
    rewrite ?Z.eqb_eq, ?Z.eqb_neq in *; Z.div_mod_to_equations; lia.
Qed.

Lemma valid_in_calendar d : valid d -> in_calendar d.
Proof. intros [_ H]. exact H. Qed.

Ltac split_day :=
  repeat match goal with
         | |- context [if ?a <? ?b then _ else _] =>
             destruct (Z.ltb_spec a b); simpl
         end.

Lemma toordinal_tomorrow d :
  in_calendar d -> toordinal (tomorrow d) = toordinal d + 1.
Proof.
  destruct d as [y m dd]. unfold in_calendar; simpl. intros (Hm & Hd).
  unfold tomorrow, toordinal, _ymd2ord, _days_in_month, _days_before_month
    in *; simpl in *.
  pose proof (days_before_next_year y) as Hy.
  destruct (_is_leap y) eqn:Hleap; split_month Hm; simpl in *;
    split_day; rewrite ?Hleap; lia.
Qed.

Lemma in_calendar_tomorrow d : in_calendar d -> in_calendar (tomorrow d).
Proof.
  destruct d as [y m dd]. unfold in_calendar; simpl. intros (Hm & Hd).
  unfold tomorrow, _days_in_month in *; simpl in *.
  destruct (_is_leap y) eqn:Hleap; split_month Hm; simpl in *;
    split_day; rewrite ?Hleap; simpl;
    try lia; destruct (_is_leap (y + 1)); lia.
Qed.

Lemma days_after_S n d : days_after (S n) d = tomorrow (days_after n d).
Proof. reflexivity. Qed.

Lemma in_calendar_days_after n d :
  in_calendar d -> in_calendar (days_after n d).
Proof.
  intros H. induction n as [| n IH]; [exact H |].
  rewrite days_after_S. apply in_calendar_tomorrow, IH.
Qed.

Lemma toordinal_days_after n d :
  in_calendar d -> toordinal (days_after n d) = toordinal d + Z.of_nat n.
Proof.
  intros H. induction n as [| n IH].
  - simpl. lia.
  - rewrite days_after_S, toordinal_tomorrow, IH by
      (apply in_calendar_days_after, H). lia.
Qed.

Lemma days_before_year_mono y y' :
  y <= y' -> _days_before_year y + 365 * (y' - y) <= _days_before_year y'.
Proof.
  unfold _days_before_year. intros H. Z.div_mod_to_equations. lia.
Qed.

(** The day of the year lies between 1 and the length of the year. *)
Lemma day_of_year_bounds y m dd :
  1 <= m <= 12 -> 1 <= dd <= _days_in_month y m ->
  1 <= _days_before_month y m + dd <= (if _is_leap y then 366 else 365).
Proof.
  unfold _days_in_month, _days_before_month. intros Hm.
  destruct (_is_leap y); split_month Hm; simpl; lia.
Qed.

Lemma day_of_year_mono y m m' dd dd' :
  1 <= m -> m < m' -> m' <= 12 ->
  dd <= _days_in_month y m -> 1 <= dd' ->
  _days_before_month y m + dd < _days_before_month y m' + dd'.
Proof.
  unfold _days_in_month, _days_before_month. intros H1 Hlt H12.
  assert (Hm : 1 <= m <= 12) by lia.
  assert (Hm' : 1 <= m' <= 12) by lia.
  destruct (_is_leap y); split_month Hm; split_month Hm'; simpl;
    try lia.
Qed.

Lemma date_lt_toordinal a b :
  in_calendar a -> in_calendar b ->
  lt a b = true -> toordinal a < toordinal b.
Proof.
  destruct a as [y m dd], b as [y' m' dd'].
  unfold in_calendar, lt, toordinal, _ymd2ord; simpl.
  intros (Hm & Hd) (Hm' & Hd') H.
  pose proof (day_of_year_bounds y m dd Hm Hd) as Ha.
  pose proof (day_of_year_bounds y' m' dd' Hm' Hd') as Hb.
  destruct (Z.ltb_spec y y') as [Hlt | Hge]; simpl in H.
  - pose proof (days_before_year_mono (y + 1) y' ltac:(lia)) as Hmono.
    rewrite days_before_next_year in Hmono.
    destruct (_is_leap y); lia.
  - destruct (Z.eqb_spec y y') as [<- | Hne]; simpl in H; [| discriminate].
    destruct (Z.ltb_spec m m') as [Hmlt | Hmge]; simpl in H.
    + pose proof (day_of_year_mono y m m' dd dd'
                    ltac:(lia) Hmlt ltac:(lia) ltac:(lia) ltac:(lia)).
      lia.
    + destruct (Z.eqb_spec m m') as [<- | Hmne]; simpl in H; [| discriminate].
      apply Z.ltb_lt in H. lia.
Qed.

Lemma date_eqb_eq a b : eqb a b = true <-> a = b.
Proof.
  destruct a as [y m dd], b as [y' m' dd']. unfold eqb; simpl.
  rewrite !andb_true_iff, !Z.eqb_eq. split.
  - intros [[-> ->] ->]. reflexivity.
  - intros [= -> -> ->]. auto.
Qed.

Lemma date_lt_trichotomy a b : lt a b = true \/ a = b \/ lt b a = true.
Proof.
  rewrite <- date_eqb_eq.
  destruct a as [y m dd], b as [y' m' dd']. unfold lt, eqb; simpl.
  lia.
Qed.

(** Date comparison agrees with the comparison of ordinals. *)
Lemma date_lt_iff_toordinal a b :
  in_calendar a -> in_calendar b ->
  (lt a b = true <-> toordinal a < toordinal b).
Proof.
  intros Ha Hb. split; [apply date_lt_toordinal; assumption |].
  intros H. destruct (date_lt_trichotomy a b) as [Hlt | [-> | Hgt]]; auto.
  - lia.
  - apply date_lt_toordinal in Hgt; auto. lia.
Qed.

Lemma toordinal_inj a b :
  in_calendar a -> in_calendar b -> toordinal a = toordinal b -> a = b.
Proof.
  intros Ha Hb H. destruct (date_lt_trichotomy a b) as [Hlt | [-> | Hgt]]; auto.
  - apply date_lt_toordinal in Hlt; auto. lia.
  - apply date_lt_toordinal in Hgt; auto. lia.
Qed.

Lemma date_le_iff_toordinal a b :
  in_calendar a -> in_calendar b ->
  (le a b = true <-> toordinal a <= toordinal b).
Proof.
  intros Ha Hb. unfold le. rewrite orb_true_iff, date_eqb_eq,
    (date_lt_iff_toordinal a b Ha Hb). split.
  - intros [H | ->]; lia.
  - intros H. destruct (Z.eq_dec (toordinal a) (toordinal b)) as [He | Hn].
    + right. apply toordinal_inj; assumption.
    + left. lia.
Qed.

Lemma date_le_not_lt a b : le b a = negb (lt a b).
Proof.
  destruct a as [y m dd], b as [y' m' dd']. unfold le, lt, eqb; simpl. lia.
Qed.

End Calendar.

(** ** Numbers *)

(** *** Rounding to the nearest double *)

Ltac qabs :=
  repeat match goal with
         | |- context [Qabs ?x] => pattern (Qabs x); apply Qabs_case; intro
         end.

Section FloatFacts.
Local Open Scope Q_scope.
Import float.

Lemma floor_bounds q : inject_Z (Qfloor q) <= q /\ q < inject_Z (Qfloor q) + 1.
Proof.
  split; [apply Qfloor_le|].
  pose proof (Qlt_floor q) as H. rewrite inject_Z_plus in H. exact H.
Qed.

Lemma round_half_even_cases q :
  let f := Qfloor q in
  (round_half_even q = f /\ q - inject_Z f <= 1 # 2) \/
  (round_half_even q = (f + 1)%Z /\ 1 # 2 <= q - inject_Z f).
Proof.
  intros f. unfold round_half_even. fold f.
  destruct (Qcompare_spec (q - inject_Z f) (1 # 2)) as [H|H|H].
  - destruct (Z.even f); [left|right]; split; auto; rewrite H; lra.
  - left. split; auto. lra.
  - right. split; auto. lra.
Qed.

Lemma inject_Z_le_iff a b : (a <= b)%Z -> inject_Z a <= inject_Z b.
Proof. intros. now rewrite <- Zle_Qle. Qed.

(** [round_half_even q] is an integer nearest to [q]. *)
Lemma round_half_even_nearest q (j : Z) :
  Qabs (inject_Z (round_half_even q) - q) <= Qabs (inject_Z j - q).
Proof.
  destruct (floor_bounds q) as [Hlo Hhi].
  assert (Hj : (j <= Qfloor q)%Z \/ (Qfloor q + 1 <= j)%Z) by lia.
  assert (Hj' : inject_Z j <= inject_Z (Qfloor q) \/ inject_Z (Qfloor q) + 1 <= inject_Z j).
  { destruct Hj as [Hj|Hj]; [left|right].
    - now apply inject_Z_le_iff.
    - rewrite <- (inject_Z_plus _ 1). now apply inject_Z_le_iff. }
  destruct (round_half_even_cases q) as [[-> H]|[-> H]];
    rewrite ?inject_Z_plus; change (inject_Z 1) with 1 in *;
    qabs; intros; destruct Hj'; lra.
Qed.

Lemma round_half_even_inject (k : Z) : round_half_even (inject_Z k) = k.
Proof.
  pose proof (round_half_even_nearest (inject_Z k) k) as H.
  assert (inject_Z (round_half_even (inject_Z k)) == inject_Z k).
  { revert H. qabs; intros; lra. }
  now apply inject_Z_injective.
Qed.

End FloatFacts.

Section DoubleFacts.
Local Open Scope Q_scope.
Import float.

Lemma pow2_pos e : 0 < 2 ^ e.
Proof. apply Qpower_0_lt. lra. Qed.

Lemma pow2_add a b : 2 ^ (a + b) == 2 ^ a * 2 ^ b.
Proof. apply Qpower_plus. lra. Qed.

Lemma pow2_le a b : (a <= b)%Z -> 2 ^ a <= 2 ^ b.
Proof. intros. apply Qpower_le_compat_l; [assumption | lra]. Qed.

Lemma pow2_lt a b : (a < b)%Z -> 2 ^ a < 2 ^ b.
Proof. intros. apply Qpower_lt_compat_l; [assumption | lra]. Qed.

Lemma pow2_Z n : (0 <= n)%Z -> inject_Z (2 ^ n) == 2 ^ n.
Proof. intros. now rewrite Zpower_Qpower. Qed.

Lemma pow2_split a b : 2 ^ a == 2 ^ (a - b) * 2 ^ b.
Proof. rewrite <- pow2_add. now replace (a - b + b)%Z with a by lia. Qed.

Lemma Qabs_scale a z : 0 < z -> Qabs (a * z) == Qabs a * z.
Proof. intros. rewrite Qabs_Qmult, (Qabs_pos z); [reflexivity | lra]. Qed.

Lemma scale_le a b z : 0 < z -> a <= b -> a * z <= b * z.
Proof. intros. apply Qmult_le_compat_r; lra. Qed.

Lemma scale_lt a b z : 0 < z -> a < b -> a * z < b * z.
Proof. intros. apply Qmult_lt_compat_r; lra. Qed.

Lemma scale_le_inv a b z : 0 < z -> a * z <= b * z -> a <= b.
Proof. intros Hz H. now apply Qmult_le_r in H. Qed.

Lemma scale_lt_inv a b z : 0 < z -> a * z < b * z -> a < b.
Proof. intros Hz H. now apply Qmult_lt_r in H. Qed.

Lemma div_scale q z : 0 < z -> q / z * z == q.
Proof. intros. field. lra. Qed.

Lemma round_half_even_le s (M : Z) : s <= inject_Z M -> (round_half_even s <= M)%Z.
Proof.
  intros H. destruct (floor_bounds s) as [Hlo Hhi].
  assert (Hf : (Qfloor s <= M)%Z).
  { rewrite Zle_Qle. lra. }
  destruct (round_half_even_cases s) as [[-> _]|[-> Hr]]; [assumption|].
  destruct (Z.eq_dec (Qfloor s) M) as [Heq|Hne]; [|lia].
  rewrite Heq in Hr. lra.
Qed.

Lemma round_half_even_ge s (M : Z) : inject_Z M <= s -> (M <= round_half_even s)%Z.
Proof.
  intros H.
  assert (Hf : (M <= Qfloor s)%Z) by now apply Qfloor_resp_le in H; rewrite Qfloor_Z in H.
  destruct (round_half_even_cases s) as [[-> _]|[-> _]]; lia.
Qed.

Lemma Qabs_num_den q : Qabs q * inject_Z (Z.pos (Qden q)) == inject_Z (Z.abs (Qnum q)).
Proof.
  destruct q as [n d]. unfold Qabs, Qeq, inject_Z, Qmult. simpl. lia.
Qed.

Lemma log2_bounds (n : Z) : (0 < n)%Z ->
  2 ^ Z.log2 n <= inject_Z n /\ inject_Z n < 2 ^ (Z.log2 n + 1).
Proof.
  intros H. destruct (Z.log2_spec n H) as [Hlo Hhi].
  pose proof (Z.log2_nonneg n).
  rewrite <- !pow2_Z by lia. split.
  - now rewrite <- Zle_Qle.
  - rewrite <- Zlt_Qlt. now replace (Z.log2 n + 1)%Z with (Z.succ (Z.log2 n)) by lia.
Qed.

(** [exponent q] is the binary exponent of [q]. *)
Lemma exponent_spec q : ~ q == 0 ->
  2 ^ exponent q <= Qabs q /\ Qabs q < 2 ^ (exponent q + 1).
Proof.
  intros Hq. unfold exponent.
  set (n := Z.abs (Qnum q)). set (d := Z.pos (Qden q)).
  assert (Hn : (0 < n)%Z).
  { subst n. destruct q as [[|?|?] ?]; simpl; try lia. exfalso. apply Hq. reflexivity. }
  assert (Hd : (0 < d)%Z) by (subst d; lia).
  destruct (log2_bounds n Hn) as [Hn1 Hn2].
  destruct (log2_bounds d Hd) as [Hd1 Hd2].
  pose proof (Qabs_num_den q) as Hnd. fold n d in Hnd.
  set (a := Z.log2 n) in *. set (b := Z.log2 d) in *.
  assert (Hqpos : 0 < Qabs q).
  { pose proof (Qabs_nonneg q).
    destruct (Qeq_dec (Qabs q) 0) as [Hz|Hz]; [|lra].
    rewrite Hz, Qmult_0_l in Hnd.
    assert (0 < inject_Z n).
    { change 0 with (inject_Z 0). now rewrite <- Zlt_Qlt. }
    lra. }
  assert (Hlow : 2 ^ (a - b - 1) <= Qabs q).
  { apply (scale_le_inv _ _ (2 ^ (b + 1))); [apply pow2_pos|].
    rewrite <- pow2_add. replace (a - b - 1 + (b + 1))%Z with a by lia.
    apply Qle_trans with (inject_Z n); [assumption|].
    rewrite <- Hnd. apply Qmult_le_l; [exact Hqpos | lra]. }
  assert (Hhigh : Qabs q < 2 ^ (a - b + 1)).
  { apply (scale_lt_inv _ _ (2 ^ b)); [apply pow2_pos|].
    rewrite <- pow2_add. replace (a - b + 1 + b)%Z with (a + 1)%Z by lia.
    apply Qle_lt_trans with (inject_Z n); [|assumption].
    rewrite <- Hnd. apply Qmult_le_l; [exact Hqpos | lra]. }
  destruct (Qle_bool (2 ^ (a - b)) (Qabs q)) eqn:Hc.
  - apply Qle_bool_iff in Hc. split; assumption.
  - assert (Hc' : ~ 2 ^ (a - b) <= Qabs q).
    { intros Hle. apply Qle_bool_iff in Hle. congruence. }
    split; [assumption|]. replace (a - b - 1 + 1)%Z with (a - b)%Z by lia. lra.
Qed.

End DoubleFacts.

Section Rounding.
Local Open Scope Q_scope.
Import float.

Lemma round_double_nonzero q : ~ q == 0 ->
  round_double q =
  inject_Z (round_half_even (q / 2 ^ ulp_exponent q)) * 2 ^ ulp_exponent q.
Proof.
  intros Hq. unfold round_double.
  destruct (Qeq_bool q 0) eqn:H; [|reflexivity].
  apply Qeq_bool_iff in H. contradiction.
Qed.

Lemma round_double_zero q : q == 0 -> round_double q = 0.
Proof.
  intros Hq. unfold round_double.
  destruct (Qeq_bool q 0) eqn:H; [reflexivity|].
  apply Qeq_bool_iff in Hq. congruence.
Qed.

(** Among the multiples of the unit in the last place, the rounded value
    is nearest. *)
Lemma round_double_grid q (j : Z) : ~ q == 0 ->
  Qabs (round_double q - q) <= Qabs (inject_Z j * 2 ^ ulp_exponent q - q).
Proof.
  intros Hq. rewrite round_double_nonzero by assumption.
  set (z := 2 ^ ulp_exponent q). assert (Hz : 0 < z) by apply pow2_pos.
  set (s := q / z).
  assert (Hs : q == s * z) by (unfold s; now rewrite div_scale).
  assert (H1 : inject_Z (round_half_even s) * z - q
               == (inject_Z (round_half_even s) - s) * z) by (rewrite Hs at 1; ring).
  assert (H2 : inject_Z j * z - q == (inject_Z j - s) * z) by (rewrite Hs at 1; ring).
  rewrite H1, H2, !Qabs_scale by assumption.
  apply scale_le; [assumption|]. apply round_half_even_nearest.
Qed.

Lemma zero_is_double : is_double 0.
Proof. exists 0%Z, 0%Z. repeat split; try lia. Qed.

Lemma is_double_opp y : is_double y -> is_double (- y).
Proof.
  intros (m & e & Hm & He & Hy). exists (- m)%Z, e. repeat split; try lia.
  rewrite Hy, inject_Z_opp. ring.
Qed.

(** A double is a multiple of the unit in the last place of [q], or lies
    below the binade of [q]. *)
Lemma double_grid_or_below q y : ~ q == 0 -> is_double y ->
  (exists j : Z, y == inject_Z j * 2 ^ ulp_exponent q) \/
  (ulp_exponent q = (exponent q - 52)%Z /\ Qabs y < 2 ^ exponent q).
Proof.
  intros Hq (m & e & Hm & He & Hy).
  destruct (Z_le_gt_dec (ulp_exponent q) e) as [Hle|Hgt].
  - left. exists (m * 2 ^ (e - ulp_exponent q))%Z.
    rewrite Hy, inject_Z_mult, pow2_Z by lia.
    rewrite (pow2_split e (ulp_exponent q)). ring.
  - right. assert (Hp : ulp_exponent q = (exponent q - 52)%Z) by (unfold ulp_exponent in *; lia).
    split; [assumption|].
    rewrite Hy, Qabs_scale by apply pow2_pos.
    apply Qlt_le_trans with (2 ^ 53 * 2 ^ e).
    + apply scale_lt; [apply pow2_pos|].
      change (Qabs (inject_Z m)) with (inject_Z (Z.abs m)).
      rewrite <- pow2_Z by lia. now rewrite <- Zlt_Qlt.
    + rewrite <- pow2_add. apply pow2_le. lia.
Qed.

Lemma pow2_exponent_grid q : ulp_exponent q = (exponent q - 52)%Z ->
  2 ^ exponent q == inject_Z (2 ^ 52) * 2 ^ ulp_exponent q.
Proof.
  intros Hp. rewrite pow2_Z by lia. rewrite <- pow2_add. rewrite Hp.
  now replace (52 + (exponent q - 52))%Z with (exponent q) by lia.
Qed.

(** The rounded value is nearest among all doubles. *)
Lemma round_double_nearest q y : is_double y ->
  Qabs (round_double q - q) <= Qabs (y - q).
Proof.
  intros Hy. destruct (Qeq_dec q 0) as [Hq|Hq].
  { rewrite round_double_zero by assumption. rewrite Hq. qabs; intros; lra. }
  destruct (double_grid_or_below q y Hq Hy) as [[j Hj]|[Hp Hsmall]].
  - rewrite Hj. now apply round_double_grid.
  - destruct (exponent_spec q Hq) as [Hlo _].
    pose proof (pow2_exponent_grid q Hp) as Hg.
    destruct (Qlt_le_dec 0 q) as [Hpos|Hneg].
    + apply Qle_trans with (Qabs (inject_Z (2 ^ 52) * 2 ^ ulp_exponent q - q)).
      * now apply round_double_grid.
      * rewrite <- Hg. revert Hlo Hsmall. qabs; intros; lra.
    + apply Qle_trans with (Qabs (inject_Z (- 2 ^ 52) * 2 ^ ulp_exponent q - q)).
      * now apply round_double_grid.
      * rewrite inject_Z_opp.
        assert (He : - inject_Z (2 ^ 52) * 2 ^ ulp_exponent q == - 2 ^ exponent q)
          by (rewrite Hg; ring).
        rewrite He. revert Hlo Hsmall. qabs; intros; lra.
Qed.

End Rounding.

Section Representable.
Local Open Scope Q_scope.
Import float.

Lemma max_double_lt : max_double < 2 ^ 1024.
Proof.
  unfold max_double. rewrite (pow2_split 1024 971).
  apply scale_lt; [apply pow2_pos|].
  rewrite <- pow2_Z by lia. rewrite <- Zlt_Qlt. simpl. lia.
Qed.

Lemma is_double_le_max y : is_double y -> Qabs y <= max_double.
Proof.
  intros (m & e & Hm & He & Hy). rewrite Hy, Qabs_scale by apply pow2_pos.
  change (Qabs (inject_Z m)) with (inject_Z (Z.abs m)). unfold max_double.
  apply Qle_trans with (inject_Z (2 ^ 53 - 1) * 2 ^ e).
  - apply scale_le; [apply pow2_pos|]. rewrite <- Zle_Qle. lia.
  - apply Qmult_le_l; [|apply pow2_le; lia].
    change 0 with (inject_Z 0). rewrite <- Zlt_Qlt. simpl. lia.
Qed.

(** The scaled value has at most 53 bits before the point. *)
Lemma scaled_bounds q : ~ q == 0 ->
  Qabs (q / 2 ^ ulp_exponent q) < inject_Z (2 ^ 53).
Proof.
  intros Hq. destruct (exponent_spec q Hq) as [_ Hhi].
  set (z := 2 ^ ulp_exponent q). assert (Hz : 0 < z) by apply pow2_pos.
  apply (scale_lt_inv _ _ z); [assumption|].
  rewrite <- Qabs_scale, div_scale by assumption.
  apply Qlt_le_trans with (2 ^ (exponent q + 1)); [assumption|].
  rewrite pow2_Z by lia. unfold z. rewrite <- pow2_add.
  apply pow2_le. unfold ulp_exponent. lia.
Qed.

Lemma round_scaled_bounds q : ~ q == 0 ->
  (Z.abs (round_half_even (q / 2 ^ ulp_exponent q)) <= 2 ^ 53)%Z.
Proof.
  intros Hq. pose proof (scaled_bounds q Hq) as H.
  set (s := q / 2 ^ ulp_exponent q) in *.
  assert (Hle : s <= inject_Z (2 ^ 53)) by (revert H; qabs; intros; lra).
  assert (Hge : inject_Z (- 2 ^ 53) <= s).
  { rewrite inject_Z_opp. revert H. qabs; intros; lra. }
  apply round_half_even_le in Hle. apply round_half_even_ge in Hge. lia.
Qed.

(** In a binade of normal numbers the rounded significand has 53 bits. *)
Lemma round_scaled_normal q : ~ q == 0 ->
  ulp_exponent q = (exponent q - 52)%Z ->
  (2 ^ 52 <= Z.abs (round_half_even (q / 2 ^ ulp_exponent q)))%Z.
Proof.
  intros Hq Hp. destruct (exponent_spec q Hq) as [Hlo _].
  set (z := 2 ^ ulp_exponent q). assert (Hz : 0 < z) by apply pow2_pos.
  assert (H : inject_Z (2 ^ 52) <= Qabs (q / z)).
  { apply (scale_le_inv _ _ z); [assumption|].
    rewrite <- Qabs_scale, div_scale by assumption.
    unfold z. now rewrite <- pow2_exponent_grid. }
  set (s := q / z) in *.
  destruct (Qlt_le_dec s 0) as [Hneg|Hpos].
  - assert (Hle : s <= inject_Z (- 2 ^ 52)).
    { rewrite inject_Z_opp. revert H. qabs; intros; lra. }
    apply round_half_even_le in Hle. lia.
  - assert (Hge : inject_Z (2 ^ 52) <= s) by (revert H; qabs; intros; lra).
    apply round_half_even_ge in Hge. lia.
Qed.

Lemma Qabs_inject k : Qabs (inject_Z k) = inject_Z (Z.abs k).
Proof. reflexivity. Qed.

(** A rounded value within the range of the doubles is a double. *)
Lemma round_double_is_double q :
  Qabs (round_double q) <= max_double -> is_double (round_double q).
Proof.
  destruct (Qeq_dec q 0) as [Hq|Hq].
  { rewrite round_double_zero by assumption. intros _. apply zero_is_double. }
  rewrite round_double_nonzero by assumption.
  pose proof (round_scaled_bounds q Hq) as Hk.
  pose proof (round_scaled_normal q Hq) as Hnormal.
  set (p := ulp_exponent q) in *.
  set (k := round_half_even (q / 2 ^ p)) in *.
  assert (Hp : (-1074 <= p)%Z) by (unfold p, ulp_exponent; lia).
  intros Hx. rewrite Qabs_scale, Qabs_inject in Hx by apply pow2_pos.
  unfold max_double in Hx.
  (* the exponent is in range unless the significand is 0 *)
  assert (Hrange : k = 0%Z \/ ((Z.abs k < 2 ^ 53)%Z /\ (p <= 971)%Z)
                   \/ ((Z.abs k = 2 ^ 53)%Z /\ (p <= 970)%Z)).
  { destruct (Z.eq_dec k 0%Z) as [?|Hk0]; [now left|right].
    destruct (Z_le_gt_dec p 970%Z) as [?|Hbig].
    { destruct (Z.eq_dec (Z.abs k) (2 ^ 53)%Z); [right|left]; split; lia. }
    left.
    assert (Hcontra : forall c : Z, (2 ^ 53 <= Z.abs k * c)%Z ->
                      (0 < c)%Z ->
                      c = (2 ^ Z.log2 c)%Z -> (Z.log2 c <= p - 971)%Z -> False).
    { intros c Hc Hc0 Hc2 Hlog.
      assert (Hz : 2 ^ p == inject_Z c * 2 ^ (p - Z.log2 c)).
      { rewrite Hc2 at 1. rewrite pow2_Z by apply Z.log2_nonneg.
        rewrite <- pow2_add. now replace (Z.log2 c + (p - Z.log2 c))%Z with p by lia. }
      assert (H971 : 2 ^ 971 <= 2 ^ (p - Z.log2 c)) by (apply pow2_le; lia).
      assert (Hprod : inject_Z (2 ^ 53) * 2 ^ 971 <= inject_Z (Z.abs k) * 2 ^ p).
      { rewrite Hz, Qmult_assoc, <- inject_Z_mult.
        apply Qle_trans with (inject_Z (Z.abs k * c) * 2 ^ 971).
        - apply scale_le; [apply pow2_pos|]. now rewrite <- Zle_Qle.
        - apply Qmult_le_l; [|assumption].
          change 0 with (inject_Z 0). rewrite <- Zlt_Qlt. lia. }
      assert (Hlt : inject_Z (2 ^ 53 - 1) * 2 ^ 971 < inject_Z (2 ^ 53) * 2 ^ 971).
      { apply scale_lt; [apply pow2_pos|]. rewrite <- Zlt_Qlt. lia. }
      lra. }
    destruct (Z_le_gt_dec p 971%Z) as [Hp971|Hp972].
    - (* p = 971: the significand is below 2^53 *)
      split; [|assumption].
      destruct (Z.eq_dec (Z.abs k) (2 ^ 53)%Z) as [Heq|?]; [|lia].
      exfalso. apply (Hcontra 1%Z); simpl; lia.
    - (* p >= 972: a binade of normal numbers, the significand has 53 bits *)
      exfalso. assert (Hn : (2 ^ 52 <= Z.abs k)%Z).
      { apply Hnormal. unfold p, ulp_exponent in *. lia. }
      apply (Hcontra 2%Z); simpl; lia. }
  destruct Hrange as [Hk0|[[Hlt Hp']|[Heq Hp']]].
  - rewrite Hk0. exists 0%Z, 0%Z. repeat split; try lia.
  - exists k, p. repeat split; try lia.
  - exists (k / 2)%Z, (p + 1)%Z.
    assert (Hk2 : k = (2 * (k / 2))%Z).
    { clearbody k. change (2 ^ 53)%Z with 9007199254740992%Z in Heq.
      Z.div_mod_to_equations. lia. }
    repeat split; try lia.
    rewrite Hk2 at 1. rewrite inject_Z_mult, pow2_add.
    change (2 ^ 1) with 2. change (inject_Z 2) with 2. ring.
Qed.

(** Rounding does not leave the range of the doubles. *)
Lemma round_double_le_max q :
  Qabs q <= max_double -> Qabs (round_double q) <= max_double.
Proof.
  intros Hmax. destruct (Qeq_dec q 0) as [Hq|Hq].
  { rewrite round_double_zero by assumption. apply (is_double_le_max 0), zero_is_double. }
  rewrite round_double_nonzero by assumption.
  destruct (exponent_spec q Hq) as [Hlo _].
  assert (He : (exponent q < 1024)%Z).
  { apply (Qpower_lt_compat_l_inv 2); [|lra].
    pose proof max_double_lt. lra. }
  set (p := ulp_exponent q) in *.
  assert (Hp : (p <= 971)%Z) by (unfold p, ulp_exponent; lia).
  set (z := 2 ^ p). assert (Hz : 0 < z) by apply pow2_pos.
  set (M := ((2 ^ 53 - 1) * 2 ^ (971 - p))%Z).
  assert (HM : max_double == inject_Z M * z).
  { unfold max_double, M, z. rewrite inject_Z_mult, pow2_Z by lia.
    rewrite (pow2_split 971 p). ring. }
  set (s := q / z).
  assert (Hs : Qabs s <= inject_Z M).
  { apply (scale_le_inv _ _ z); [assumption|].
    unfold s. rewrite <- Qabs_scale, div_scale by assumption. now rewrite <- HM. }
  assert (Hle : s <= inject_Z M) by (revert Hs; qabs; intros; lra).
  assert (Hge : inject_Z (- M) <= s).
  { rewrite inject_Z_opp. revert Hs. qabs; intros; lra. }
  apply round_half_even_le in Hle. apply round_half_even_ge in Hge.
  rewrite Qabs_scale, Qabs_inject, HM by assumption.
  apply scale_le; [assumption|]. rewrite <- Zle_Qle. fold s. lia.
Qed.

(** Rounding keeps a double as it is. *)
Lemma round_double_exact q : is_double q -> round_double q == q.
Proof.
  intros Hq. pose proof (round_double_nearest q q Hq) as H.
  revert H. qabs; intros; lra.
Qed.

Lemma round_double_nearest_double q :
  Qabs (round_double q) <= max_double -> nearest_double q (round_double q).
Proof.
  intros H. split; [now apply round_double_is_double|].
  intros y Hy. now apply round_double_nearest.
Qed.

End Representable.

(** *** Division of integers *)

Section TrueDivision.
Local Open Scope Q_scope.
Import float.

Lemma this_Q2Qc (x : Q) : this (Q2Qc x) == x.
Proof. apply Qred_correct. Qed.

Lemma is_double_comp x x' : x == x' -> is_double x -> is_double x'.
Proof.
  intros Hx (m & e & Hm & He & H). exists m, e. repeat split; try lia.
  now rewrite <- Hx.
Qed.

Lemma nearest_double_comp q x x' :
  x == x' -> nearest_double q x -> nearest_double q x'.
Proof.
  intros Hx [Hd Hn]. split; [now apply (is_double_comp x)|].
  intros y Hy. rewrite <- Hx. now apply Hn.
Qed.

(** [a / b] is a double nearest to the quotient, unless the quotient is
    beyond the largest double. *)
Lemma truediv_spec (a b : Z) : b <> 0%Z ->
  let q := inject_Z a / inject_Z b in
  (exists x, truediv a b = Ok x /\ nearest_double q (this x)) \/
  (truediv a b = Raise Exn.OverflowError /\ max_double < Qabs q).
Proof.
  intros Hb q. unfold truediv.
  destruct (Z.eqb_spec b 0) as [?|_]; [contradiction|]. fold q.
  destruct (Qle_bool (Qabs (round_double q)) max_double) eqn:Hle.
  - left. eexists. split; [reflexivity|].
    apply Qle_bool_iff in Hle.
    apply (nearest_double_comp q (round_double q)).
    + symmetry. apply this_Q2Qc.
    + apply round_double_nearest_double, Hle.
  - right. split; [reflexivity|].
    destruct (Qlt_le_dec max_double (Qabs q)) as [?|Hq]; [assumption|].
    apply round_double_le_max, Qle_bool_iff in Hq. congruence.
Qed.

Lemma truediv_in_range (a b : Z) : b <> 0%Z ->
  Qabs (inject_Z a / inject_Z b) <= max_double ->
  exists x, truediv a b = Ok x /\ nearest_double (inject_Z a / inject_Z b) (this x).
Proof.
  intros Hb Hq. destruct (truediv_spec a b Hb) as [H|[_ H]]; [exact H|]. 
  cbv zeta in H. lra.
Qed.

End TrueDivision.

(** *** Decimals *)

Section Decimals.
Local Open Scope Q_scope.

Lemma round_half_even_comp q q' : q == q' -> round_half_even q = round_half_even q'.
Proof.
  intros H. unfold round_half_even.
  rewrite (Qfloor_comp _ _ H).
  assert (Hc : (q - inject_Z (Qfloor q') ?= 1 # 2) = (q' - inject_Z (Qfloor q') ?= 1 # 2))
    by now rewrite H.
  now rewrite Hc.
Qed.

Lemma pow10_pos e : 0 < 10 ^ e.
Proof. apply Qpower_0_lt. lra. Qed.

Lemma pow10_add a b : 10 ^ (a + b) == 10 ^ a * 10 ^ b.
Proof. apply Qpower_plus. lra. Qed.

Lemma pow10_Z n : (0 <= n)%Z -> inject_Z (10 ^ n) == 10 ^ n.
Proof. intros. now rewrite Zpower_Qpower. Qed.

Lemma Q2Qc_eq (x y : Q) : x == y -> Q2Qc x = Q2Qc y.
Proof. intros. now apply Q2Qc_eq_iff. Qed.

Lemma div_pow10 (x : Q) e : x / 10 ^ e * 10 ^ e == x.
Proof. field. pose proof (pow10_pos e). lra. Qed.

(** A value of the column is what [quantize] leaves as it is. *)
Lemma quantize_column max_digits decimal_places q :
  Decimal_column max_digits decimal_places q -> quantize decimal_places q = q.
Proof.
  intros (n & _ & ->). unfold quantize. apply Q2Qc_eq.
  assert (H : this (Q2Qc (inject_Z n / 10 ^ decimal_places)) * 10 ^ decimal_places
              == inject_Z n) by (rewrite this_Q2Qc; apply div_pow10).
  now rewrite (round_half_even_comp _ _ H), round_half_even_inject.
Qed.

Lemma abs_div_pow10 (n : Z) e : Qabs (inject_Z n / 10 ^ e) == inject_Z (Z.abs n) / 10 ^ e.
Proof.
  unfold Qdiv. rewrite Qabs_Qmult, Qabs_inject.
  rewrite (Qabs_pos (/ 10 ^ e)); [reflexivity|].
  apply Qlt_le_weak, Qinv_lt_0_compat, pow10_pos.
Qed.

Lemma column_bound (n : Z) max_digits decimal_places :
  (0 <= decimal_places <= max_digits)%Z ->
  (10 ^ (max_digits - decimal_places) <= Qabs (inject_Z n / 10 ^ decimal_places)
   <-> (10 ^ max_digits <= Z.abs n)%Z).
Proof.
  intros Hd. rewrite abs_div_pow10.
  assert (Hp := pow10_pos decimal_places).
  assert (Hs : 10 ^ max_digits == 10 ^ (max_digits - decimal_places) * 10 ^ decimal_places).
  { rewrite <- pow10_add. now replace (max_digits - decimal_places + decimal_places)%Z
      with max_digits by lia. }
  rewrite Zle_Qle, pow10_Z, Hs by lia. split; intros H.
  - apply (Qmult_le_compat_r _ _ (10 ^ decimal_places)) in H; [|lra].
    now rewrite div_pow10 in H.
  - apply (Qmult_le_r _ _ (10 ^ decimal_places)); [assumption|].
    now rewrite div_pow10.
Qed.

(** [format_number] writes a value of the column as it is. *)
Lemma format_number_column q max_digits decimal_places :
  (0 <= decimal_places <= max_digits)%Z ->
  Decimal_column max_digits decimal_places q ->
  format_number q max_digits decimal_places = Ok q.
Proof.
  intros Hd Hq. unfold format_number.
  rewrite (quantize_column _ _ _ Hq). destruct Hq as (n & Hn & ->).
  destruct (Qle_bool _ _) eqn:Hle; [|reflexivity].
  apply Qle_bool_iff in Hle. rewrite this_Q2Qc in Hle.
  apply column_bound in Hle; [lia | assumption].
Qed.

(** What [format_number] writes is a value of the column. *)
Lemma format_number_Ok q q' max_digits decimal_places :
  (0 <= decimal_places <= max_digits)%Z ->
  format_number q max_digits decimal_places = Ok q' ->
  q' = quantize decimal_places q /\ Decimal_column max_digits decimal_places q'.
Proof.
  intros Hd. unfold format_number.
  destruct (Qle_bool _ _) eqn:Hle; [discriminate|]. intros [= <-].
  split; [reflexivity|]. unfold quantize in *.
  set (n := round_half_even (q * 10 ^ decimal_places)) in *.
  exists n. split; [|reflexivity].
  destruct (Z_lt_le_dec (Z.abs n) (10 ^ max_digits)) as [?|Hge]; [assumption|].
  exfalso. apply (column_bound n max_digits decimal_places Hd) in Hge.
  rewrite <- (this_Q2Qc (inject_Z n / 10 ^ decimal_places)) in Hge.
  apply Qle_bool_iff in Hge. congruence.
Qed.

Lemma format_number_Raise q e max_digits decimal_places :
  format_number q max_digits decimal_places = Raise e -> e = InvalidOperation.
Proof. unfold format_number. destruct (Qle_bool _ _); congruence. Qed.

End Decimals.

(** *** The digits of a decimal *)

Lemma count_digits_spec fuel (n : N) :
  Z.of_N n < 10 * 2 ^ Z.of_nat fuel ->
  Z.of_N n < 10 ^ Decimal.count_digits fuel n /\ 1 <= Decimal.count_digits fuel n.
Proof.
  revert n. induction fuel as [|fuel IH]; intros n Hn.
  - simpl in *. lia.
  - cbn [Decimal.count_digits]. destruct (N.ltb_spec n 10) as [Hlt|Hge].
    + simpl. lia.
    + rewrite Nat2Z.inj_succ, Z.pow_succ_r in Hn by lia.
      destruct (IH (n / 10)%N) as [H1 H2].
      { rewrite N2Z.inj_div. change (Z.of_N 10) with 10.
        pose proof (Z.pow_pos_nonneg 2 (Z.of_nat fuel)).
        Z.div_mod_to_equations. lia. }
      split; [|lia].
      rewrite Z.pow_add_r, Z.pow_1_r by lia.
      rewrite N2Z.inj_div in H1. change (Z.of_N 10) with 10 in H1.
      Z.div_mod_to_equations. lia.
Qed.

Lemma len_digits_spec d :
  Z.of_N (Decimal.coefficient d) < 10 ^ Decimal.len_digits d /\
  1 <= Decimal.len_digits d.
Proof.
  apply count_digits_spec. rewrite N_nat_Z.
  destruct (N.eq_dec (Decimal.coefficient d) 0%N) as [->|Hne]; [simpl; lia|].
  assert (Hpos : (0 < Decimal.coefficient d)%N) by lia.
  destruct (N.log2_spec _ Hpos) as [_ Hhi].
  rewrite N.pow_succ_r' in Hhi.
  assert (H : Z.of_N (Decimal.coefficient d)
              < Z.of_N (2 * 2 ^ N.log2 (Decimal.coefficient d))) by lia.
  rewrite N2Z.inj_mul, N2Z.inj_pow in H. change (Z.of_N 2) with 2 in H.
  pose proof (Z.pow_pos_nonneg 2 (Z.of_N (N.log2 (Decimal.coefficient d)))). lia.
Qed.

(** A decimal that [validate_precision] accepts for ten digits, two of
    them after the point, is a number of hundredths below [10^10]. *)
Lemma validate_precision_Ok d d' :
  DecimalField_validate_precision 10 2 d = Ok d' ->
  d' = d /\ -2 <= Decimal.exponent d /\
  Z.of_N (Decimal.coefficient d) * 10 ^ (Decimal.exponent d + 2) < 10 ^ 10.
Proof.
  unfold DecimalField_validate_precision.
  destruct (len_digits_spec d) as [Hc Hl].
  set (L := Decimal.len_digits d) in *. set (e := Decimal.exponent d).
  set (c := Z.of_N (Decimal.coefficient d)) in *.
  assert (Hkey : L + e <= 8 -> -2 <= e -> c * 10 ^ (e + 2) < 10 ^ 10).
  { intros H1 H2.
    apply Z.lt_le_trans with (10 ^ L * 10 ^ (e + 2)).
    - apply Z.mul_lt_mono_pos_r; [apply Z.pow_pos_nonneg; lia | assumption].
    - rewrite <- Z.pow_add_r by lia. apply Z.pow_le_mono_r; lia. }
  destruct (Z.geb_spec e 0) as [He|He].
  - destruct (Z.gtb_spec (L + e) 10); [discriminate|].
    destruct (Z.gtb_spec 0 2); [discriminate|].
    destruct (Z.gtb_spec (L + e) (10 - 2)); [discriminate|].
    intros [= <-]. split; [reflexivity|]. split; [lia|]. apply Hkey; lia.
  - destruct (Z.gtb_spec L (Z.abs e)) as [Hlen|Hlen].
    + destruct (Z.gtb_spec L 10); [discriminate|].
      destruct (Z.gtb_spec (Z.abs e) 2); [discriminate|].
      destruct (Z.gtb_spec (L - Z.abs e) (10 - 2)); [discriminate|].
      intros [= <-]. split; [reflexivity|]. split; [lia|]. apply Hkey; lia.
    + destruct (Z.gtb_spec (Z.abs e) 10); [discriminate|].
      destruct (Z.gtb_spec (Z.abs e) 2); [discriminate|].
      destruct (Z.gtb_spec 0 (10 - 2)); [discriminate|].
      intros [= <-]. split; [reflexivity|]. split; [lia|]. apply Hkey; lia.
Qed.

Section DecimalValue.
Local Open Scope Q_scope.

Lemma Decimal_value_hundredths d :
  (-2 <= Decimal.exponent d)%Z ->
  let n := (Z.of_N (Decimal.coefficient d) * 10 ^ (Decimal.exponent d + 2))%Z in
  Decimal.value d
  = Q2Qc (inject_Z (if Decimal.sign d then - n else n) / 10 ^ 2).
Proof.
  intros He n. unfold Decimal.value. apply Q2Qc_eq.
  assert (Hn : inject_Z n
               == inject_Z (Z.of_N (Decimal.coefficient d))
                  * 10 ^ (Decimal.exponent d + 2)).
  { unfold n. now rewrite inject_Z_mult, pow10_Z by lia. }
  assert (Hs : 10 ^ (Decimal.exponent d + 2) == 10 ^ Decimal.exponent d * 10 ^ 2)
    by apply pow10_add.
  pose proof (pow10_pos 2).
  destruct (Decimal.sign d); rewrite ?inject_Z_opp, Hn, Hs; field; lra.
Qed.

(** Quantizing a decimal of at most two places keeps its value. *)
Lemma DecimalField_quantize_value d :
  (-2 <= Decimal.exponent d)%Z ->
  Decimal.value (DecimalField_quantize 2 d) = Decimal.value d.
Proof.
  intros He. unfold Decimal.value, DecimalField_quantize.
  cbn [Decimal.sign Decimal.coefficient Decimal.exponent]. apply Q2Qc_eq.
  set (c := Z.of_N (Decimal.coefficient d)).
  assert (Hn : inject_Z c * 10 ^ (Decimal.exponent d + 2)
               == inject_Z (c * 10 ^ (Decimal.exponent d + 2))).
  { now rewrite inject_Z_mult, pow10_Z by lia. }
  rewrite (round_half_even_comp _ _ Hn), round_half_even_inject.
  rewrite Z2N.id by (subst c; apply Z.mul_nonneg_nonneg; [lia | apply Z.pow_nonneg; lia]).
  rewrite inject_Z_mult, pow10_Z by lia.
  assert (Hs : 10 ^ (Decimal.exponent d + 2) == 10 ^ Decimal.exponent d * 10 ^ 2)
    by apply pow10_add.
  assert (Hi : 10 ^ (- (2)) == / 10 ^ 2) by apply Qpower_opp.
  rewrite Hs, Hi. pose proof (pow10_pos 2). field; lra.
Qed.

(** The price that the field [total_price] accepts: the decimal of the
    request, positive and a value of the column. *)
Lemma total_price_field_Ok value d' :
  total_price_field value = Ok d' ->
  exists d, value = Some d /\ Decimal.value d' = Decimal.value d /\
    (0 < Decimal.value d)%Qc /\ Decimal_column 10 2 (Decimal.value d).
Proof.
  unfold total_price_field. destruct value as [d|]; [|discriminate].
  cbn [field_required].
  destruct (DecimalField_validate_precision 10 2 d) as [d0|] eqn:Hp; [|discriminate].
  apply validate_precision_Ok in Hp as (-> & He & Hn).
  rewrite (DecimalField_quantize_value d He).
  case_bool_decide as Hneg; [discriminate|].
  unfold validate_total_price. case_bool_decide as Hpos; [discriminate|].
  intros [= <-]. exists d. split; [reflexivity|].
  split; [apply DecimalField_quantize_value, He|].
  split; [apply Qcnot_le_lt, Hpos|].
  rewrite (Decimal_value_hundredths d He). cbv zeta.
  set (n := (Z.of_N (Decimal.coefficient d) * 10 ^ (Decimal.exponent d + 2))%Z) in *.
  assert (0 <= n)%Z by (subst n; apply Z.mul_nonneg_nonneg; [lia | apply Z.pow_nonneg; lia]).
  eexists. split; [|reflexivity]. destruct (Decimal.sign d); lia.
Qed.

End DecimalValue.

(** ** Field validation *)

Lemma kind_of_integrity c :
  kind_of (IntegrityError c) =
  if String.eqb c review_unique_together then ConflictErrorKind
  else InvalidStateErrorKind.
Proof. reflexivity. Qed.

Lemma validate_rating_in_range r :
  1 <= r <= 5 -> validate_rating r = Ok r.
Proof.
  intros [H1 H5]. unfold validate_rating.
  apply Z.leb_le in H1, H5. rewrite H1, H5. reflexivity.
Qed.

Lemma validate_rating_out_of_range r :
  ~ (1 <= r <= 5) ->
  validate_rating r =
  Raise (serializers_ValidationError "Rating must be between 1 and 5.").
Proof.
  intros H. unfold validate_rating.
  destruct (Z.leb_spec 1 r), (Z.leb_spec r 5); simpl; try reflexivity; lia.
Qed.

Lemma Review_rating_validators_spec r :
  run_validators Review_rating_validators r = Ok () <-> 1 <= r <= 5.
Proof.
  unfold Review_rating_validators, run_validators, MinValueValidator,
    MaxValueValidator.
  destruct (Z.ltb_spec r 1), (Z.gtb_spec r 5); split;
    try discriminate; try reflexivity; lia.
Qed.

(** C5.  The rating validation of the serializer succeeds exactly on the
    integers from 1 to 5 and raises a validation error on every other
    integer; the validators of the model field accept the same ratings.
    In particular 0 and 6 are rejected, 1 and 5 accepted. *)
Theorem rating_range_iff (r : Z) :
  (validate_rating r = Ok r <-> 1 <= r <= 5) /\
  (fails_with (validate_rating r) ValidationErrorKind <-> ~ (1 <= r <= 5)) /\
  (run_validators Review_rating_validators r = Ok () <-> 1 <= r <= 5) /\
  fails_with (validate_rating 0) ValidationErrorKind /\
  validate_rating 1 = Ok 1 /\
  validate_rating 5 = Ok 5 /\
  fails_with (validate_rating 6) ValidationErrorKind.
Proof.
  assert (Hdec : 1 <= r <= 5 \/ ~ (1 <= r <= 5)) by lia.
  refine (conj _ (conj _ (conj (Review_rating_validators_spec r) _)));
    [split | split | repeat split].
  - intros H. destruct Hdec as [Hin | Hout]; [exact Hin |].
    rewrite (validate_rating_out_of_range r Hout) in H. discriminate.
  - apply validate_rating_in_range.
  - intros H Hin. rewrite (validate_rating_in_range r Hin) in H. exact H.
  - intros Hout. rewrite (validate_rating_out_of_range r Hout). reflexivity.
Qed.

Lemma validate_price_per_night_spec v :
  validate_price_per_night v =
  if bool_decide (v <= 0)%Qc
  then Raise (serializers_ValidationError "Price per night must be positive.")
  else Ok v.
Proof. reflexivity. Qed.

Lemma price_validators_spec v :
  run_validators Listing_price_per_night_validators v = Ok () <-> (0 <= v)%Qc.
Proof.
  unfold Listing_price_per_night_validators, run_validators,
    MinValueValidator_Decimal.
  rewrite Z2Qc_inj_0.
  case_bool_decide as H; split; try discriminate; try reflexivity.
  - intros Hle. exfalso. apply (Qclt_not_le _ _ H Hle).
  - intros _. apply Qcnot_lt_le. exact H.
Qed.

(** C3.  The price validation of the API raises a validation error
    exactly when the price is at most 0; the validator of the stored
    field accepts exactly the prices that are at least 0.  So the two
    disagree exactly at 0, which the API rejects and the model accepts. *)
Theorem price_bounds_disagree_at_zero (v : Qc) :
  (fails_with (validate_price_per_night v) ValidationErrorKind <-> (v <= 0)%Qc) /\
  (run_validators Listing_price_per_night_validators v = Ok () <-> (0 <= v)%Qc) /\
  ((fails_with (validate_price_per_night v) ValidationErrorKind /\
    run_validators Listing_price_per_night_validators v = Ok ()) <-> v = 0%Qc) /\
  fails_with (validate_price_per_night 0) ValidationErrorKind /\
  run_validators Listing_price_per_night_validators 0%Qc = Ok ().
Proof.
  assert (Hapi : fails_with (validate_price_per_night v) ValidationErrorKind
                 <-> (v <= 0)%Qc).
  { rewrite validate_price_per_night_spec.
    case_bool_decide as H; simpl; split; auto; try contradiction. }
  pose proof (price_validators_spec v) as Hmodel.
  refine (conj Hapi (conj Hmodel (conj _ (conj _ _)))); try reflexivity.
  split.
  - intros [Ha Hm]. apply Hapi in Ha. apply Hmodel in Hm.
    apply Qcle_antisym; assumption.
  - intros ->. split; [apply Hapi | apply Hmodel]; apply Qcle_refl.
Qed.

(** ** Booking dates *)

Lemma duration_days_toordinal self :
  Booking_duration_days self =
  datetime.toordinal (Booking.check_out_date self)
  - datetime.toordinal (Booking.check_in_date self).
Proof. reflexivity. Qed.

(** C8.  For a booking with valid dates, [duration_days] is the ordinal of
    the check-out date minus that of the check-in date, and it is the
    number of days from the one to the other: it equals [n] exactly when
    the check-out date is [n] days after the check-in date, and [-n]
    exactly when the check-in date is [n] days after the check-out date.
    It is positive exactly when the check-out date is later. *)
Theorem duration_days_counts_days (self : Booking.t) (n : nat) :
  datetime.valid (Booking.check_in_date self) ->
  datetime.valid (Booking.check_out_date self) ->
  Booking_duration_days self =
    datetime.toordinal (Booking.check_out_date self)
    - datetime.toordinal (Booking.check_in_date self) /\
  (Booking_duration_days self = Z.of_nat n <->
   days_after n (Booking.check_in_date self) = Booking.check_out_date self) /\
  (Booking_duration_days self = - Z.of_nat n <->
   days_after n (Booking.check_out_date self) = Booking.check_in_date self) /\
  (0 < Booking_duration_days self <->
   datetime.lt (Booking.check_in_date self) (Booking.check_out_date self) = true).
Proof.
  intros Hin Hout. apply valid_in_calendar in Hin, Hout.
  rewrite duration_days_toordinal.
  set (ci := Booking.check_in_date self) in *.
  set (co := Booking.check_out_date self) in *.
  split; [reflexivity |]. split; [| split].
  - split.
    + intros H. apply toordinal_inj; auto using in_calendar_days_after.
      rewrite toordinal_days_after by assumption. lia.
    + intros <-. rewrite toordinal_days_after by assumption. lia.
  - split.
    + intros H. apply toordinal_inj; auto using in_calendar_days_after.
      rewrite toordinal_days_after by assumption. lia.
    + intros <-. rewrite toordinal_days_after by assumption. lia.
  - rewrite (date_lt_iff_toordinal ci co Hin Hout). lia.
Qed.

Lemma june_booking_valid :
  datetime.valid (Booking.check_in_date june_booking) /\
  datetime.valid (Booking.check_out_date june_booking).
Proof.
  unfold datetime.valid, datetime.in_calendar, datetime.MINYEAR,
    datetime.MAXYEAR; simpl.
  change (datetime._days_in_month 2024 6) with 30. lia.
Qed.

Lemma duration_days_counts_days_witness :
  Booking_duration_days june_booking = 2.
Proof.
  apply (duration_days_counts_days june_booking 2
           (proj1 june_booking_valid) (proj2 june_booking_valid)).
  reflexivity.
Defined.

(** Unfolds the operations of the monad [DB]. *)
Ltac db_unfold :=
  unfold mbind, DB_bind, mret, DB_ret, raise, try_except, lift, issue,
    read_db, write_db in *.

Lemma guests_message_not_checkout g m : guests_message g m <> checkout_message.
Proof. unfold guests_message, checkout_message. simpl. discriminate. Qed.

(** The outcome of the date check of [BookingSerializer.validate]: the
    check-out error exactly when both dates are present and the check-out
    date is not later than the check-in date. *)
Lemma validate_checkout_error data w :
  (BookingSerializer_validate data w).1
    = Raise (serializers_ValidationError checkout_message) <->
  exists check_in check_out,
    BookingData.check_in_date data = Some check_in /\
    BookingData.check_out_date data = Some check_out /\
    datetime.le check_out check_in = true.
Proof.
  unfold BookingSerializer_validate, Listing_objects_get. db_unfold.
  destruct (BookingData.check_in_date data) as [ci |],
           (BookingData.check_out_date data) as [co |];
    [destruct (datetime.le co ci) eqn:Hle; simpl | | |].
  1: { split; eauto. }
  all: (split; [| intros (ci' & co' & H1 & H2 & H3); congruence]).
  all: destruct (BookingData.listing_id data) as [l |],
                (BookingData.number_of_guests data) as [g |]; simpl;
         try discriminate.
  all: destruct (g =? 0); simpl; try discriminate.
  all: destruct (listings (db w) !! l) as [row |]; simpl; try discriminate.
  all: destruct (g >? Listing.max_guest_count row); simpl; try discriminate.
  all: intros [= H]; exfalso; exact (guests_message_not_checkout _ _ H).
Qed.

Lemma clean_checkout_error self w :
  (Booking_clean self w).1 = Raise (ValidationError checkout_message) <->
  datetime.le (Booking.check_out_date self) (Booking.check_in_date self) = true.
Proof.
  unfold Booking_clean, Listing_objects_get. db_unfold.
  destruct (datetime.le _ _); simpl; [split; auto |].
  split; [| discriminate].
  destruct (listings (db w) !! Booking.listing self) as [row |]; simpl;
    [| discriminate].
  destruct (_ >? _); simpl; [| discriminate].
  intros [= H]; exfalso; exact (guests_message_not_checkout _ _ H).
Qed.

Lemma BookingCreateSerializer_validate_spec check_in check_out :
  BookingCreateSerializer_validate check_in check_out
  = if datetime.lt check_in check_out then Ok ()
    else Raise (serializers_ValidationError checkout_message).
Proof.
  unfold BookingCreateSerializer_validate. rewrite date_le_not_lt.
  destruct (datetime.lt check_in check_out); reflexivity.
Qed.

(** C4.  On both paths the date pair is rejected, with the validation
    error of the date rule, exactly when the check-out date is not later
    than the check-in date: for the serializer's [validate] on data that
    holds both dates and for the model's [clean], whatever the other
    fields and the database.  The dates are compared as Python compares
    them. *)
Theorem checkout_after_checkin_both_paths
    (check_in check_out : date) (w : World)
    (listing_id : option UUID) (user_id : option Z)
    (number_of_guests : option Z) (total_price : option Decimal.t)
    (status : option BOOKING_STATUS_CHOICES) (special_requests : option string)
    (self : Booking.t) :
  let data :=
    BookingData.mk listing_id user_id (Some check_in) (Some check_out)
      number_of_guests total_price status special_requests in
  ((BookingSerializer_validate data w).1
     = Raise (serializers_ValidationError checkout_message)
   <-> datetime.lt check_in check_out = false) /\
  ((Booking_clean self w).1 = Raise (ValidationError checkout_message)
   <-> datetime.lt (Booking.check_in_date self) (Booking.check_out_date self)
       = false) /\
  kind_of (serializers_ValidationError checkout_message) = ValidationErrorKind /\
  kind_of (ValidationError checkout_message) = ValidationErrorKind /\
  (datetime.le check_out check_in = true
   <-> datetime.lt check_in check_out = false).
Proof.
  intros data.
  assert (Hneg : forall a b, datetime.le b a = true <-> datetime.lt a b = false).
  { intros a b. rewrite date_le_not_lt. destruct (datetime.lt a b); simpl; split;
      congruence. }
  split; [| split; [| auto]].
  - rewrite validate_checkout_error, <- Hneg. subst data; simpl. split.
    + intros (ci & co & [= <-] & [= <-] & H). exact H.
    + intros H. eauto.
  - rewrite clean_checkout_error. apply Hneg.
Qed.

(** ** Derived attributes *)

Lemma sum_cons_acc l a : fold_left Z.add l a = a + fold_left Z.add l 0.
Proof.
  revert a. induction l as [| x l IH]; intros a; simpl; [lia |].
  rewrite (IH (a + x)), (IH (0 + x)). lia.
Qed.

Lemma sum_total l : sum l = total l.
Proof.
  unfold sum. induction l as [| x l IH]; simpl; [reflexivity |].
  rewrite sum_cons_acc. unfold sum in IH. rewrite IH. reflexivity.
Qed.

Lemma Listing_average_rating_eq self w :
  Listing_average_rating self w =
  (average_of (reviews_of self (db w)),
   mkWorld (db w) (queries w ++ [SELECT_reviews (Listing.listing_id self)])).
Proof.
  unfold Listing_average_rating, Listing_reviews_all, reviews_of, average_of.
  db_unfold. simpl. destruct (filter _ _) as [| r rs]; [reflexivity |].
  unfold lift. destruct (float.truediv _ _); reflexivity.
Qed.

Lemma average_of_cons r rs :
  let ratings := Review.rating <$> r :: rs in
  (exists x, average_of (r :: rs) = Ok (Float x)
             /\ nearest_double (arithmetic_mean ratings) (this x)) \/
  (average_of (r :: rs) = Raise Exn.OverflowError
   /\ (float.max_double < Qabs (arithmetic_mean ratings))%Q).
Proof.
  intros ratings. unfold average_of, arithmetic_mean.
  assert (Hlen : len (r :: rs) <> 0) by (unfold len; simpl; lia).
  assert (Hl : Z.of_nat (length ratings) = len (r :: rs))
    by (unfold ratings, len; now rewrite length_fmap).
  rewrite Hl, <- sum_total. subst ratings.
  pose proof (truediv_spec (sum (Review.rating <$> r :: rs)) (len (r :: rs)) Hlen)
    as H. cbv zeta in H.
  destruct H as [(x & Hx & Hn) | [Hx Hn]]; rewrite Hx; [left; eauto | right; auto].
Qed.



(** *** Splitting and trimming *)

Lemma append_cons c (a b : string) : String c a +:+ b = String c (a +:+ b).
Proof. reflexivity. Qed.

Lemma append_nil (b : string) : EmptyString +:+ b = b.
Proof. reflexivity. Qed.

Ltac str_simpl := simpl; rewrite ?append_cons, ?append_nil; simpl.

Section Strings.
Variable sep : ascii.

Lemma str_split_nonempty s : str_split sep s <> [].
Proof.
  destruct s as [| c s]; simpl; [discriminate |].
  destruct (Ascii.eqb c sep); [discriminate |].
  destruct (str_split sep s); discriminate.
Qed.

Lemma str_join_cons piece rest :
  rest <> [] ->
  str_join sep (piece :: rest) = piece +:+ String sep (str_join sep rest).
Proof. destruct rest; [contradiction | reflexivity]. Qed.

Lemma str_join_split s : str_join sep (str_split sep s) = s.
Proof.
  induction s as [| c s IH]; [reflexivity |].
  pose proof (str_split_nonempty s) as Hne.
  simpl str_split. destruct (Ascii.eqb_spec c sep) as [-> | Hc].
  - rewrite str_join_cons by assumption. simpl. rewrite IH. reflexivity.
  - destruct (str_split sep s) as [| piece rest]; [contradiction |].
    destruct rest as [| piece' rest].
    + simpl in *. rewrite IH. reflexivity.
    + rewrite str_join_cons by discriminate.
      rewrite str_join_cons in IH by discriminate.
      rewrite <- IH. reflexivity.
Qed.

Lemma str_split_no_sep s :
  Forall (fun piece => contains sep piece = false) (str_split sep s).
Proof.
  induction s as [| c s IH]; simpl.
  - repeat constructor.
  - destruct (Ascii.eqb_spec c sep) as [-> | Hc].
    + constructor; [reflexivity | exact IH].
    + destruct (str_split sep s) as [| piece rest]; [repeat constructor |].
      * simpl. apply Ascii.eqb_neq in Hc. rewrite Hc. reflexivity.
      * inversion IH as [| ? ? Hpiece Hrest]; subst. constructor; [| exact Hrest].
        simpl. apply Ascii.eqb_neq in Hc. rewrite Hc, Hpiece. reflexivity.
Qed.

Lemma str_split_spec s : split_on sep s (str_split sep s).
Proof.
  split; [apply str_split_nonempty |].
  split; [apply str_split_no_sep | apply str_join_split].
Qed.

Lemma str_split_piece piece s :
  contains sep piece = false ->
  str_split sep (piece +:+ String sep s) = piece :: str_split sep s.
Proof.
  induction piece as [| c piece IH]; simpl; intros H.
  - rewrite Ascii.eqb_refl. reflexivity.
  - apply orb_false_iff in H as [Hc Hpiece]. rewrite Hc, (IH Hpiece).
    reflexivity.
Qed.

Lemma str_split_single piece :
  contains sep piece = false -> str_split sep piece = [piece].
Proof.
  induction piece as [| c piece IH]; simpl; intros H; [reflexivity |].
  apply orb_false_iff in H as [Hc Hpiece]. rewrite Hc, (IH Hpiece).
  reflexivity.
Qed.

(** The pieces of a string are determined: [str_split] computes the
    only splitting. *)
Lemma split_on_unique s pieces :
  split_on sep s pieces -> pieces = str_split sep s.
Proof.
  intros (Hne & Hall & <-).
  induction Hall as [| piece rest Hpiece Hrest IH]; [contradiction |].
  destruct rest as [| piece' rest].
  - simpl. symmetry. apply str_split_single, Hpiece.
  - rewrite str_join_cons by discriminate.
    rewrite str_split_piece by assumption. f_equal. apply IH. discriminate.
Qed.
End Strings.

Lemma lstrip_spec s :
  exists leading,
    s = leading +:+ lstrip s /\ all_space leading = true /\
    starts_with_space (lstrip s) = false.
Proof.
  induction s as [| c s (leading & Heq & Hsp & Hst)]; simpl.
  - exists EmptyString. auto.
  - destruct (isspace c) eqn:Hc.
    + exists (String c leading). split; [| split; [| exact Hst]].
      * rewrite Heq at 1. reflexivity.
      * simpl. rewrite Hc, Hsp. reflexivity.
    + exists EmptyString. simpl. auto.
Qed.

Lemma rstrip_spec s :
  exists trailing,
    s = rstrip s +:+ trailing /\ all_space trailing = true /\
    ends_with_space (rstrip s) = false.
Proof.
  induction s as [| c s (trailing & Heq & Hsp & Hend)]; simpl.
  - exists EmptyString. auto.
  - destruct (rstrip s) as [| c' rest] eqn:Hr.
    + destruct (isspace c) eqn:Hc.
      * exists (String c trailing). split; [| split; [| reflexivity]].
        -- rewrite Heq at 1. reflexivity.
        -- simpl. rewrite Hc, Hsp. reflexivity.
      * exists trailing. split; [| split; [exact Hsp | exact Hc]].
        rewrite Heq at 1. reflexivity.
    + exists trailing. split; [| split; [exact Hsp | exact Hend]].
      rewrite Heq at 1. reflexivity.
Qed.

Lemma rstrip_starts s :
  starts_with_space s = false -> starts_with_space (rstrip s) = false.
Proof.
  destruct s as [| c s]; simpl; [auto |]. intros Hc.
  destruct (rstrip s); [rewrite Hc |]; simpl; auto.
Qed.


(** [strip] removes the leading and the trailing whitespace. *)
Lemma strip_trimmed t : trimmed t (strip t).
Proof.
  unfold trimmed, strip.
  destruct (lstrip_spec t) as (leading & Hl & Hlsp & Hst).
  destruct (rstrip_spec (lstrip t)) as (trailing & Hr & Hrsp & Hend).
  exists leading, trailing. repeat split; auto using rstrip_starts.
  rewrite <- Hr. exact Hl.
Qed.

Lemma rstrip_all_space s : all_space s = true -> rstrip s = EmptyString.
Proof.
  induction s as [| c s IH]; simpl; [reflexivity |].
  intros [Hc Hs]%andb_true_iff. rewrite (IH Hs), Hc. reflexivity.
Qed.

Lemma rstrip_app_space u trailing :
  all_space trailing = true -> rstrip (u +:+ trailing) = rstrip u.
Proof.
  intros H. induction u as [| c u IH]; str_simpl.
  - apply rstrip_all_space, H.
  - rewrite IH. reflexivity.
Qed.

Lemma rstrip_id u : ends_with_space u = false -> rstrip u = u.
Proof.
  induction u as [| c u IH]; [reflexivity |].
  destruct u as [| c' u].
  - simpl. intros ->. reflexivity.
  - intros H. change (ends_with_space (String c' u) = false) in H.
    change (rstrip (String c (String c' u)))
      with (match rstrip (String c' u) with
            | EmptyString =>
                if isspace c then EmptyString else String c EmptyString
            | rest => String c rest
            end).
    rewrite (IH H). reflexivity.
Qed.

Lemma lstrip_app_space leading s :
  all_space leading = true -> lstrip (leading +:+ s) = lstrip s.
Proof.
  induction leading as [| c leading IH]; str_simpl; [reflexivity |].
  intros [Hc Hl]%andb_true_iff. rewrite Hc. apply IH, Hl.
Qed.

Lemma lstrip_all_space s : all_space s = true -> lstrip s = EmptyString.
Proof.
  induction s as [| c s IH]; simpl; [reflexivity |].
  intros [Hc Hs]%andb_true_iff. rewrite Hc. apply IH, Hs.
Qed.

Lemma lstrip_id u s :
  starts_with_space u = false -> u <> EmptyString ->
  lstrip (u +:+ s) = u +:+ s.
Proof.
  destruct u as [| c u]; [contradiction |]. str_simpl. intros -> _.
  reflexivity.
Qed.

(** Trimming has one result: [strip] computes it. *)
Lemma trimmed_unique t u : trimmed t u -> u = strip t.
Proof.
  intros (leading & trailing & -> & Hl & Hr & Hst & Hend). unfold strip.
  rewrite (lstrip_app_space _ _ Hl).
  destruct u as [| c u].
  - rewrite append_nil, (lstrip_all_space _ Hr). reflexivity.
  - rewrite lstrip_id by (auto; discriminate).
    rewrite (rstrip_app_space _ _ Hr), (rstrip_id _ Hend). reflexivity.
Qed.

Lemma Forall2_trimmed_strip pieces : Forall2 trimmed pieces (strip <$> pieces).
Proof.
  induction pieces as [| piece pieces IH]; constructor;
    [apply strip_trimmed | exact IH].
Qed.

Lemma get_amenities_list_same obj :
  ListingListSerializer_get_amenities_list obj
  = ListingSerializer_get_amenities_list obj.
Proof. reflexivity. Qed.

(** C7.  The amenities list of a listing whose stored string is empty is
    empty.  Otherwise it is the stored string split on commas, every
    piece trimmed of its leading and trailing whitespace, in the order of
    the pieces; the string "WiFi, Kitchen, Parking" gives "WiFi",
    "Kitchen" and "Parking".  The two serializers compute the same
    list. *)
Theorem amenities_list_splits_and_trims (obj : Listing.t) :
  match Listing.amenities obj with
  | EmptyString => ListingSerializer_get_amenities_list obj = []
  | String _ _ =>
      exists pieces,
        split_on "," (Listing.amenities obj) pieces /\
        Forall2 trimmed pieces (ListingSerializer_get_amenities_list obj) /\
        ListingSerializer_get_amenities_list obj
        = strip <$> str_split "," (Listing.amenities obj)
  end /\
  ListingListSerializer_get_amenities_list obj
  = ListingSerializer_get_amenities_list obj /\
  (Listing.amenities rated_listing = "WiFi, Kitchen, Parking" /\
   ListingSerializer_get_amenities_list rated_listing
   = ["WiFi"; "Kitchen"; "Parking"]) /\
  (Listing.amenities other_listing = "" /\
   ListingSerializer_get_amenities_list other_listing = []).
Proof.
  split; [| split; [reflexivity | split; split; reflexivity]].
  unfold ListingSerializer_get_amenities_list.
  destruct (Listing.amenities obj) as [| c s] eqn:Hs; [reflexivity |].
  exists (str_split "," (String c s)).
  split; [apply str_split_spec |].
  split; [apply Forall2_trimmed_strip | reflexivity].
Qed.

(** ** Booking validation against the database *)

(** The world after one more statement. *)
Lemma issue_eq q w : issue q w = (Ok (), mkWorld (db w) (queries w ++ [q])).
Proof. reflexivity. Qed.

Lemma Listing_objects_get_eq listing_id w :
  Listing_objects_get listing_id w =
  (match listings (db w) !! listing_id with
   | Some l => Ok l
   | None => Raise DoesNotExist
   end,
   mkWorld (db w) (queries w ++ [SELECT_listing listing_id])).
Proof.
  unfold Listing_objects_get. db_unfold. simpl.
  destruct (listings (db w) !! listing_id); reflexivity.
Qed.

(** [BookingSerializer.validate], case by case. *)
Lemma BookingSerializer_validate_eq data w :
  BookingSerializer_validate data w =
  let dates_rejected :=
    match BookingData.check_in_date data, BookingData.check_out_date data with
    | Some check_in, Some check_out => datetime.le check_out check_in
    | _, _ => false
    end in
  if dates_rejected
  then (Raise (serializers_ValidationError checkout_message), w)
  else
    match BookingData.listing_id data, BookingData.number_of_guests data with
    | Some listing_id, Some number_of_guests =>
        if number_of_guests =? 0 then (Ok data, w)
        else
          (match listings (db w) !! listing_id with
           | Some listing =>
               if number_of_guests >? Listing.max_guest_count listing
               then Raise (serializers_ValidationError
                             (guests_message number_of_guests
                                (Listing.max_guest_count listing)))
               else Ok data
           | None => Raise (serializers_ValidationError "Invalid listing ID.")
           end,
           mkWorld (db w) (queries w ++ [SELECT_listing listing_id]))
    | _, _ => (Ok data, w)
    end.
Proof.
  unfold BookingSerializer_validate. db_unfold.
  destruct (BookingData.check_in_date data) as [ci |],
           (BookingData.check_out_date data) as [co |]; simpl;
    try destruct (datetime.le co ci); simpl; try reflexivity;
    destruct (BookingData.listing_id data) as [l |],
             (BookingData.number_of_guests data) as [g |]; simpl;
    try reflexivity;
    destruct (g =? 0); simpl; try reflexivity;
    rewrite Listing_objects_get_eq;
    destruct (listings (db w) !! l) as [row |]; simpl; try reflexivity;
    destruct (g >? Listing.max_guest_count row); reflexivity.
Qed.

(** C10.  When the submitted number of guests is 0 or absent, or the
    listing reference is absent, [BookingSerializer.validate] issues no
    query and leaves the world as it is: neither the capacity nor the
    existence of the listing is checked.  Its outcome is that of the date
    rule alone, so the data is accepted whenever its dates are, whether or
    not the listing exists. *)
Theorem zero_guests_skip_listing_checks (data : BookingData.t) (w : World) :
  BookingData.number_of_guests data = Some 0 \/
  BookingData.number_of_guests data = None \/
  BookingData.listing_id data = None ->
  (BookingSerializer_validate data w).2 = w /\
  (BookingSerializer_validate data w).1 =
    match BookingData.check_in_date data, BookingData.check_out_date data with
    | Some check_in, Some check_out =>
        if datetime.lt check_in check_out then Ok data
        else Raise (serializers_ValidationError checkout_message)
    | _, _ => Ok data
    end.
Proof.
  intros H. rewrite BookingSerializer_validate_eq. cbv zeta.
  assert (Hskip :
    match BookingData.listing_id data, BookingData.number_of_guests data with
    | Some listing_id, Some number_of_guests =>
        if number_of_guests =? 0 then (Ok data, w)
        else
          (match listings (db w) !! listing_id with
           | Some listing =>
               if number_of_guests >? Listing.max_guest_count listing
               then Raise (serializers_ValidationError
                             (guests_message number_of_guests
                                (Listing.max_guest_count listing)))
               else Ok data
           | None => Raise (serializers_ValidationError "Invalid listing ID.")
           end,
           mkWorld (db w) (queries w ++ [SELECT_listing listing_id]))
    | _, _ => (Ok data, w)
    end = (Ok data, w)).
  { destruct H as [-> | [-> | ->]];
      destruct (BookingData.listing_id data);
      try destruct (BookingData.number_of_guests data); reflexivity. }
  rewrite Hskip.
  destruct (BookingData.check_in_date data) as [ci |],
           (BookingData.check_out_date data) as [co |]; auto.
  rewrite date_le_not_lt. destruct (datetime.lt ci co); auto.
Qed.

Lemma zero_guests_skip_listing_checks_witness :
  listings (db rated_world) !! unknown_listing_id = None /\
  BookingSerializer_validate (booking_request unknown_listing_id 0) rated_world
  = (Ok (booking_request unknown_listing_id 0), rated_world).
Proof.
  split; [reflexivity |].
  destruct (zero_guests_skip_listing_checks
              (booking_request unknown_listing_id 0) rated_world
              (or_introl eq_refl)) as [Hworld Hresult].
  apply injective_projections; [exact Hresult | exact Hworld].
Defined.

(** C2, as the code has it.  When the data names a listing that does not
    exist and gives a number of guests other than 0, validation raises a
    validation error and never the not-found error of the lookup, which it
    catches: the error of the date rule when the dates are rejected, and
    otherwise the validation error "Invalid listing ID.", after one query
    for the listing. *)
Theorem missing_listing_is_validation_error
    (data : BookingData.t) (w : World) (listing_id : UUID) (g : Z) :
  BookingData.listing_id data = Some listing_id ->
  BookingData.number_of_guests data = Some g ->
  g <> 0 ->
  listings (db w) !! listing_id = None ->
  fails_with (BookingSerializer_validate data w).1 ValidationErrorKind /\
  ~ fails_with (BookingSerializer_validate data w).1 NotFoundErrorKind /\
  ((BookingSerializer_validate data w).1
     = Raise (serializers_ValidationError checkout_message) \/
   BookingSerializer_validate data w
     = (Raise (serializers_ValidationError "Invalid listing ID."),
        mkWorld (db w) (queries w ++ [SELECT_listing listing_id]))).
Proof.
  intros Hl Hg Hg0 Hnone. rewrite BookingSerializer_validate_eq. cbv zeta.
  rewrite Hl, Hg, Hnone. apply Z.eqb_neq in Hg0. rewrite Hg0.
  destruct (match BookingData.check_in_date data with
            | Some check_in =>
                match BookingData.check_out_date data with
                | Some check_out => datetime.le check_out check_in
                | None => false
                end
            | None => false
            end); simpl; repeat split; auto; discriminate.
Qed.

Lemma missing_listing_is_validation_error_witness :
  BookingSerializer_validate (booking_request unknown_listing_id 2) rated_world
  = (Raise (serializers_ValidationError "Invalid listing ID."),
     mkWorld rated_database [SELECT_listing unknown_listing_id]).
Proof.
  destruct (missing_listing_is_validation_error
              (booking_request unknown_listing_id 2) rated_world
              unknown_listing_id 2 eq_refl eq_refl ltac:(discriminate) eq_refl)
    as (_ & _ & [Hdates | Hlisting]).
  - discriminate Hdates.
  - exact Hlisting.
Defined.

(** The claim C2 fails on the code: for a listing that does not exist the
    validation error "Invalid listing ID." is raised, which is not a
    not-found error. *)
Lemma missing_listing_not_found_counterexample :
  listings (db rated_world) !! unknown_listing_id = None /\
  (BookingSerializer_validate (booking_request unknown_listing_id 2)
     rated_world).1
  = Raise (serializers_ValidationError "Invalid listing ID.") /\
  ~ fails_with
      (BookingSerializer_validate (booking_request unknown_listing_id 2)
         rated_world).1
      NotFoundErrorKind.
Proof.
  split; [reflexivity |]. split; [reflexivity |].
  simpl. discriminate.
Qed.

(** ** Creating bookings *)

Lemma Booking_with_total_price_id row :
  Booking_with_total_price row (Booking.total_price row) = row.
Proof. destruct row. reflexivity. Qed.

Lemma Booking_violation_price d row total_price :
  Booking_violation d (Booking_with_total_price row total_price)
  = Booking_violation d row.
Proof. reflexivity. Qed.

Lemma Booking_objects_create_eq row w :
  Booking_objects_create row w =
  match format_number (Booking.total_price row) 10 2 with
  | Raise e => (Raise e, w)
  | Ok total_price =>
      let stored := Booking_with_total_price row total_price in
      match Booking_violation (db w) row with
      | Some c =>
          (Raise (IntegrityError c),
           mkWorld (db w) (queries w ++ [INSERT_booking stored]))
      | None =>
          (Ok row,
           mkWorld (mkDatabase (users (db w)) (listings (db w))
                      (stored :: bookings (db w)) (reviews (db w)))
                   (queries w ++ [INSERT_booking stored]))
      end
  end.
Proof.
  unfold Booking_objects_create. unfold mbind at 1, DB_bind, lift.
  destruct (format_number _ _ _) as [total_price |]; [| reflexivity].
  db_unfold. simpl. rewrite Booking_violation_price.
  destruct (Booking_violation (db w) row); reflexivity.
Qed.

(** When the price is a value of its column the row is stored as it is. *)
Lemma Booking_objects_create_column row w :
  Decimal_column 10 2 (Booking.total_price row) ->
  Booking_objects_create row w =
  match Booking_violation (db w) row with
  | Some c =>
      (Raise (IntegrityError c),
       mkWorld (db w) (queries w ++ [INSERT_booking row]))
  | None =>
      (Ok row,
       mkWorld (mkDatabase (users (db w)) (listings (db w))
                  (row :: bookings (db w)) (reviews (db w)))
               (queries w ++ [INSERT_booking row]))
  end.
Proof.
  intros Hprice. rewrite Booking_objects_create_eq.
  rewrite format_number_column by (lia || assumption).
  cbv zeta. rewrite Booking_with_total_price_id. reflexivity.
Qed.

(** The constraint a row violates when its dates are in order and its
    foreign keys are good: none, or one on the number of guests. *)
Lemma Booking_violation_guests d row l :
  datetime.lt (Booking.check_in_date row) (Booking.check_out_date row) = true ->
  listings d !! Booking.listing row = Some l ->
  Booking.user row ∈ users d ->
  Booking_violation d row =
  if Booking.number_of_guests row >=? 1 then None
  else if Booking.number_of_guests row >=? 0 then Some at_least_one_guest
  else Some number_of_guests_check.
Proof.
  intros Hdates Hl Hu. unfold Booking_violation. rewrite Hdates, Hl. simpl.
  destruct (Z.geb_spec (Booking.number_of_guests row) 0),
           (Z.geb_spec (Booking.number_of_guests row) 1);
    simpl; try reflexivity; try lia.
  rewrite (bool_decide_eq_true_2 _ Hu). reflexivity.
Qed.

Lemma to_row_fields data row :
  BookingSerializer_to_row data = Ok row ->
  BookingData.listing_id data = Some (Booking.listing row) /\
  BookingData.check_in_date data = Some (Booking.check_in_date row) /\
  BookingData.check_out_date data = Some (Booking.check_out_date row) /\
  BookingData.number_of_guests data = Some (Booking.number_of_guests row).
Proof.
  unfold BookingSerializer_to_row.
  destruct (BookingData.listing_id data), (BookingData.user_id data),
    (BookingData.check_in_date data), (BookingData.check_out_date data),
    (BookingData.number_of_guests data), (BookingData.total_price data);
    try discriminate.
  intros [= <-]. auto.
Qed.

Lemma special_requests_field_Ok value r :
  special_requests_field value = Ok r -> r = strip <$> value.
Proof.
  unfold special_requests_field.
  destruct value as [s |]; [| intros [= <-]; reflexivity].
  cbv zeta. destruct (contains _ _); [discriminate |].
  intros [= <-]. reflexivity.
Qed.

(** What the validation of the fields lets through: the data of the
    request with all its required fields, a number of guests that is not
    negative, a positive price that is a value of its column and the
    special requests stripped. *)
Lemma to_internal_value_Ok data internal :
  BookingSerializer_to_internal_value data = Ok internal ->
  BookingData.listing_id internal = BookingData.listing_id data /\
  BookingData.check_in_date internal = BookingData.check_in_date data /\
  BookingData.check_out_date internal = BookingData.check_out_date data /\
  BookingData.number_of_guests internal = BookingData.number_of_guests data /\
  exists requested row,
    BookingSerializer_to_row data = Ok requested /\
    row = Booking_validated requested /\
    BookingSerializer_to_row internal = Ok row /\
    0 <= Booking.number_of_guests row /\
    (0 < Booking.total_price row)%Qc /\
    Decimal_column 10 2 (Booking.total_price row).
Proof.
  unfold BookingSerializer_to_internal_value, BookingSerializer_to_row,
    number_of_guests_field.
  destruct (BookingData.listing_id data) as [l |],
           (BookingData.user_id data) as [u |],
           (BookingData.check_in_date data) as [ci |],
           (BookingData.check_out_date data) as [co |],
           (BookingData.number_of_guests data) as [g |];
    cbn [field_required]; try discriminate;
    try (destruct (g <? 0); discriminate);
    try (destruct (total_price_field _); discriminate).
  destruct (Z.ltb_spec g 0) as [Hg | Hg];
    [destruct (total_price_field _); discriminate |].
  destruct (total_price_field (BookingData.total_price data)) as [d' |] eqn:Hp;
    [| discriminate].
  destruct (special_requests_field _) as [r |] eqn:Hr; [| discriminate].
  apply special_requests_field_Ok in Hr as ->.
  apply total_price_field_Ok in Hp as (dec & Hdec & Hv & Hpos & Hcol).
  rewrite Hdec. intros [= <-]. cbn. rewrite Hv. repeat (split; [reflexivity |]).
  eexists _, _. split; [reflexivity |]. split; [| split; [reflexivity |]].
  - unfold Booking_validated. cbn. f_equal.
    destruct (BookingData.special_requests data); reflexivity.
  - cbn. auto.
Qed.

Lemma BookingSerializer_validate_Ok data w validated :
  (BookingSerializer_validate data w).1 = Ok validated -> validated = data.
Proof.
  rewrite BookingSerializer_validate_eq. cbv zeta.
  repeat match goal with
         | |- context [match ?c with _ => _ end] => destruct c
         | |- context [if ?c then _ else _] => destruct c
         end; cbn [fst]; congruence.
Qed.

Lemma BookingSerializer_create_unfold data w :
  BookingSerializer_create data w =
  match BookingSerializer_to_internal_value data with
  | Raise e => (Raise e, w)
  | Ok internal =>
      match BookingSerializer_validate internal w with
      | (Raise e, w') => (Raise e, w')
      | (Ok _, w') =>
          match BookingSerializer_to_row internal with
          | Raise e => (Raise e, w')
          | Ok row => Booking_objects_create row w'
          end
      end
  end.
Proof.
  unfold BookingSerializer_create. unfold mbind at 1 2 3, DB_bind, lift.
  destruct (BookingSerializer_to_internal_value data) as [internal |];
    [| reflexivity].
  pose proof (BookingSerializer_validate_Ok internal w) as Hsame.
  destruct (BookingSerializer_validate internal w) as [[validated |] w'];
    [| reflexivity].
  rewrite (Hsame validated eq_refl).
  destruct (BookingSerializer_to_row internal); reflexivity.
Qed.

(** Creating a booking for an existing listing and user, with dates in
    order, a price and special requests that their fields accept, case by
    case on the number of guests. *)
Lemma BookingSerializer_create_eq
    (w : World) (l : Listing.t) (listing_id : UUID) (user_id : Z)
    (check_in check_out : date) (g : Z) (total_price : Decimal.t)
    (status : option BOOKING_STATUS_CHOICES) (special_requests : option string) :
  listings (db w) !! listing_id = Some l ->
  0 <= Listing.max_guest_count l ->
  user_id ∈ users (db w) ->
  datetime.lt check_in check_out = true ->
  is_ok (total_price_field (Some total_price)) = true ->
  is_ok (special_requests_field special_requests) = true ->
  let data :=
    BookingData.mk (Some listing_id) (Some user_id) (Some check_in)
      (Some check_out) (Some g) (Some total_price) status special_requests in
  let row :=
    Booking.mk listing_id user_id check_in check_out g
      (Decimal.value total_price) (default pending status)
      (default "" (strip <$> special_requests)) in
  let outcome := (BookingSerializer_create data w).1 in
  if g <? 0 then exists detail, outcome = Raise (serializers_ValidationError detail)
  else if g >? Listing.max_guest_count l
  then outcome = Raise (serializers_ValidationError
                          (guests_message g (Listing.max_guest_count l)))
  else if g >=? 1 then outcome = Ok row
  else outcome = Raise (IntegrityError at_least_one_guest).
Proof.
  intros Hl Hmax Hu Hdates Hprice Hrequests data row outcome. subst outcome.
  rewrite BookingSerializer_create_unfold.
  unfold BookingSerializer_to_internal_value, number_of_guests_field.
  cbn [data BookingData.listing_id BookingData.user_id
       BookingData.check_in_date BookingData.check_out_date
       BookingData.number_of_guests BookingData.total_price
       BookingData.status BookingData.special_requests field_required].
  destruct (total_price_field (Some total_price)) as [p |] eqn:Hp;
    [| discriminate].
  destruct (special_requests_field special_requests) as [r |] eqn:Hr;
    [| discriminate].
  destruct (Z.ltb_spec g 0) as [Hneg | Hnonneg]; [eauto |].
  apply special_requests_field_Ok in Hr as ->.
  apply total_price_field_Ok in Hp as (dec & [= <-] & Hv & _ & Hcol).
  rewrite BookingSerializer_validate_eq. cbv zeta.
  cbn [BookingData.listing_id BookingData.check_in_date
       BookingData.check_out_date BookingData.number_of_guests].
  rewrite date_le_not_lt, Hdates, Hl. simpl negb. cbv iota.
  assert (Hrow : BookingSerializer_to_row
                   (BookingData.mk (Some listing_id) (Some user_id)
                      (Some check_in) (Some check_out) (Some g) (Some p) status
                      (strip <$> special_requests)) = Ok row).
  { unfold BookingSerializer_to_row, row. cbn. rewrite Hv. reflexivity. }
  assert (Hcol' : Decimal_column 10 2 (Booking.total_price row)) by exact Hcol.
  assert (Hviol : Booking_violation (db w) row =
                  if g >=? 1 then None
                  else if g >=? 0 then Some at_least_one_guest
                  else Some number_of_guests_check).
  { exact (Booking_violation_guests (db w) row l Hdates Hl Hu). }
  destruct (Z.eqb_spec g 0) as [H0 | H0].
  - rewrite Hrow, (Booking_objects_create_column _ _ Hcol'), Hviol.
    destruct (Z.gtb_spec g (Listing.max_guest_count l)); [lia |].
    destruct (Z.geb_spec g 1); [lia |]. destruct (Z.geb_spec g 0); [| lia].
    reflexivity.
  - destruct (g >? Listing.max_guest_count l); [reflexivity |].
    rewrite Hrow, (Booking_objects_create_column _ _ Hcol').
    cbn [fst snd db]. rewrite Hviol.
    destruct (Z.geb_spec g 1); [reflexivity | lia].
Qed.

(** C1, as the code has it.  For a listing that is stored, so with a
    maximum from 0 to 2147483647, a booking request with all its required
    fields, for that listing and a user that exists, with the check-out
    date after the check-in date and a price and special requests that
    their fields accept, creates the booking exactly when the number of
    guests is at least 1 and at most the listing's maximum, and a number
    above the maximum raises a validation error. *)
Theorem booking_created_iff_guests_in_range
    (w : World) (l : Listing.t) (listing_id : UUID) (user_id : Z)
    (check_in check_out : date) (g : Z) (total_price : Decimal.t)
    (status : option BOOKING_STATUS_CHOICES) (special_requests : option string) :
  listings (db w) !! listing_id = Some l ->
  0 <= Listing.max_guest_count l <= 2147483647 ->
  user_id ∈ users (db w) ->
  datetime.lt check_in check_out = true ->
  is_ok (total_price_field (Some total_price)) = true ->
  is_ok (special_requests_field special_requests) = true ->
  let data :=
    BookingData.mk (Some listing_id) (Some user_id) (Some check_in)
      (Some check_out) (Some g) (Some total_price) status special_requests in
  let row :=
    Booking.mk listing_id user_id check_in check_out g
      (Decimal.value total_price) (default pending status)
      (default "" (strip <$> special_requests)) in
  let outcome := (BookingSerializer_create data w).1 in
  (outcome = Ok row <-> 1 <= g <= Listing.max_guest_count l) /\
  (is_ok outcome = true <-> 1 <= g <= Listing.max_guest_count l) /\
  (Listing.max_guest_count l < g -> fails_with outcome ValidationErrorKind).
Proof.
  intros Hl [Hmax _] Hu Hdates Hprice Hrequests data row outcome.
  pose proof (BookingSerializer_create_eq w l listing_id user_id check_in
                check_out g total_price status special_requests Hl Hmax Hu
                Hdates Hprice Hrequests) as H.
  cbv zeta in H. fold data row outcome in H.
  destruct (Z.ltb_spec g 0).
  { destruct H as [detail ->].
    split; [split; [discriminate | lia] |].
    split; [split; [discriminate | lia] | lia]. }
  destruct (Z.gtb_spec g (Listing.max_guest_count l)).
  { rewrite H. split; [split; [discriminate | lia] |].
    split; [split; [discriminate | lia] | reflexivity]. }
  destruct (Z.geb_spec g 1); rewrite H.
  - split; [split; [lia | reflexivity] |].
    split; [split; [lia | reflexivity] | lia].
  - split; [split; [discriminate | lia] |].
    split; [split; [discriminate | lia] | lia].
Qed.

Lemma booking_created_iff_guests_in_range_witness :
  (BookingSerializer_create (booking_request 7 4) rated_world).1
  = Ok (booking_row 7 4).
Proof.
  apply (booking_created_iff_guests_in_range rated_world rated_listing 7%N 2
           (datetime.mkdate 2024 6 10) (datetime.mkdate 2024 6 12) 4
           two_hundred None None).
  - reflexivity.
  - simpl. lia.
  - vm_compute. reflexivity.
  - reflexivity.
  - vm_compute. reflexivity.
  - reflexivity.
  - simpl. lia.
Defined.

(** The claim C1 fails on the code at 0 guests: 0 is at most the maximum
    of the listing, and no booking is created. *)
Lemma zero_guests_booking_counterexample :
  listings (db rated_world) !! 7%N = Some rated_listing /\
  0 <= Listing.max_guest_count rated_listing /\
  is_ok (BookingSerializer_create (booking_request 7 0) rated_world).1 = false /\
  bookings (db (BookingSerializer_create (booking_request 7 0) rated_world).2)
  = bookings (db rated_world).
Proof.
  split; [reflexivity |]. split; [simpl; lia |].
  split; vm_compute; reflexivity.
Qed.

(** The test of the specification: for a listing of at most 4 guests, 4
    guests are accepted and 5 rejected. *)
Example four_guests_accepted_five_rejected :
  is_ok (BookingSerializer_create (booking_request 7 4) rated_world).1 = true /\
  (BookingSerializer_create (booking_request 7 5) rated_world).1
  = Raise (serializers_ValidationError
             "Number of guests (5) exceeds maximum allowed (4).").
Proof. split; vm_compute; reflexivity. Qed.

(** ** Creating reviews *)

Lemma Review_objects_create_eq row w :
  Review_objects_create row w =
  match Review_violation (db w) row with
  | Some c =>
      (Raise (IntegrityError c),
       mkWorld (db w) (queries w ++ [INSERT_review row]))
  | None =>
      (Ok row,
       mkWorld (mkDatabase (users (db w)) (listings (db w))
                  (bookings (db w)) (row :: reviews (db w)))
               (queries w ++ [INSERT_review row]))
  end.
Proof.
  unfold Review_objects_create. db_unfold. simpl.
  destruct (Review_violation (db w) row); reflexivity.
Qed.

Lemma Review_same_pair_iff a b :
  Review_same_pair a b = true <->
  (Review.listing a, Review.user a) = (Review.listing b, Review.user b).
Proof.
  unfold Review_same_pair. rewrite andb_true_iff, N.eqb_eq, Z.eqb_eq.
  split; [intros [-> ->]; reflexivity | intros [= -> ->]; auto].
Qed.

(** The pair of a row is in the table exactly when the table holds a row
    with the same listing and user. *)
Lemma existsb_same_pair row rows :
  existsb (Review_same_pair row) rows = true <->
  (Review.listing row, Review.user row)
    ∈ (fun r => (Review.listing r, Review.user r)) <$> rows.
Proof.
  induction rows as [| r rows IH]; simpl.
  - split; [discriminate | intros H; inversion H].
  - rewrite orb_true_iff, IH, Review_same_pair_iff, elem_of_cons. reflexivity.
Qed.

(** A row is inserted only when its pair is new. *)
Lemma Review_violation_None d row :
  Review_violation d row = None ->
  existsb (Review_same_pair row) (reviews d) = false.
Proof.
  unfold Review_violation.
  destruct (negb _); [discriminate |].
  destruct (existsb _ _); [discriminate | reflexivity].
Qed.

Lemma Review_violation_duplicate d row :
  0 <= Review.rating row ->
  existsb (Review_same_pair row) (reviews d) = true ->
  Review_violation d row = Some review_unique_together.
Proof.
  intros Hr Hdup. unfold Review_violation. rewrite Hdup.
  destruct (Z.geb_spec (Review.rating row) 0); [reflexivity | lia].
Qed.

Lemma Review_violation_fresh d row l :
  0 <= Review.rating row ->
  existsb (Review_same_pair row) (reviews d) = false ->
  listings d !! Review.listing row = Some l ->
  Review.user row ∈ users d ->
  Review_violation d row = None.
Proof.
  intros Hr Hnew Hl Hu. unfold Review_violation. rewrite Hnew, Hl.
  destruct (Z.geb_spec (Review.rating row) 0); [| lia]. simpl.
  rewrite (bool_decide_eq_true_2 _ Hu). reflexivity.
Qed.

(** Whatever row is submitted, the table keeps at most one review for
    each pair of a listing and a user. *)
Lemma Review_objects_create_unique row w :
  unique_reviews (db w) -> unique_reviews (db (Review_objects_create row w).2).
Proof.
  intros Huniq. rewrite Review_objects_create_eq.
  destruct (Review_violation (db w) row) eqn:Hv; [exact Huniq |].
  unfold unique_reviews. cbn [db reviews snd]. rewrite fmap_cons.
  apply list.NoDup_cons. split; [| exact Huniq].
  rewrite <- existsb_same_pair, (Review_violation_None _ _ Hv). discriminate.
Qed.

(** The pair of a row is in the table exactly when its user has reviewed
    its listing. *)
Lemma existsb_reviewed d row :
  existsb (Review_same_pair row) (reviews d) = true <->
  reviewed d (Review.listing row) (Review.user row).
Proof.
  rewrite existsb_same_pair, list_elem_of_fmap. unfold reviewed. split.
  - intros (r & [= Hl Hu] & Hin). eauto.
  - intros (r & Hin & Hl & Hu). exists r. split; [congruence | exact Hin].
Qed.

(** C9.  Whatever the table of reviews holds and whatever review is
    submitted to [Review.objects.create]: if the table has at most one
    review for each pair of a listing and a user, it still has after the
    creation; if the user of the review has already reviewed its listing,
    with any review of the table, the creation is refused and leaves every
    table as it is, with a conflict error when the rating is one that the
    column admits; if the user has not reviewed the listing, whoever else
    has, and the listing and the user exist, the review is created and is
    the one row added. *)
Theorem one_review_per_user_and_listing (w : World) (row : Review.t) :
  let outcome := (Review_objects_create row w).1 in
  let w' := (Review_objects_create row w).2 in
  (unique_reviews (db w) -> unique_reviews (db w')) /\
  (reviewed (db w) (Review.listing row) (Review.user row) ->
   is_ok outcome = false /\ db w' = db w /\
   (0 <= Review.rating row -> fails_with outcome ConflictErrorKind)) /\
  (~ reviewed (db w) (Review.listing row) (Review.user row) ->
   0 <= Review.rating row ->
   is_Some (listings (db w) !! Review.listing row) ->
   Review.user row ∈ users (db w) ->
   outcome = Ok row /\
   db w' = mkDatabase (users (db w)) (listings (db w)) (bookings (db w))
             (row :: reviews (db w))).
Proof.
  intros outcome w'. subst outcome w'.
  split; [apply Review_objects_create_unique |].
  rewrite Review_objects_create_eq. split.
  - intros Hdup. apply existsb_reviewed in Hdup.
    destruct (Review_violation (db w) row) eqn:Hv.
    + split; [reflexivity |]. split; [reflexivity |]. intros Hr.
      rewrite (Review_violation_duplicate _ _ Hr Hdup) in Hv.
      injection Hv as <-. reflexivity.
    + apply Review_violation_None in Hv. congruence.
  - intros Hnew Hr [l Hl] Hu.
    rewrite (Review_violation_fresh _ _ l Hr); try assumption;
      [split; reflexivity |].
    destruct (existsb _ _) eqn:H; [| reflexivity].
    exfalso. apply Hnew, existsb_reviewed, H.
Qed.

Lemma rated_database_unique : unique_reviews rated_database.
Proof. apply (bool_decide_unpack _). vm_compute. exact I. Qed.

(** In the example: the second review of listing 7 by user 4, whose first
    review is the oldest of the table, is refused; a review of listing 8
    by user 3, though user 2 has reviewed that listing, is created. *)
Lemma one_review_per_user_and_listing_witness :
  fails_with (Review_objects_create second_review rated_world).1
    ConflictErrorKind /\
  (Review_objects_create first_review rated_world).1 = Ok first_review.
Proof.
  assert (Hu : Review.user first_review ∈ users (db rated_world))
    by (vm_compute; reflexivity).
  destruct (one_review_per_user_and_listing rated_world second_review)
    as (_ & Hdup & _).
  destruct (one_review_per_user_and_listing rated_world first_review)
    as (_ & _ & Hnew).
  split.
  - apply Hdup; [| simpl; lia].
    exists (Review.mk 7%N 4 5 "Exceeded our expectations!").
    split; [| split; reflexivity].
    apply list_elem_of_In. simpl. auto.
  - apply Hnew; [| simpl; lia | eexists; reflexivity | exact Hu].
    intros (r & Hin & Hl & Hr). apply list_elem_of_In in Hin.
    simpl in Hin.
    repeat (destruct Hin as [<- | Hin]; [discriminate |]). exact Hin.
Defined.

(** * Further properties of the code *)

(** ** Booking validation on its two paths *)

Lemma Booking_clean_eq self w :
  Booking_clean self w =
  if datetime.le (Booking.check_out_date self) (Booking.check_in_date self)
  then (Raise (ValidationError checkout_message), w)
  else
    (match listings (db w) !! Booking.listing self with
     | Some listing =>
         if Booking.number_of_guests self >? Listing.max_guest_count listing
         then Raise (ValidationError
                       (guests_message (Booking.number_of_guests self)
                          (Listing.max_guest_count listing)))
         else Ok ()
     | None => Raise DoesNotExist
     end,
     mkWorld (db w) (queries w ++ [SELECT_listing (Booking.listing self)])).
Proof.
  unfold Booking_clean. destruct (datetime.le _ _); [reflexivity |].
  unfold mbind, DB_bind. rewrite Listing_objects_get_eq.
  destruct (listings (db w) !! Booking.listing self) as [l |]; [| reflexivity].
  destruct (_ >? _); reflexivity.
Qed.

(** X1.  The serializer's [validate] and the model's [clean] agree on a
    complete booking for a listing that exists: both accept it or both
    reject it, with the same message. *)
Theorem validate_and_clean_agree
    (data : BookingData.t) (w : World) (row : Booking.t) (l : Listing.t) :
  BookingSerializer_to_row data = Ok row ->
  listings (db w) !! Booking.listing row = Some l ->
  0 <= Listing.max_guest_count l ->
  ((BookingSerializer_validate data w).1 = Ok data <->
   (Booking_clean row w).1 = Ok ()) /\
  (forall msg,
     (BookingSerializer_validate data w).1
       = Raise (serializers_ValidationError msg) <->
     (Booking_clean row w).1 = Raise (ValidationError msg)).
Proof.
  intros Hrow Hl Hmax.
  destruct (to_row_fields data row Hrow) as (Hid & Hci & Hco & Hg).
  rewrite BookingSerializer_validate_eq, Booking_clean_eq. cbv zeta.
  rewrite Hid, Hci, Hco, Hg, Hl.
  destruct (datetime.le _ _); simpl.
  - split; [split; discriminate |].
    intros msg; split; intros [= <-]; reflexivity.
  - destruct (Z.eqb_spec (Booking.number_of_guests row) 0) as [H0 | H0].
    + rewrite H0. destruct (Z.gtb_spec 0 (Listing.max_guest_count l)); [lia |].
      simpl. split; [split; reflexivity |].
      intros msg; split; discriminate.
    + simpl. destruct (_ >? _); simpl.
      * split; [split; discriminate |].
        intros msg; split; intros [= <-]; reflexivity.
      * split; [split; reflexivity |].
        intros msg; split; discriminate.
Qed.

Lemma validate_and_clean_agree_witness :
  (BookingSerializer_validate (booking_request 7 5) rated_world).1
  = Raise (serializers_ValidationError
             "Number of guests (5) exceeds maximum allowed (4).") /\
  (Booking_clean (booking_row 7 5) rated_world).1
  = Raise (ValidationError
             "Number of guests (5) exceeds maximum allowed (4).").
Proof.
  split; [reflexivity |].
  apply (validate_and_clean_agree (booking_request 7 5) rated_world
           (booking_row 7 5) rated_listing eq_refl eq_refl ltac:(simpl; lia)).
  reflexivity.
Defined.

(** X2.  [clean] on a booking whose listing is gone: the date rule comes first,
    without a query; with the dates in order the access to the listing
    raises the lookup's [DoesNotExist], which [clean] does not catch. *)
Theorem clean_dangling_listing (self : Booking.t) (w : World) :
  listings (db w) !! Booking.listing self = None ->
  Booking_clean self w =
  if datetime.lt (Booking.check_in_date self) (Booking.check_out_date self)
  then (Raise DoesNotExist,
        mkWorld (db w) (queries w ++ [SELECT_listing (Booking.listing self)]))
  else (Raise (ValidationError checkout_message), w).
Proof.
  intros Hnone. rewrite Booking_clean_eq, Hnone, date_le_not_lt.
  destruct (datetime.lt _ _); reflexivity.
Qed.

Lemma clean_dangling_listing_witness :
  fails_with (Booking_clean (booking_row unknown_listing_id 2) rated_world).1
    NotFoundErrorKind.
Proof.
  rewrite (clean_dangling_listing (booking_row unknown_listing_id 2)
             rated_world eq_refl).
  reflexivity.
Defined.

(** ** What the operations read and write *)

Lemma BookingSerializer_validate_db data w :
  db (BookingSerializer_validate data w).2 = db w.
Proof.
  rewrite BookingSerializer_validate_eq. cbv zeta.
  destruct (match BookingData.check_in_date data with
            | Some check_in =>
                match BookingData.check_out_date data with
                | Some check_out => datetime.le check_out check_in
                | None => false
                end
            | None => false
            end); [reflexivity |].
  destruct (BookingData.listing_id data), (BookingData.number_of_guests data);
    try reflexivity.
  destruct (_ =? 0); reflexivity.
Qed.

Lemma BookingSerializer_validate_queries data w :
  queries (BookingSerializer_validate data w).2 = queries w \/
  exists listing_id,
    BookingData.listing_id data = Some listing_id /\
    queries (BookingSerializer_validate data w).2
    = queries w ++ [SELECT_listing listing_id].
Proof.
  rewrite BookingSerializer_validate_eq. cbv zeta.
  destruct (match BookingData.check_in_date data with
            | Some check_in =>
                match BookingData.check_out_date data with
                | Some check_out => datetime.le check_out check_in
                | None => false
                end
            | None => false
            end); [left; reflexivity |].
  destruct (BookingData.listing_id data) as [l |],
           (BookingData.number_of_guests data) as [g |];
    try (left; reflexivity).
  destruct (g =? 0); [left; reflexivity |]. right. eauto.
Qed.

(** X3.  Validation and the derived attributes only read: [validate], [clean],
    [average_rating] and [get_review_count] leave every table as it is, and
    each sends at most one statement, a SELECT. *)
Theorem validation_and_views_only_read
    (data : BookingData.t) (self : Booking.t) (obj : Listing.t) (w : World) :
  let selects (w' : World) :=
    db w' = db w /\
    exists statements,
      queries w' = queries w ++ statements /\
      (length statements <= 1)%nat /\
      Forall (fun q => match q with
                       | SELECT_listing _ | SELECT_reviews _ => True
                       | INSERT_booking _ | INSERT_review _ => False
                       end) statements in
  selects (BookingSerializer_validate data w).2 /\
  selects (Booking_clean self w).2 /\
  selects (Listing_average_rating obj w).2 /\
  selects (ListingListSerializer_get_review_count obj w).2.
Proof.
  intros selects. subst selects. cbv beta.
  split; [| split; [| split]].
  - split; [apply BookingSerializer_validate_db |].
    destruct (BookingSerializer_validate_queries data w) as [H | (l & _ & H)];
      rewrite H.
    + exists []. rewrite app_nil_r. repeat constructor.
    + eexists. split; [reflexivity |]. repeat constructor.
  - rewrite Booking_clean_eq. destruct (datetime.le _ _); simpl.
    + split; [reflexivity |]. exists []. rewrite app_nil_r. repeat constructor.
    + split; [reflexivity |]. eexists. split; [reflexivity |].
      repeat constructor.
  - rewrite Listing_average_rating_eq. simpl. split; [reflexivity |].
    eexists. split; [reflexivity |]. repeat constructor.
  - unfold ListingListSerializer_get_review_count, Listing_reviews_all.
    db_unfold. simpl. split; [reflexivity |].
    eexists. split; [reflexivity |]. repeat constructor.
Qed.

(** ** Creating bookings, in general *)

Lemma Booking_violation_None d row :
  Decimal_column 10 2 (Booking.total_price row) ->
  Booking_violation d row = None <-> Booking_row_ok d row.
Proof.
  intros Hcol. unfold Booking_violation, Booking_row_ok.
  destruct (datetime.lt _ _); simpl; [| split; [discriminate | intros [? _]; discriminate]].
  destruct (Z.geb_spec (Booking.number_of_guests row) 0); simpl;
    [| split; [discriminate | intros (_ & ? & _); lia]].
  destruct (Z.geb_spec (Booking.number_of_guests row) 1); simpl;
    [| split; [discriminate | intros (_ & ? & _); lia]].
  case_bool_decide as Hl; simpl;
    [| split; [discriminate | intros (_ & _ & ? & _); contradiction]].
  case_bool_decide as Hu; simpl;
    [| split; [discriminate | intros (_ & _ & _ & ? & _); contradiction]].
  split; [intros _; repeat (split; [first [reflexivity | lia | assumption] |]); assumption
         | reflexivity].
Qed.

(** The row that [Booking.objects.create] inserts is one the table lets
    in, with the price as the column holds it; whatever is refused changes
    nothing. *)
Lemma Booking_objects_create_Ok row w row' :
  (Booking_objects_create row w).1 = Ok row' ->
  row' = row /\
  Booking_row_ok (db w) (Booking_stored row) /\
  db (Booking_objects_create row w).2
  = mkDatabase (users (db w)) (listings (db w))
      (Booking_stored row :: bookings (db w)) (reviews (db w)).
Proof.
  rewrite Booking_objects_create_eq.
  destruct (format_number _ _ _) as [total_price |] eqn:Hf; [| discriminate].
  cbv zeta. destruct (Booking_violation (db w) row) eqn:Hv; [discriminate |].
  intros [= <-]. split; [reflexivity |].
  apply format_number_Ok in Hf as [-> Hcol]; [| lia].
  split; [| reflexivity].
  apply Booking_violation_None; [exact Hcol |].
  unfold Booking_stored. rewrite Booking_violation_price. exact Hv.
Qed.

Lemma Booking_objects_create_Raise row w e :
  (Booking_objects_create row w).1 = Raise e ->
  db (Booking_objects_create row w).2 = db w.
Proof.
  rewrite Booking_objects_create_eq.
  destruct (format_number _ _ _); [| reflexivity]. cbv zeta.
  destruct (Booking_violation (db w) row); [reflexivity | discriminate].
Qed.

(** A creation through the serializer is refused before anything is
    written, or it comes to [Booking.objects.create] with the row of the
    validated data. *)
Lemma BookingSerializer_create_inv data w :
  (is_ok (BookingSerializer_create data w).1 = false /\
   db (BookingSerializer_create data w).2 = db w) \/
  exists internal requested row w',
    BookingSerializer_to_internal_value data = Ok internal /\
    BookingSerializer_to_row data = Ok requested /\
    row = Booking_validated requested /\
    BookingSerializer_to_row internal = Ok row /\
    0 <= Booking.number_of_guests row /\
    (0 < Booking.total_price row)%Qc /\
    Decimal_column 10 2 (Booking.total_price row) /\
    BookingSerializer_validate internal w = (Ok internal, w') /\
    db w' = db w /\
    BookingSerializer_create data w = Booking_objects_create row w'.
Proof.
  rewrite BookingSerializer_create_unfold.
  destruct (BookingSerializer_to_internal_value data) as [internal |] eqn:Hint;
    [| left; auto].
  destruct (to_internal_value_Ok data internal Hint)
    as (_ & _ & _ & _ & requested & row & Hreq & Hrow & Hinternal & Hg & Hpos
        & Hcol).
  pose proof (BookingSerializer_validate_db internal w) as Hdb.
  pose proof (BookingSerializer_validate_Ok internal w) as Hsame.
  destruct (BookingSerializer_validate internal w) as [[validated |] w'] eqn:Hv;
    change (db w' = db w) in Hdb; [| left; auto].
  rewrite (Hsame validated eq_refl) in *. rewrite Hinternal.
  right. exists internal, requested, row, w'. auto 12.
Qed.

Lemma BookingSerializer_create_Ok
    (data : BookingData.t) (w : World) (row : Booking.t) :
  (BookingSerializer_create data w).1 = Ok row ->
  (exists requested,
     BookingSerializer_to_row data = Ok requested /\
     row = Booking_validated requested) /\
  datetime.lt (Booking.check_in_date row) (Booking.check_out_date row) = true /\
  (0 < Booking.total_price row)%Qc /\
  Booking.user row ∈ users (db w) /\
  (exists l,
     listings (db w) !! Booking.listing row = Some l /\
     1 <= Booking.number_of_guests row <= Listing.max_guest_count l) /\
  db (BookingSerializer_create data w).2
  = mkDatabase (users (db w)) (listings (db w)) (row :: bookings (db w))
      (reviews (db w)).
Proof.
  destruct (BookingSerializer_create_inv data w)
    as [(Hfail & _) | (internal & requested & row0 & w' & Hint & Hreq & Hrow
                       & Hinternal & _ & Hpos & Hcol & Hv & Hdb & ->)].
  { intros H. rewrite H in Hfail. discriminate. }
  rewrite (Booking_objects_create_column _ _ Hcol).
  destruct (Booking_violation (db w') row0) eqn:Hviol; [discriminate |].
  cbn [fst snd]. intros [= <-].
  apply (Booking_violation_None _ _ Hcol) in Hviol.
  rewrite Hdb in *. destruct Hviol as (Hdates & Hg & [l Hl] & Hu & _).
  destruct (to_row_fields internal row0 Hinternal) as (Hid & Hci & Hco & Hgd).
  split; [eauto |]. split; [exact Hdates |]. split; [exact Hpos |].
  split; [exact Hu |]. split; [| reflexivity].
  exists l. split; [exact Hl |]. split; [exact Hg |].
  pose proof (BookingSerializer_validate_eq internal w) as Hval.
  cbv zeta in Hval. rewrite Hv in Hval.
  rewrite Hid, Hci, Hco, Hgd, Hl, date_le_not_lt, Hdates in Hval.
  simpl in Hval.
  destruct (Z.eqb_spec (Booking.number_of_guests row0) 0); [lia |].
  destruct (Z.gtb_spec (Booking.number_of_guests row0)
              (Listing.max_guest_count l)); [discriminate | lia].
Qed.

(** X4.  Every booking created through the serializer satisfies the rules of
    the data model, whatever the request and the database: it is the row
    of the request, which has all its required fields, with the special
    requests stripped, its check-out date is after its check-in date, its
    price is positive, its user and its listing exist and its number of
    guests is at least 1 and at most the listing's maximum.  It is the one
    row added, at the head of the table. *)
Theorem created_booking_satisfies_invariants
    (data : BookingData.t) (w : World) (row : Booking.t) :
  (BookingSerializer_create data w).1 = Ok row ->
  (exists requested,
     BookingSerializer_to_row data = Ok requested /\
     row = Booking_validated requested) /\
  datetime.lt (Booking.check_in_date row) (Booking.check_out_date row) = true /\
  (0 < Booking.total_price row)%Qc /\
  Booking.user row ∈ users (db w) /\
  (exists l,
     listings (db w) !! Booking.listing row = Some l /\
     1 <= Booking.number_of_guests row <= Listing.max_guest_count l) /\
  db (BookingSerializer_create data w).2
  = mkDatabase (users (db w)) (listings (db w)) (row :: bookings (db w))
      (reviews (db w)).
Proof. apply BookingSerializer_create_Ok. Qed.

Lemma created_booking_satisfies_invariants_witness :
  exists l,
    listings (db rated_world) !! 7%N = Some l /\
    1 <= 4 <= Listing.max_guest_count l.
Proof.
  destruct (created_booking_satisfies_invariants
              (booking_request 7 4) rated_world (booking_row 7 4) eq_refl)
    as (_ & _ & _ & _ & H & _).
  exact H.
Defined.

Lemma BookingSerializer_create_Raise_db data w :
  db (BookingSerializer_create data w).2 = db w \/
  is_ok (BookingSerializer_create data w).1 = true.
Proof.
  destruct (BookingSerializer_create_inv data w)
    as [(_ & ->) | (internal & requested & row & w' & _ & _ & _ & _ & _ & _ & _
                     & _ & Hdb & ->)];
    [auto |].
  destruct (Booking_objects_create row w').1 eqn:Hc; [right; reflexivity |].
  left. rewrite (Booking_objects_create_Raise _ _ _ Hc). exact Hdb.
Qed.

(** X5.  A request that is refused changes no table, at whichever stage it is
    refused; the tables of users, listings and reviews are never
    changed. *)
Theorem refused_booking_changes_nothing (data : BookingData.t) (w : World) :
  let w' := (BookingSerializer_create data w).2 in
  (is_ok (BookingSerializer_create data w).1 = false -> db w' = db w) /\
  users (db w') = users (db w) /\
  listings (db w') = listings (db w) /\
  reviews (db w') = reviews (db w).
Proof.
  cbv zeta.
  destruct (BookingSerializer_create_inv data w)
    as [(_ & ->) | (internal & requested & row & w' & _ & _ & _ & _ & _ & _ & _
                     & _ & Hdb & ->)];
    [auto |].
  rewrite Booking_objects_create_eq.
  destruct (format_number _ _ _); [| cbn [fst snd]; rewrite Hdb; auto].
  cbv zeta.
  destruct (Booking_violation (db w') row); cbn [fst snd db is_ok];
    rewrite Hdb; auto.
  split; [discriminate | auto].
Qed.

Lemma refused_booking_changes_nothing_witness :
  db (BookingSerializer_create (booking_request 7 0) rated_world).2
  = db rated_world.
Proof.
  apply (refused_booking_changes_nothing (booking_request 7 0) rated_world).
  reflexivity.
Defined.

(** X6.  [Booking.objects.create] does not look at the capacity of the listing:
    a row with more guests than the listing allows, which [clean] rejects,
    is inserted when it meets the constraints of the table and its price
    is a value of the column. *)
Theorem objects_create_ignores_capacity
    (row : Booking.t) (w : World) (l : Listing.t) :
  Booking_row_ok (db w) row ->
  listings (db w) !! Booking.listing row = Some l ->
  Listing.max_guest_count l < Booking.number_of_guests row ->
  (Booking_objects_create row w).1 = Ok row /\
  bookings (db (Booking_objects_create row w).2) = row :: bookings (db w) /\
  (Booking_clean row w).1
  = Raise (ValidationError
             (guests_message (Booking.number_of_guests row)
                (Listing.max_guest_count l))).
Proof.
  intros Hok Hl Hover.
  assert (Hcol : Decimal_column 10 2 (Booking.total_price row)) by apply Hok.
  rewrite (Booking_objects_create_column _ _ Hcol), Booking_clean_eq.
  rewrite (proj2 (Booking_violation_None _ _ Hcol) Hok), Hl, date_le_not_lt.
  destruct Hok as (-> & _). simpl.
  destruct (Z.gtb_spec (Booking.number_of_guests row)
              (Listing.max_guest_count l)); [auto | lia].
Qed.

Lemma objects_create_ignores_capacity_witness :
  (Booking_objects_create (booking_row 7 5) rated_world).1
  = Ok (booking_row 7 5).
Proof.
  assert (Hu : Booking.user (booking_row 7 5) ∈ users (db rated_world))
    by (vm_compute; reflexivity).
  apply (objects_create_ignores_capacity (booking_row 7 5) rated_world
           rated_listing).
  - split; [reflexivity |]. split; [simpl; lia |].
    split; [exists rated_listing; reflexivity |]. split; [exact Hu |].
    exists 20000. split; [lia | reflexivity].
  - reflexivity.
  - simpl. lia.
Defined.

(** X7.  [Review.objects.create] does not run the validators of [rating]: a
    review with a rating of 0 or of more than 5, which [validate_rating]
    and the validators of the field reject, is inserted when its pair is
    new and its listing and user exist. *)
Theorem objects_create_ignores_rating_range
    (row : Review.t) (w : World) (l : Listing.t) :
  0 <= Review.rating row ->
  ~ (1 <= Review.rating row <= 5) ->
  existsb (Review_same_pair row) (reviews (db w)) = false ->
  listings (db w) !! Review.listing row = Some l ->
  Review.user row ∈ users (db w) ->
  (Review_objects_create row w).1 = Ok row /\
  reviews (db (Review_objects_create row w).2) = row :: reviews (db w) /\
  fails_with (validate_rating (Review.rating row)) ValidationErrorKind /\
  is_ok (run_validators Review_rating_validators (Review.rating row)) = false.
Proof.
  intros H0 Hout Hnew Hl Hu.
  rewrite Review_objects_create_eq,
    (Review_violation_fresh _ _ l H0 Hnew Hl Hu).
  split; [reflexivity |]. split; [reflexivity |].
  rewrite (validate_rating_out_of_range _ Hout). split; [reflexivity |].
  destruct (run_validators Review_rating_validators (Review.rating row))
    as [[] |] eqn:Hv; [| reflexivity].
  apply Review_rating_validators_spec in Hv. contradiction.
Qed.

Lemma objects_create_ignores_rating_range_witness :
  (Review_objects_create (Review.mk 8%N 3 9 "Nine stars!") rated_world).1
  = Ok (Review.mk 8%N 3 9 "Nine stars!").
Proof.
  assert (Hu : 3 ∈ users (db rated_world)) by (vm_compute; reflexivity).
  apply (objects_create_ignores_rating_range
           (Review.mk 8%N 3 9 "Nine stars!") rated_world other_listing
           ltac:(simpl; lia) ltac:(simpl; lia) eq_refl eq_refl Hu).
Defined.

(** ** The constraints of the tables as invariants *)

Lemma Booking_row_ok_same d d' row :
  users d' = users d -> listings d' = listings d ->
  Booking_row_ok d row -> Booking_row_ok d' row.
Proof. unfold Booking_row_ok. intros -> ->. auto. Qed.

Lemma Review_row_ok_same d d' row :
  users d' = users d -> listings d' = listings d ->
  Review_row_ok d row -> Review_row_ok d' row.
Proof. unfold Review_row_ok. intros -> ->. auto. Qed.

Lemma Review_violation_None_ok d row :
  Review_violation d row = None -> Review_row_ok d row.
Proof.
  unfold Review_violation, Review_row_ok.
  destruct (Z.geb_spec (Review.rating row) 0); simpl; [| discriminate].
  destruct (existsb _ _); [discriminate |].
  case_bool_decide as Hl; simpl; [| discriminate].
  case_bool_decide as Hu; simpl; [| discriminate].
  intros _. split; [lia | split; assumption].
Qed.

Lemma Booking_objects_create_keeps row w :
  bookings_ok (db w) /\ reviews_ok (db w) ->
  bookings_ok (db (Booking_objects_create row w).2) /\
  reviews_ok (db (Booking_objects_create row w).2).
Proof.
  intros [Hb Hr]. rewrite Booking_objects_create_eq.
  destruct (format_number _ _ _) as [total_price |] eqn:Hf; [| auto].
  apply format_number_Ok in Hf as [_ Hcol]; [| lia]. cbv zeta.
  destruct (Booking_violation (db w) row) eqn:Hv; [auto |].
  rewrite <- (Booking_violation_price _ _ total_price) in Hv.
  apply (Booking_violation_None _ (Booking_with_total_price row total_price) Hcol)
    in Hv. split.
  - unfold bookings_ok in *. cbn [snd db bookings]. constructor.
    + eapply Booking_row_ok_same; [| | exact Hv]; reflexivity.
    + eapply Forall_impl; [| exact Hb]. intros b Hbok.
      eapply Booking_row_ok_same; [| | exact Hbok]; reflexivity.
  - destruct Hr as [Hrows Huniq]. split; [| exact Huniq].
    eapply Forall_impl; [| exact Hrows]. intros r Hrok.
    eapply Review_row_ok_same; [| | exact Hrok]; reflexivity.
Qed.

Lemma Review_objects_create_keeps row w :
  bookings_ok (db w) /\ reviews_ok (db w) ->
  bookings_ok (db (Review_objects_create row w).2) /\
  reviews_ok (db (Review_objects_create row w).2).
Proof.
  intros [Hb [Hrows Huniq]].
  pose proof (Review_objects_create_unique row w Huniq) as Huniq'.
  rewrite Review_objects_create_eq in *.
  destruct (Review_violation (db w) row) eqn:Hv;
    [split; [| split]; assumption |].
  apply Review_violation_None_ok in Hv. split; [| split; [| exact Huniq']].
  - eapply Forall_impl; [| exact Hb]. intros b Hbok.
    eapply Booking_row_ok_same; [| | exact Hbok]; reflexivity.
  - cbn [snd db reviews]. constructor.
    + eapply Review_row_ok_same; [| | exact Hv]; reflexivity.
    + eapply Forall_impl; [| exact Hrows]. intros r Hrok.
      eapply Review_row_ok_same; [| | exact Hrok]; reflexivity.
Qed.

Lemma BookingSerializer_create_keeps data w :
  bookings_ok (db w) /\ reviews_ok (db w) ->
  bookings_ok (db (BookingSerializer_create data w).2) /\
  reviews_ok (db (BookingSerializer_create data w).2).
Proof.
  intros H.
  destruct (BookingSerializer_create_inv data w)
    as [(_ & ->) | (internal & requested & row & w' & _ & _ & _ & _ & _ & _ & _
                     & _ & Hdb & ->)];
    [exact H |].
  apply Booking_objects_create_keeps. rewrite Hdb. exact H.
Qed.

(** X8.  The three operations that write keep the constraints of the tables:
    if every stored booking has its check-out date after its check-in
    date, at least one guest, an existing listing and user and a price
    that is a value of its column, and every stored review a rating of at
    least 0, an existing listing and user and
    a pair of its own, then the same holds after [Booking.objects.create],
    after a creation through [BookingSerializer] and after
    [Review.objects.create], whether they succeed or raise.  So a stored
    booking with valid dates always lasts at least one day. *)
Theorem writes_keep_table_constraints
    (row : Booking.t) (data : BookingData.t) (review : Review.t) (w : World) :
  bookings_ok (db w) /\ reviews_ok (db w) ->
  (bookings_ok (db (Booking_objects_create row w).2) /\
   reviews_ok (db (Booking_objects_create row w).2)) /\
  (bookings_ok (db (BookingSerializer_create data w).2) /\
   reviews_ok (db (BookingSerializer_create data w).2)) /\
  (bookings_ok (db (Review_objects_create review w).2) /\
   reviews_ok (db (Review_objects_create review w).2)) /\
  (forall b, b ∈ bookings (db w) ->
     datetime.valid (Booking.check_in_date b) ->
     datetime.valid (Booking.check_out_date b) ->
     1 <= Booking_duration_days b).
Proof.
  intros H. split; [apply Booking_objects_create_keeps, H |].
  split; [apply BookingSerializer_create_keeps, H |].
  split; [apply Review_objects_create_keeps, H |].
  intros b Hb Hin Hout. destruct H as [Hbs _].
  unfold bookings_ok in Hbs. rewrite list.Forall_forall in Hbs.
  destruct (Hbs b Hb) as (Hlt & _).
  apply date_lt_iff_toordinal in Hlt; auto using valid_in_calendar.
  rewrite duration_days_toordinal. lia.
Qed.

Lemma writes_keep_table_constraints_witness :
  bookings_ok (db (BookingSerializer_create (booking_request 7 4) rated_world).2)
  /\ reviews_ok (db (Review_objects_create first_review rated_world).2).
Proof.
  assert (Hu : forall u, u = 2 \/ u = 3 \/ u = 4 -> u ∈ users rated_database).
  { intros u [-> | [-> | ->]]; vm_compute; reflexivity. }
  assert (H : bookings_ok (db rated_world) /\ reviews_ok (db rated_world)).
  { split; [constructor |]. split; [| exact rated_database_unique].
    repeat constructor; simpl; try lia; try (eexists; reflexivity);
      apply Hu; auto. }
  destruct (writes_keep_table_constraints
              (booking_row 7 4) (booking_request 7 4) first_review rated_world H)
    as (_ & [Hb _] & [_ Hr] & _).
  split; assumption.
Defined.

(** X9.  A listing stored with a maximum of less than one guest can never be
    booked through the serializer: whatever the request for it, no booking
    is created. *)
Theorem listing_without_capacity_is_never_booked
    (data : BookingData.t) (w : World) (listing_id : UUID) (l : Listing.t) :
  BookingData.listing_id data = Some listing_id ->
  listings (db w) !! listing_id = Some l ->
  Listing.max_guest_count l < 1 ->
  is_ok (BookingSerializer_create data w).1 = false /\
  db (BookingSerializer_create data w).2 = db w.
Proof.
  intros Hid Hl Hmax.
  assert (Hfail : is_ok (BookingSerializer_create data w).1 = false).
  { destruct (BookingSerializer_create data w).1 as [row |] eqn:Hc;
      [| reflexivity].
    destruct (BookingSerializer_create_Ok data w row Hc)
      as ((requested & Hreq & ->) & _ & _ & _ & (l' & Hl' & Hg) & _).
    destruct (to_row_fields data requested Hreq) as (Hid' & _).
    rewrite Hid in Hid'. injection Hid' as Hid'.
    cbn [Booking_validated Booking.listing Booking.number_of_guests] in Hl', Hg.
    rewrite <- Hid' in Hl'.
    rewrite Hl in Hl'. injection Hl' as <-. lia. }
  split; [exact Hfail |].
  destruct (BookingSerializer_create_Raise_db data w) as [H | H];
    [exact H | congruence].
Qed.

Lemma listing_without_capacity_is_never_booked_witness :
  let w := mkWorld (mkDatabase {[2]} {[ 5%N :=
             Listing.mk 5%N "Shed" "No beds" "Nowhere" (Qc_of_Z 10) 0 0 0 2
               true "" ]} [] []) [] in
  is_ok (BookingSerializer_create (booking_request 5 1) w).1 = false.
Proof.
  intros w.
  apply (listing_without_capacity_is_never_booked (booking_request 5 1) w 5%N
           (Listing.mk 5%N "Shed" "No beds" "Nowhere" (Qc_of_Z 10) 0 0 0 2
              true "") eq_refl eq_refl).
  simpl. lia.
Defined.

(** ** Reviews, their count and their average *)

Lemma reviews_of_cons self d row :
  reviews_of self
    (mkDatabase (users d) (listings d) (bookings d) (row :: reviews d))
  = if decide (Review.listing row = Listing.listing_id self)
    then row :: reviews_of self d
    else reviews_of self d.
Proof. unfold reviews_of. cbn [reviews]. rewrite filter_cons. reflexivity. Qed.

Lemma get_review_count_eq self w :
  ListingListSerializer_get_review_count self w =
  (Ok (len (reviews_of self (db w))),
   mkWorld (db w) (queries w ++ [SELECT_reviews (Listing.listing_id self)])).
Proof. reflexivity. Qed.

(** X10.  After a review is created, the number of reviews of its listing
    is one more and its average is the one of the old ratings and the new
    rating together: a double nearest to their arithmetic mean, unless the
    mean is beyond the largest double.  The count and the average of every
    other listing are as before. *)
Theorem review_updates_count_and_average
    (row : Review.t) (self : Listing.t) (w : World) :
  (Review_objects_create row w).1 = Ok row ->
  let w' := (Review_objects_create row w).2 in
  let old := reviews_of self (db w) in
  let ratings := Review.rating row :: (Review.rating <$> old) in
  (ListingListSerializer_get_review_count self w).1 = Ok (len old) /\
  if decide (Review.listing row = Listing.listing_id self)
  then (ListingListSerializer_get_review_count self w').1 = Ok (len old + 1) /\
       ((exists x, (Listing_average_rating self w').1 = Ok (Float x)
                   /\ nearest_double (arithmetic_mean ratings) (this x)) \/
        ((Listing_average_rating self w').1 = Raise Exn.OverflowError
         /\ (float.max_double < Qabs (arithmetic_mean ratings))%Q))
  else (ListingListSerializer_get_review_count self w').1 = Ok (len old) /\
       (Listing_average_rating self w').1 = (Listing_average_rating self w).1.
Proof.
  intros Hcreate w' old ratings.
  assert (Hw' : db w' = mkDatabase (users (db w)) (listings (db w))
                          (bookings (db w)) (row :: reviews (db w))).
  { subst w'. revert Hcreate. rewrite Review_objects_create_eq.
    destruct (Review_violation (db w) row); [discriminate | reflexivity]. }
  rewrite !get_review_count_eq, !Listing_average_rating_eq. cbn [fst].
  split; [reflexivity |].
  rewrite Hw', reviews_of_cons. subst ratings old.
  destruct (decide (Review.listing row = Listing.listing_id self)).
  - split.
    + unfold len. cbn [length]. f_equal. lia.
    + exact (average_of_cons row (reviews_of self (db w))).
  - split; reflexivity.
Qed.

Lemma review_updates_count_and_average_witness :
  (ListingListSerializer_get_review_count other_listing
     (Review_objects_create first_review rated_world).2).1 = Ok 2.
Proof.
  destruct (review_updates_count_and_average first_review other_listing
              rated_world eq_refl) as (_ & H).
  destruct (decide (Review.listing first_review
                    = Listing.listing_id other_listing)) as [_ | Hne].
  - exact (proj1 H).
  - exfalso. apply Hne. reflexivity.
Defined.

Lemma total_bounds lo hi l :
  Forall (fun x => lo <= x <= hi) l ->
  lo * len l <= total l <= hi * len l.
Proof.
  unfold len. induction 1 as [| x l Hx Hl IH]; simpl total; simpl length;
    [lia |].
  rewrite Nat2Z.inj_succ. lia.
Qed.

Section Bounds.
Local Open Scope Q_scope.

(** An integer of at most 53 bits, or [2^53], is a double. *)
Lemma integer_is_double (k : Z) : (Z.abs k <= 2 ^ 53)%Z -> is_double (inject_Z k).
Proof.
  intros Hk. destruct (Z.eq_dec (Z.abs k) (2 ^ 53)%Z) as [Heq | Hne].
  - exists (k / 2)%Z, 1%Z.
    assert (Hk2 : k = (2 * (k / 2))%Z).
    { change (2 ^ 53)%Z with 9007199254740992%Z in Heq.
      Z.div_mod_to_equations. lia. }
    repeat split; try lia.
    rewrite Hk2 at 1. rewrite inject_Z_mult. change (2 ^ 1) with 2.
    change (inject_Z 2) with 2. ring.
  - exists k, 0%Z. repeat split; try lia. change (2 ^ 0) with 1. ring.
Qed.

(** The mean of numbers between two bounds is between them. *)
Lemma arithmetic_mean_bounds lo hi l :
  l <> [] -> Forall (fun x => (lo <= x <= hi)%Z) l ->
  inject_Z lo <= arithmetic_mean l <= inject_Z hi.
Proof.
  intros Hne Hall. destruct (total_bounds lo hi l Hall) as [Hlo Hhi].
  unfold arithmetic_mean, len in *.
  assert (Hn : 0 < inject_Z (Z.of_nat (length l))).
  { change 0 with (inject_Z 0). rewrite <- Zlt_Qlt.
    destruct l; [contradiction | simpl; lia]. }
  split.
  - apply Qle_shift_div_l; [exact Hn |].
    rewrite <- inject_Z_mult, <- Zle_Qle. exact Hlo.
  - apply Qle_shift_div_r; [exact Hn |].
    rewrite <- inject_Z_mult, <- Zle_Qle. exact Hhi.
Qed.

(** A double nearest to a number between two doubles is between them. *)
Lemma nearest_double_between lo hi q x :
  is_double lo -> is_double hi -> lo <= q <= hi ->
  nearest_double q x -> lo <= x <= hi.
Proof.
  intros Hlo Hhi [Hq1 Hq2] [_ Hnear].
  pose proof (Hnear lo Hlo) as H1. pose proof (Hnear hi Hhi) as H2.
  revert H1 H2. qabs; intros; lra.
Qed.

End Bounds.

(** X11.  The average rating of a listing with reviews lies between the
    smallest and the largest of their ratings: if every rating is between
    [lo] and [hi], two integers of at most [2^53] in absolute value, then
    the average is a float between them, and no [OverflowError] is
    raised.  In particular it is between 1 and 5 when every review of the
    listing passes [validate_rating]. *)
Theorem average_rating_within_ratings (self : Listing.t) (w : World) (lo hi : Z) :
  reviews_of self (db w) <> [] ->
  Forall (fun r => lo <= Review.rating r <= hi) (reviews_of self (db w)) ->
  Z.abs lo <= 2 ^ 53 -> Z.abs hi <= 2 ^ 53 ->
  exists x,
    (Listing_average_rating self w).1 = Ok (Float x) /\
    (Qc_of_Z lo <= x)%Qc /\ (x <= Qc_of_Z hi)%Qc.
Proof.
  intros Hne Hall Hlo Hhi.
  rewrite Listing_average_rating_eq. cbn [fst].
  destruct (reviews_of self (db w)) as [| r rs]; [contradiction |].
  assert (Hratings : Forall (fun x => lo <= x <= hi) (Review.rating <$> r :: rs))
    by (apply list.Forall_fmap; exact Hall).
  assert (Hcons : Review.rating <$> r :: rs <> []) by (rewrite fmap_cons; discriminate).
  pose proof (arithmetic_mean_bounds lo hi _ Hcons Hratings) as Hmean.
  pose proof (integer_is_double lo Hlo) as Hdlo.
  pose proof (integer_is_double hi Hhi) as Hdhi.
  destruct (average_of_cons r rs) as [(x & -> & Hnear) | [_ Hbig]].
  - exists x. split; [reflexivity |].
    pose proof (nearest_double_between _ _ _ _ Hdlo Hdhi Hmean Hnear) as [H1 H2].
    split; [exact H1 | exact H2].
  - exfalso. apply is_double_le_max in Hdlo, Hdhi.
    revert Hbig Hdlo Hdhi. destruct Hmean. qabs; intros; lra.
Qed.

Lemma average_rating_within_ratings_witness :
  exists x,
    (Listing_average_rating rated_listing rated_world).1 = Ok (Float x) /\
    (Qc_of_Z 1 <= x)%Qc /\ (x <= Qc_of_Z 5)%Qc.
Proof.
  apply (average_rating_within_ratings rated_listing rated_world 1 5).
  - discriminate.
  - repeat constructor; simpl; lia.
  - simpl. lia.
  - simpl. lia.
Defined.

(** ** The date rule of [BookingCreateSerializer] *)

(** X12.  [BookingCreateSerializer.validate] accepts a pair of valid dates
    exactly when the stay lasts at least one day, and exactly when the
    table's constraint [check_out_after_check_in] lets the row in: what it
    accepts never violates that constraint and what it rejects always
    would.  It is the date rule of [BookingSerializer.validate]. *)
Theorem create_serializer_date_rule
    (row : Booking.t) (d : Database) (data : BookingData.t) (w : World) :
  datetime.valid (Booking.check_in_date row) ->
  datetime.valid (Booking.check_out_date row) ->
  BookingData.check_in_date data = Some (Booking.check_in_date row) ->
  BookingData.check_out_date data = Some (Booking.check_out_date row) ->
  let accepted :=
    BookingCreateSerializer_validate (Booking.check_in_date row)
      (Booking.check_out_date row) = Ok () in
  (accepted <-> 1 <= Booking_duration_days row) /\
  (accepted <-> Booking_violation d row <> Some check_out_after_check_in) /\
  (accepted <->
   (BookingSerializer_validate data w).1
   <> Raise (serializers_ValidationError checkout_message)).
Proof.
  intros Hin Hout Hci Hco accepted. subst accepted.
  rewrite BookingCreateSerializer_validate_spec.
  pose proof (date_lt_iff_toordinal _ _ (valid_in_calendar _ Hin)
                (valid_in_calendar _ Hout)) as Hlt.
  rewrite duration_days_toordinal.
  assert (Hval : (BookingSerializer_validate data w).1
                 = Raise (serializers_ValidationError checkout_message)
                 <-> datetime.lt (Booking.check_in_date row)
                       (Booking.check_out_date row) = false).
  { rewrite validate_checkout_error, Hci, Hco. split.
    - intros (ci & co & [= <-] & [= <-] & H). rewrite date_le_not_lt in H.
      destruct (datetime.lt _ _); [discriminate | reflexivity].
    - intros H. eexists _, _. split; [reflexivity |]. split; [reflexivity |].
      rewrite date_le_not_lt, H. reflexivity. }
  unfold Booking_violation.
  destruct (datetime.lt (Booking.check_in_date row)
              (Booking.check_out_date row)) eqn:E; cbn [negb].
  - split; [| split].
    + split; [intros _ | reflexivity].
      pose proof (proj1 Hlt eq_refl). lia.
    + split; [| reflexivity]. intros _.
      repeat match goal with
             | |- context [if ?c then _ else _] => destruct c
             end; discriminate.
    + split; [| reflexivity]. intros _ H. apply Hval in H. discriminate.
  - split; [| split].
    + split; [discriminate |]. intros H. exfalso.
      assert (false = true) by (apply Hlt; lia). discriminate.
    + split; [discriminate |]. intros H. exfalso. apply H. reflexivity.
    + split; [discriminate |]. intros H. exfalso. apply H, Hval. reflexivity.
Qed.

Lemma create_serializer_date_rule_witness :
  BookingCreateSerializer_validate (Booking.check_in_date june_booking)
    (Booking.check_out_date june_booking) = Ok ().
Proof.
  apply (create_serializer_date_rule june_booking rated_database
           (booking_request 1 2) rated_world
           (proj1 june_booking_valid) (proj2 june_booking_valid)
           eq_refl eq_refl).
  vm_compute. discriminate.
Defined.

(** ** Amenities: from the list to the string and back *)

Lemma append_nil_r (s : string) : s +:+ EmptyString = s.
Proof. induction s as [| c s IH]; [reflexivity |]. rewrite append_cons, IH. reflexivity. Qed.

Lemma strip_id s :
  starts_with_space s = false -> ends_with_space s = false -> strip s = s.
Proof.
  intros Hst Hend. symmetry. apply trimmed_unique.
  exists EmptyString, EmptyString. rewrite append_nil, append_nil_r. auto.
Qed.

Lemma strip_after_space s :
  starts_with_space s = false -> ends_with_space s = false ->
  strip (" " +:+ s) = s.
Proof.
  intros Hst Hend. symmetry. apply trimmed_unique.
  exists " "%string, EmptyString. rewrite append_nil_r. auto.
Qed.

Lemma contains_append c a b :
  contains c (a +:+ b) = contains c a || contains c b.
Proof.
  induction a as [| x a IH]; [reflexivity |].
  rewrite append_cons. simpl. rewrite IH, orb_assoc. reflexivity.
Qed.

Lemma str_split_other sep c s :
  Ascii.eqb c sep = false ->
  str_split sep (String c s)
  = match str_split sep s with
    | [] => [String c EmptyString]
    | piece :: pieces => String c piece :: pieces
    end.
Proof. intros H. simpl. rewrite H. reflexivity. Qed.

(** The pieces of a joined list: the first item, then every other item
    behind a space. *)
Lemma str_split_join items item :
  Forall (fun x => contains "," x = false) (item :: items) ->
  str_split "," (join ", " (item :: items))
  = item :: ((fun x => " " +:+ x) <$> items).
Proof.
  revert item. induction items as [| item' items IH]; intros item Hall.
  - inversion Hall; subst. apply str_split_single. assumption.
  - inversion Hall as [| ? ? Hitem Hrest]; subst.
    change (join ", " (item :: item' :: items))
      with (item +:+ String "," (" " +:+ join ", " (item' :: items))).
    rewrite str_split_piece by assumption. f_equal.
    change (" " +:+ join ", " (item' :: items))
      with (String " " (join ", " (item' :: items))).
    rewrite str_split_other by reflexivity.
    rewrite (IH item' Hrest). reflexivity.
Qed.

Lemma get_amenities_list_join (items : list string) :
  Forall (fun x => contains "," x = false /\
                   starts_with_space x = false /\
                   ends_with_space x = false) items ->
  join ", " items <> EmptyString ->
  ListingSerializer_get_amenities_list (with_amenities (join ", " items)) = items /\
  ListingListSerializer_get_amenities_list (with_amenities (join ", " items))
  = items.
Proof.
  intros Hall Hne.
  assert (H : ListingSerializer_get_amenities_list
                (with_amenities (join ", " items)) = items);
    [| split; exact H].
  unfold ListingSerializer_get_amenities_list, with_amenities.
  cbn [Listing.amenities].
  destruct items as [| item items]; [contradiction |].
  destruct (join ", " (item :: items)) as [| c s] eqn:Hj; [contradiction |].
  cbn [str_bool]. rewrite <- Hj. clear Hj Hne.
  rewrite str_split_join
    by (eapply Forall_impl; [| exact Hall]; intros x (? & _); assumption).
  inversion Hall as [| ? ? (_ & Hst & Hend) Hrest]; subst.
  rewrite fmap_cons, (strip_id _ Hst Hend). f_equal.
  clear Hall Hst Hend. induction Hrest as [| x items (_ & Hst & Hend) _ IH];
    [reflexivity |].
  rewrite !fmap_cons, (strip_after_space _ Hst Hend), IH. reflexivity.
Qed.

(** X13.  The seeder stores amenities as [', '.join(amenities)] and the
    serializers read them back with [get_amenities_list]: the list read is
    the list stored, in order, whenever no item holds a comma or starts or
    ends with whitespace and the stored string is not empty.  This holds of
    each of the seeder's twelve lists. *)
Theorem amenities_join_round_trip (items : list string) :
  Forall (fun x => contains "," x = false /\
                   starts_with_space x = false /\
                   ends_with_space x = false) items ->
  join ", " items <> EmptyString ->
  ListingSerializer_get_amenities_list (with_amenities (join ", " items)) = items /\
  ListingListSerializer_get_amenities_list (with_amenities (join ", " items))
  = items.
Proof. apply get_amenities_list_join. Qed.

Lemma amenities_join_round_trip_witness :
  Forall (fun items =>
            ListingSerializer_get_amenities_list
              (with_amenities (join ", " items)) = items)
         amenities_list.
Proof.
  assert (Hclean : Forall (fun items =>
            Forall (fun x => contains "," x = false /\
                             starts_with_space x = false /\
                             ends_with_space x = false) items /\
            join ", " items <> EmptyString) amenities_list).
  { repeat constructor; discriminate. }
  eapply Forall_impl; [| exact Hclean].
  intros items [Hitems Hne].
  exact (proj1 (amenities_join_round_trip items Hitems Hne)).
Defined.

Lemma contains_lstrip c s : contains c s = false -> contains c (lstrip s) = false.
Proof.
  induction s as [| x s IH]; simpl; [auto |].
  intros H. destruct (isspace x); [| exact H].
  apply orb_false_iff in H as [_ H]. auto.
Qed.

Lemma contains_rstrip c s : contains c s = false -> contains c (rstrip s) = false.
Proof.
  induction s as [| x s IH]; simpl; [auto |].
  intros H. apply orb_false_iff in H as [Hx Hs]. specialize (IH Hs).
  destruct (rstrip s) as [| y rest].
  - destruct (isspace x); simpl; [reflexivity |]. rewrite Hx. reflexivity.
  - simpl in *. rewrite Hx. exact IH.
Qed.

Lemma strip_clean s :
  starts_with_space (strip s) = false /\ ends_with_space (strip s) = false.
Proof. destruct (strip_trimmed s) as (? & ? & _ & _ & _ & ? & ?). auto. Qed.

Lemma length_str_split sep s :
  length (str_split sep s) = S (count_char sep s).
Proof.
  induction s as [| c s IH]; [reflexivity |]. simpl.
  destruct (Ascii.eqb c sep); simpl; [rewrite IH; reflexivity |].
  destruct (str_split sep s); simpl in *; congruence.
Qed.

(** X14.  Whatever the stored string, no item of the amenities list holds a
    comma or starts or ends with whitespace, and a non-empty string with
    [n] commas gives [n + 1] items, some of them possibly empty: the list
    is empty only for the empty string. *)
Theorem amenities_items_are_clean (obj : Listing.t) :
  Forall (fun x => contains "," x = false /\
                   starts_with_space x = false /\
                   ends_with_space x = false)
         (ListingSerializer_get_amenities_list obj) /\
  length (ListingSerializer_get_amenities_list obj)
  = match Listing.amenities obj with
    | EmptyString => 0%nat
    | String _ _ => S (count_char "," (Listing.amenities obj))
    end /\
  (ListingSerializer_get_amenities_list obj = [] <->
   Listing.amenities obj = EmptyString) /\
  ListingSerializer_get_amenities_list (with_amenities " , ") = [""; ""].
Proof.
  unfold ListingSerializer_get_amenities_list.
  destruct (Listing.amenities obj) as [| c s] eqn:Hs; cbn [str_bool].
  - repeat split; constructor.
  - split; [| split; [| split; [| reflexivity]]].
    + apply list.Forall_fmap.
      eapply Forall_impl; [| apply (str_split_no_sep "," (String c s))].
      intros x Hx. cbn beta. split; [| apply strip_clean].
      unfold strip. apply contains_rstrip, contains_lstrip, Hx.
    + rewrite length_fmap. apply length_str_split.
    + split; [| discriminate]. intros H. exfalso.
      apply (f_equal length) in H. rewrite length_fmap, length_str_split in H.
      discriminate.
Qed.

(** ** Dates from ordinals and back *)

Section Ordinals.
Import datetime datetime_add.

Lemma DI_values : _DI400Y = 146097 /\ _DI100Y = 36524 /\ _DI4Y = 1461.
Proof. repeat split; reflexivity. Qed.

(** The four quotients of [_ord2ymd] and the last remainder. *)
Lemma ord_decompose n :
  0 <= n ->
  let n400 := n / 146097 in
  let r400 := n mod 146097 in
  let n100 := r400 / 36524 in
  let r100 := r400 mod 36524 in
  let n4 := r100 / 1461 in
  let r4 := r100 mod 1461 in
  let n1 := r4 / 365 in
  let r1 := r4 mod 365 in
  n = 146097 * n400 + 36524 * n100 + 1461 * n4 + 365 * n1 + r1 /\
  0 <= n400 /\ 0 <= n100 <= 4 /\ 0 <= n4 <= 24 /\ 0 <= n1 <= 4 /\
  0 <= r1 < 365 /\
  (n100 = 4 -> n4 = 0 /\ n1 = 0 /\ r1 = 0) /\
  (n1 = 4 -> r1 = 0 /\ n4 <= 23).
Proof.
  intros Hn. cbv zeta. Z.div_mod_to_equations. lia.
Qed.

Lemma days_before_year_decomposed n400 n100 n4 n1 :
  0 <= n100 <= 3 -> 0 <= n4 <= 24 -> 0 <= n1 <= 3 ->
  _days_before_year (n400 * 400 + 1 + (n100 * 100 + n4 * 4 + n1))
  = 146097 * n400 + 36524 * n100 + 1461 * n4 + 365 * n1.
Proof.
  intros H100 H4 H1. unfold _days_before_year.
  Z.div_mod_to_equations. lia.
Qed.

Lemma is_leap_decomposed n400 n100 n4 n1 :
  0 <= n100 <= 3 -> 0 <= n4 <= 24 -> 0 <= n1 <= 3 ->
  _is_leap (n400 * 400 + 1 + (n100 * 100 + n4 * 4 + n1))
  = (n1 =? 3) && (negb (n4 =? 24) || (n100 =? 3)).
Proof.
  intros H100 H4 H1. unfold _is_leap.
  destruct (Z.eqb_spec n1 3), (Z.eqb_spec n4 24), (Z.eqb_spec n100 3);
    simpl;
    repeat match goal with
           | |- context [?a mod ?b =? 0] => destruct (Z.eqb_spec (a mod b) 0)
           end; simpl; try reflexivity; exfalso;
    Z.div_mod_to_equations; lia.
Qed.

Lemma month_estimate r :
  0 <= r < 365 ->
  let m := Z.shiftr (r + 50) 5 in
  32 * m <= r + 50 < 32 * m + 32 /\ 1 <= m <= 12.
Proof.
  intros Hr. cbv zeta. rewrite Z.shiftr_div_pow2 by lia.
  change (2 ^ 5) with 32. Z.div_mod_to_equations. lia.
Qed.

(** The last year of a cycle, which [_ord2ymd] treats apart. *)
Lemma last_day_of_cycle n400 n100 n4 n1 :
  0 <= n100 <= 4 -> 0 <= n4 <= 24 -> 0 <= n1 <= 4 ->
  (n100 = 4 -> n4 = 0 /\ n1 = 0) -> (n1 = 4 -> n4 <= 23) ->
  n1 = 4 \/ n100 = 4 ->
  let y := n400 * 400 + 1 + (n100 * 100 + n4 * 4 + n1) - 1 in
  _is_leap y = true /\
  _days_before_year y + 366
  = 146097 * n400 + 36524 * n100 + 1461 * n4 + 365 * n1 + 1.
Proof.
  intros H100 H4 H1 Hc Hy Hlast. cbv zeta. unfold _is_leap, _days_before_year.
  split.
  - repeat match goal with
           | |- context [?a mod ?b =? 0] => destruct (Z.eqb_spec (a mod b) 0)
           end; simpl; try reflexivity; exfalso;
      Z.div_mod_to_equations; lia.
  - Z.div_mod_to_equations. lia.
Qed.

(** [_ord2ymd] yields a day of the calendar whose ordinal is the
    argument; this is what its assertions state. *)
Lemma ord2ymd_spec n :
  1 <= n ->
  in_calendar (fromordinal n) /\ toordinal (fromordinal n) = n.
Proof.
  intros Hn. unfold fromordinal, _ord2ymd.
  change _DI400Y with 146097. change _DI100Y with 36524.
  change _DI4Y with 1461. cbv zeta.
  pose proof (ord_decompose (n - 1) ltac:(lia)) as Hd. cbv zeta in Hd.
  set (n400 := (n - 1) / 146097) in *.
  set (r400 := (n - 1) mod 146097) in *.
  set (n100 := r400 / 36524) in *.
  set (r100 := r400 mod 36524) in *.
  set (n4 := r100 / 1461) in *.
  set (r4 := r100 mod 1461) in *.
  set (n1 := r4 / 365) in *.
  set (r1 := r4 mod 365) in *.
  clearbody n400 r400 n100 r100 n4 r4 n1 r1.
  destruct Hd as (Heq & H400 & H100 & H4 & H1 & Hr1 & Hc100 & Hc1).
  destruct ((n1 =? 4) || (n100 =? 4)) eqn:Hlast.
  - apply orb_true_iff in Hlast. rewrite !Z.eqb_eq in Hlast.
    destruct (last_day_of_cycle n400 n100 n4 n1 H100 H4 H1
                ltac:(intros H; destruct (Hc100 H) as (? & ? & _); auto)
                ltac:(intros H; destruct (Hc1 H); auto) Hlast)
      as [Hleap Hdays].
    cbv zeta in Hleap, Hdays.
    unfold in_calendar, toordinal, _ymd2ord, _days_in_month,
      _days_before_month. cbn [year month day].
    rewrite Hleap. simpl.
    assert (r1 = 0) by (destruct Hlast as [H | H];
                        [apply Hc1 in H | apply Hc100 in H]; lia).
    lia.
  - apply orb_false_iff in Hlast. rewrite !Z.eqb_neq in Hlast.
    destruct Hlast as [Hn1 Hn100].
    assert (H100' : 0 <= n100 <= 3) by lia.
    assert (H1' : 0 <= n1 <= 3) by lia.
    pose proof (days_before_year_decomposed n400 n100 n4 n1 H100' H4 H1')
      as Hdby.
    pose proof (is_leap_decomposed n400 n100 n4 n1 H100' H4 H1') as Hleap.
    set (y := n400 * 400 + 1 + (n100 * 100 + n4 * 4 + n1)) in *.
    set (leapyear := (n1 =? 3) && (negb (n4 =? 24) || (n100 =? 3))) in *.
    clearbody y leapyear.
    pose proof (month_estimate r1 Hr1) as [Hest Hm]. cbv zeta in Hest, Hm.
    set (m := Z.shiftr (r1 + 50) 5) in *. clearbody m.
    unfold in_calendar, toordinal, _ymd2ord, _days_in_month,
      _days_before_month.
    apply month_cases in Hm.
    destruct leapyear;
      repeat (destruct Hm as [Hm | Hm]); subst m; simpl;
      match goal with
      | |- context [if ?a >? ?b then _ else _] => destruct (Z.gtb_spec a b)
      end; cbn [year month day]; rewrite ?Hleap; simpl; lia.
Qed.

Lemma toordinal_bounds d :
  valid d -> 1 <= toordinal d <= _MAXORDINAL.
Proof.
  destruct d as [y m dd]. unfold valid, in_calendar, MINYEAR, MAXYEAR.
  cbn [year month day]. intros (Hy & Hm & Hd).
  pose proof (day_of_year_bounds y m dd Hm Hd) as Hdoy.
  pose proof (days_before_year_mono 1 y ltac:(lia)) as Hlow.
  pose proof (days_before_year_mono (y + 1) 10000 ltac:(lia)) as Hhigh.
  rewrite days_before_next_year in Hhigh.
  change (_days_before_year 1) with 0 in Hlow.
  change (_days_before_year 10000) with 3652059 in Hhigh.
  unfold toordinal, _ymd2ord, _MAXORDINAL. cbn [year month day].
  destruct (_is_leap y); lia.
Qed.

Lemma year_of_ordinal d :
  in_calendar d -> 1 <= toordinal d <= _MAXORDINAL -> valid d.
Proof.
  destruct d as [y m dd]. unfold valid, in_calendar, MINYEAR, MAXYEAR.
  cbn [year month day]. intros (Hm & Hd) Hord.
  split; [| auto].
  pose proof (day_of_year_bounds y m dd Hm Hd) as Hdoy.
  unfold toordinal, _ymd2ord, _MAXORDINAL in Hord. cbn [year month day] in Hord.
  assert (Hlow : y < 1 -> _days_before_year (y + 1) <= 0).
  { intros H. pose proof (days_before_year_mono (y + 1) 1 ltac:(lia)) as Hmono.
    change (_days_before_year 1) with 0 in Hmono. lia. }
  assert (Hhigh : 9999 < y -> 3652059 <= _days_before_year y).
  { intros H. pose proof (days_before_year_mono 10000 y ltac:(lia)) as Hmono.
    change (_days_before_year 10000) with 3652059 in Hmono. lia. }
  rewrite days_before_next_year in Hlow.
  destruct (_is_leap y); lia.
Qed.

Lemma fromordinal_valid n :
  1 <= n <= _MAXORDINAL ->
  valid (fromordinal n) /\ toordinal (fromordinal n) = n.
Proof.
  intros Hn. destruct (ord2ymd_spec n ltac:(lia)) as [Hcal Hord].
  split; [| exact Hord]. apply year_of_ordinal; [exact Hcal |].
  rewrite Hord. exact Hn.
Qed.

(** X15.  Dates and ordinals correspond: [fromordinal] turns every ordinal from
    1 to that of 31 December 9999 into a valid date with that ordinal, and
    gives every valid date back from its ordinal. *)
Theorem fromordinal_toordinal_round_trip (n : Z) (d : date) :
  1 <= n <= _MAXORDINAL ->
  valid d ->
  valid (fromordinal n) /\
  toordinal (fromordinal n) = n /\
  1 <= toordinal d <= _MAXORDINAL /\
  fromordinal (toordinal d) = d.
Proof.
  intros Hn Hd. pose proof (toordinal_bounds d Hd) as Hb.
  destruct (fromordinal_valid n Hn) as [Hv Ho].
  split; [exact Hv |]. split; [exact Ho |]. split; [exact Hb |].
  destruct (fromordinal_valid (toordinal d) Hb) as [Hv' Ho'].
  apply toordinal_inj; auto using valid_in_calendar.
Qed.

Lemma fromordinal_toordinal_round_trip_witness :
  fromordinal 739047 = mkdate 2024 6 10 /\
  fromordinal (toordinal (mkdate 2024 2 29)) = mkdate 2024 2 29.
Proof.
  split; [reflexivity |].
  apply (fromordinal_toordinal_round_trip 739047 (mkdate 2024 2 29)).
  - unfold _MAXORDINAL. lia.
  - unfold valid, in_calendar, MINYEAR, MAXYEAR. cbn [year month day].
    change (_days_in_month 2024 2) with 29. lia.
Defined.

Lemma add_Some d k d' :
  valid d -> add d k = Some d' ->
  valid d' /\ toordinal d' = toordinal d + k.
Proof.
  intros Hd. unfold add. cbv zeta.
  destruct (Z.ltb_spec 0 (toordinal d + k)),
           (Z.leb_spec (toordinal d + k) _MAXORDINAL); simpl;
    try discriminate.
  intros [= <-]. apply fromordinal_valid. lia.
Qed.

(** X16.  Adding days to a valid date and subtracting again gives the days:
    [date + timedelta(days=k)] is a valid date [k] days from the first, [k]
    calendar days after it when [k] is not negative, and the sum raises
    [OverflowError] exactly when it leaves the years 1 to 9999. *)
Theorem date_add_then_subtract (d : date) (k : Z) :
  valid d ->
  (add d k = None <-> ~ (1 <= toordinal d + k <= _MAXORDINAL)) /\
  (forall d', add d k = Some d' ->
     valid d' /\
     days (sub d' d) = k /\
     (0 < k <-> lt d d' = true) /\
     (0 <= k -> d' = days_after (Z.to_nat k) d)).
Proof.
  intros Hd. split.
  - unfold add. cbv zeta.
    destruct (Z.ltb_spec 0 (toordinal d + k)),
             (Z.leb_spec (toordinal d + k) _MAXORDINAL); simpl;
      split; try discriminate; try reflexivity; intros; lia.
  - intros d' Hadd. destruct (add_Some d k d' Hd Hadd) as [Hv Ho].
    pose proof (valid_in_calendar _ Hd) as Hc.
    pose proof (valid_in_calendar _ Hv) as Hc'.
    split; [exact Hv |]. split; [unfold sub; cbn [days]; lia |]. split.
    + rewrite (date_lt_iff_toordinal d d' Hc Hc'). lia.
    + intros Hk. apply toordinal_inj; auto using in_calendar_days_after.
      rewrite toordinal_days_after by assumption. lia.
Qed.

Lemma date_add_then_subtract_witness :
  add (mkdate 2024 6 10) 2 = Some (mkdate 2024 6 12) /\
  days (sub (mkdate 2024 6 12) (mkdate 2024 6 10)) = 2.
Proof.
  split; [reflexivity |].
  assert (Hv : valid (mkdate 2024 6 10)).
  { unfold valid, in_calendar, MINYEAR, MAXYEAR. cbn [year month day].
    change (_days_in_month 2024 6) with 30. lia. }
  destruct (date_add_then_subtract (mkdate 2024 6 10) 2 Hv) as [_ H].
  destruct (H (mkdate 2024 6 12) eq_refl) as (_ & Hdays & _).
  exact Hdays.
Defined.
End Ordinals.

(** ** The seeder *)

Lemma Seed_bind_Returns {A B} (m : Seed A) (k : A -> Seed B) s b s' :
  (m ≫= k) s = (Returns b, s') ->
  exists a s1, m s = (Returns a, s1) /\ k a s1 = (Returns b, s').
Proof.
  unfold mbind, Seed_bind. destruct (m s) as [[a | e] s1]; [eauto | discriminate].
Qed.

Lemma Seed_bind_eq {A B} (m : Seed A) (k : A -> Seed B) s a s1 :
  m s = (Returns a, s1) -> (m ≫= k) s = k a s1.
Proof. unfold mbind, Seed_bind. intros ->. reflexivity. Qed.

Lemma Seed_bind_Raises {A B} (m : Seed A) (k : A -> Seed B) s e s1 :
  m s = (Raises e, s1) -> (m ≫= k) s = (Raises e, s1).
Proof. unfold mbind, Seed_bind. intros ->. reflexivity. Qed.

Lemma draws_refl s : draws s s.
Proof. repeat split; auto. Qed.

Lemma draws_trans s1 s2 s3 : draws s1 s2 -> draws s2 s3 -> draws s1 s3.
Proof. unfold draws. intros (-> & -> & ?) (-> & -> & ?). repeat split; lia. Qed.

Lemma randbelow_range n s :
  0 < n ->
  exists i, random._randbelow n s
            = (Returns i, mkSeedState (world s) (rng s) (S (position s)))
            /\ 0 <= i < n.
Proof.
  intros Hn. eexists. split; [reflexivity |]. apply Z.mod_pos_bound, Hn.
Qed.

Lemma nth_elem_of {A} (l : list A) (i : nat) (x : A) :
  (i < length l)%nat -> nth i l x ∈ l.
Proof.
  revert i. induction l as [| y l IH]; intros i Hi; simpl in Hi; [lia |].
  destruct i as [| i]; simpl; [apply list_elem_of_here |].
  apply list_elem_of_further, IH. lia.
Qed.

(** [random.choice] of a sequence that is not empty returns one of its
    elements; of an empty one it raises [IndexError]. *)
Lemma choice_nonempty {A} (seq : list A) s :
  seq <> [] ->
  exists x s', random.choice seq s = (Returns x, s') /\ x ∈ seq /\ draws s s'.
Proof.
  destruct seq as [| first rest]; [contradiction |]. intros _.
  unfold random.choice.
  destruct (randbelow_range (len (first :: rest)) s) as (i & Hi & Hrange).
  { unfold len. simpl. lia. }
  rewrite (Seed_bind_eq _ _ _ _ _ Hi). eexists _, _. split; [reflexivity |].
  split.
  - apply nth_elem_of. unfold len in Hrange. lia.
  - repeat split; simpl; lia.
Qed.

Lemma choice_Returns {A} (seq : list A) s x s' :
  random.choice seq s = (Returns x, s') -> x ∈ seq /\ draws s s'.
Proof.
  destruct seq as [| first rest] eqn:Hseq; [discriminate |].
  rewrite <- Hseq. intros H.
  destruct (choice_nonempty seq s) as (x' & s1 & H' & Hx & Hd);
    [subst; discriminate |].
  rewrite H' in H. injection H as <- <-. auto.
Qed.

Lemma choice_empty {A} s : random.choice (@nil A) s = (Raises IndexError, s).
Proof. reflexivity. Qed.

Lemma randint_Returns a b s x s' :
  random.randint a b s = (Returns x, s') -> a <= x <= b /\ draws s s'.
Proof.
  unfold random.randint. cbv zeta.
  destruct (Z.gtb_spec (b + 1 - a) 0) as [Hw | Hw]; [| discriminate].
  destruct (randbelow_range (b + 1 - a) s Hw) as (i & Hi & Hrange).
  rewrite (Seed_bind_eq _ _ _ _ _ Hi). intros [= <- <-].
  split; [lia |]. repeat split; simpl; lia.
Qed.

Lemma randint_nonempty a b s :
  a <= b ->
  exists x s', random.randint a b s = (Returns x, s') /\ a <= x <= b /\ draws s s'.
Proof.
  intros Hab. unfold random.randint. cbv zeta.
  destruct (Z.gtb_spec (b + 1 - a) 0) as [Hw | Hw]; [| lia].
  destruct (randbelow_range (b + 1 - a) s Hw) as (i & Hi & Hrange).
  rewrite (Seed_bind_eq _ _ _ _ _ Hi). eexists _, _. split; [reflexivity |].
  split; [lia |]. repeat split; simpl; lia.
Qed.

Lemma date_plus_Returns d k s d' s' :
  date_plus d k s = (Returns d', s') ->
  datetime_add.add d k = Some d' /\ s' = s.
Proof.
  unfold date_plus. destruct (datetime_add.add d k); [| discriminate].
  intros [= <- <-]. auto.
Qed.

Lemma in_db_Returns {A} (m : DB A) s a s' :
  in_db m s = (Returns a, s') ->
  m (world s) = (Ok a, world s') /\ rng s' = rng s /\ position s' = position s.
Proof.
  unfold in_db. destruct (m (world s)) as [[a' | e] w']; [| discriminate].
  intros [= <- <-]. auto.
Qed.

Lemma elem_of_guests_of users listing u :
  u ∈ guests_of users listing <-> u ∈ users /\ u <> Listing.host listing.
Proof. unfold guests_of. rewrite list_elem_of_filter. tauto. Qed.

(** One turn of the loop of [create_bookings] that returns has inserted a
    row that meets [seeded_booking]. *)
Lemma create_booking_Returns users listings today s row s' :
  datetime.valid today ->
  create_booking users listings today s = (Returns row, s') ->
  seeded_booking users listings today row /\
  Booking_objects_create row (world s) = (Ok row, world s').
Proof.
  intros Htoday H. unfold create_booking in H.
  apply Seed_bind_Returns in H as (listing & s1 & Hlisting & H).
  apply Seed_bind_Returns in H as (user & s2 & Huser & H).
  apply Seed_bind_Returns in H as (offset & s3 & Hoffset & H).
  apply Seed_bind_Returns in H as (start_date & s4 & Hstart & H).
  apply Seed_bind_Returns in H as (duration & s5 & Hduration & H).
  apply Seed_bind_Returns in H as (end_date & s6 & Hend & H).
  apply Seed_bind_Returns in H as (guests & s7 & Hguests & H).
  cbv zeta in H.
  apply Seed_bind_Returns in H as (status & s8 & Hstatus & H).
  apply Seed_bind_Returns in H as (requests & s9 & Hrequests & H).
  apply choice_Returns in Hlisting as [Hlisting D1].
  apply choice_Returns in Huser as [Huser D2].
  apply randint_Returns in Hoffset as [Hoffset D3].
  apply date_plus_Returns in Hstart as [Hstart ->].
  apply randint_Returns in Hduration as [Hduration D5].
  apply date_plus_Returns in Hend as [Hend ->].
  apply randint_Returns in Hguests as [Hguests D7].
  apply choice_Returns in Hstatus as [_ D8].
  apply choice_Returns in Hrequests as [_ D9].
  apply in_db_Returns in H as (Hcreate & _).
  assert (Hw : world s9 = world s).
  { pose proof (draws_trans _ _ _ D1 (draws_trans _ _ _ D2
        (draws_trans _ _ _ D3 (draws_trans _ _ _ D5
        (draws_trans _ _ _ D7 (draws_trans _ _ _ D8 D9)))))) as [Hw _].
    exact Hw. }
  rewrite Hw in Hcreate.
  assert (Hrow : (Booking_objects_create
                    (Booking.mk (Listing.listing_id listing) user start_date
                       end_date guests
                       (Listing.price_per_night listing * Qc_of_Z duration)%Qc
                       status requests) (world s)).1 = Ok row)
    by (rewrite Hcreate; reflexivity).
  apply Booking_objects_create_Ok in Hrow as (-> & _ & _).
  split; [| exact Hcreate].
  apply elem_of_guests_of in Huser as [Huser Hhost].
  destruct (add_Some today offset start_date Htoday Hstart) as [Hvs Hos].
  destruct (add_Some start_date duration end_date Hvs Hend) as [Hve Hoe].
  exists listing. unfold Booking_duration_days, datetime.sub.
  cbn [Booking.listing Booking.user Booking.check_in_date
       Booking.check_out_date Booking.number_of_guests Booking.total_price
       datetime.days].
  replace (datetime.toordinal end_date - datetime.toordinal start_date)
    with duration by lia.
  split; [exact Hlisting |]. split; [reflexivity |]. split; [exact Huser |].
  split; [exact Hhost |]. split; [exact Hvs |]. split; [exact Hve |].
  split; [lia |]. split; [lia |]. split; [lia |]. split; [lia | reflexivity].
Qed.

Lemma create_bookings_loop_Returns user_list listing_list today count acc s out s' :
  datetime.valid today ->
  create_bookings_loop user_list listing_list today count acc s = (Returns out, s') ->
  exists new,
    out = acc ++ new /\
    length new = count /\
    bookings (db (world s'))
    = rev (Booking_stored <$> new) ++ bookings (db (world s)) /\
    users (db (world s')) = users (db (world s)) /\
    listings (db (world s')) = listings (db (world s)) /\
    reviews (db (world s')) = reviews (db (world s)) /\
    Forall (seeded_booking user_list listing_list today) new.
Proof.
  intros Htoday. revert acc s.
  induction count as [| count IH]; intros acc s H; simpl in H.
  - injection H as <- <-. exists []. rewrite app_nil_r. repeat split; auto.
  - apply Seed_bind_Returns in H as (row & s1 & Hrow & H).
    apply (create_booking_Returns _ _ _ _ _ _ Htoday) in Hrow as [Hseeded Hc].
    assert (Hc1 : (Booking_objects_create row (world s)).1 = Ok row)
      by (rewrite Hc; reflexivity).
    apply Booking_objects_create_Ok in Hc1 as (_ & _ & Hdb).
    rewrite Hc in Hdb. cbn [snd] in Hdb.
    apply IH in H as (new & -> & Hlen & Hb & Hu & Hl & Hr & Hall).
    exists (row :: new). rewrite <- app_assoc. split; [reflexivity |].
    split; [simpl; lia |].
    rewrite Hb, Hu, Hl, Hr, Hdb. rewrite fmap_cons.
    cbn [bookings users listings reviews rev].
    rewrite <- app_assoc. repeat split; auto.
Qed.

Section SeededPrices.
Local Open Scope Q_scope.

(** The product of a value of a column of two decimal places and an
    integer has at most two decimal places: it is stored as it is. *)
Lemma quantize_price_times price max_digits (nights : Z) :
  Decimal_column max_digits 2 price ->
  quantize 2 (price * Qc_of_Z nights)%Qc = (price * Qc_of_Z nights)%Qc.
Proof.
  intros (n & _ & ->).
  apply (quantize_column (Z.abs (n * nights) + 1) 2).
  exists (n * nights)%Z. split.
  - pose proof (Z.pow_gt_lin_r 10 (Z.abs (n * nights) + 1)). lia.
  - apply Qc_is_canon. rewrite this_Q2Qc.
    change (this (Q2Qc (inject_Z n / 10 ^ 2) * Qc_of_Z nights)%Qc)
      with (Qred (this (Q2Qc (inject_Z n / 10 ^ 2)) * inject_Z nights)).
    rewrite Qred_correct, this_Q2Qc, inject_Z_mult.
    field; pose proof (pow10_pos 2); lra.
Qed.

End SeededPrices.

Lemma Booking_stored_seeded user_list listing_list today row :
  Forall (fun l => Decimal_column 10 2 (Listing.price_per_night l)) listing_list ->
  seeded_booking user_list listing_list today row ->
  Booking_stored row = row.
Proof.
  intros Hprices (listing & Hin & _ & _ & _ & _ & _ & _ & _ & _ & _ & Hprice).
  rewrite list.Forall_forall in Hprices. specialize (Hprices _ Hin).
  unfold Booking_stored. rewrite Hprice.
  rewrite (quantize_price_times _ _ _ Hprices), <- Hprice.
  apply Booking_with_total_price_id.
Qed.

(** X17.  Every booking the seeder creates is one the rules of the data model
    accept: its dates are valid, its check-in date is from 30 days before
    to 60 days after today, its stay lasts from 1 to 14 days, its guest is
    a user other than the host, its number of guests is from 1 to 6 and at
    most the listing's maximum, and its total price is the listing's price
    per night times the number of nights.  A run that returns has created
    exactly [count] bookings, all inserted, the newest first, and has
    changed no other table.  The table holds each of them with its price
    in the two decimal places of the column, which is the booking itself
    when the prices of the listings are values of their column. *)
Theorem seeded_bookings_are_valid
    (user_list : list Z) (listing_list : list Listing.t) (today : date)
    (count : Z)
    (s s' : SeedState) (created : list Booking.t) :
  datetime.valid today ->
  create_bookings user_list listing_list today count s = (Returns created, s') ->
  length created = Z.to_nat count /\
  bookings (db (world s'))
  = rev (Booking_stored <$> created) ++ bookings (db (world s)) /\
  (Forall (fun l => Decimal_column 10 2 (Listing.price_per_night l)) listing_list ->
   bookings (db (world s')) = rev created ++ bookings (db (world s))) /\
  users (db (world s')) = users (db (world s)) /\
  listings (db (world s')) = listings (db (world s)) /\
  reviews (db (world s')) = reviews (db (world s)) /\
  Forall (seeded_booking user_list listing_list today) created.
Proof.
  intros Htoday H. unfold create_bookings in H.
  apply (create_bookings_loop_Returns _ _ _ _ _ _ _ _ Htoday) in H
    as (new & -> & Hlen & Hb & Hu & Hl & Hr & Hall).
  cbn [app]. repeat split; try assumption.
  intros Hprices. rewrite Hb. f_equal. f_equal.
  clear Hb Hlen. induction Hall as [| row new Hrow _ IH]; [reflexivity |].
  rewrite fmap_cons, IH.
  rewrite (Booking_stored_seeded _ _ _ _ Hprices Hrow). reflexivity.
Qed.

Lemma example_today_valid : datetime.valid example_today.
Proof.
  unfold datetime.valid, datetime.in_calendar, datetime.MINYEAR,
    datetime.MAXYEAR, example_today. cbn [datetime.year datetime.month datetime.day].
  change (datetime._days_in_month 2024 6) with 30. lia.
Qed.

Lemma seeded_bookings_are_valid_witness :
  exists created s',
    create_bookings [1; 2; 3] [rated_listing; other_listing] example_today 3
      example_state = (Returns created, s') /\
    length created = 3%nat /\
    Forall (seeded_booking [1; 2; 3] [rated_listing; other_listing]
              example_today) created.
Proof.
  destruct (create_bookings [1; 2; 3] [rated_listing; other_listing]
              example_today 3 example_state) as [[created | e] s'] eqn:H.
  - exists created, s'. split; [reflexivity |].
    destruct (seeded_bookings_are_valid _ _ _ _ _ _ _ example_today_valid H)
      as (Hlen & _ & _ & _ & _ & _ & Hall).
    split; [exact Hlen | exact Hall].
  - exfalso. vm_compute in H. discriminate H.
Defined.

(** X18.  The bookings the seeder creates pass the model's [clean], when the
    listings it was given are those of the database: the seeder draws the
    number of guests below the listing's maximum instead of validating
    it. *)
Theorem seeded_bookings_pass_clean
    (user_list : list Z) (listing_list : list Listing.t) (today : date)
    (count : Z) (s s' : SeedState) (created : list Booking.t) :
  datetime.valid today ->
  (forall l, l ∈ listing_list ->
     listings (db (world s)) !! Listing.listing_id l = Some l) ->
  create_bookings user_list listing_list today count s = (Returns created, s') ->
  Forall (fun row => (Booking_clean row (world s')).1 = Ok ()) created.
Proof.
  intros Htoday Hmirror H. unfold create_bookings in H.
  apply (create_bookings_loop_Returns _ _ _ _ _ _ _ _ Htoday) in H
    as (new & -> & _ & _ & _ & Hl & _ & Hall).
  rewrite app_nil_l. eapply Forall_impl; [| exact Hall].
  intros row (l & Hin & Hid & _ & _ & Hvi & Hvo & _ & Hdur & _ & Hg & _).
  rewrite Booking_clean_eq, Hl, Hid, (Hmirror l Hin), date_le_not_lt.
  assert (Hlt : datetime.lt (Booking.check_in_date row)
                  (Booking.check_out_date row) = true).
  { apply date_lt_iff_toordinal; auto using valid_in_calendar.
    rewrite duration_days_toordinal in Hdur. lia. }
  rewrite Hlt. cbn [negb fst].
  destruct (Z.gtb_spec (Booking.number_of_guests row)
              (Listing.max_guest_count l)); [lia | reflexivity].
Qed.

Lemma seeded_bookings_pass_clean_witness :
  exists created s',
    create_bookings [1; 2; 3] [rated_listing; other_listing] example_today 3
      example_state = (Returns created, s') /\
    Forall (fun row => (Booking_clean row (world s')).1 = Ok ()) created.
Proof.
  destruct (create_bookings [1; 2; 3] [rated_listing; other_listing]
              example_today 3 example_state) as [[created | e] s'] eqn:H.
  - exists created, s'. split; [reflexivity |].
    apply (seeded_bookings_pass_clean
             [1; 2; 3] [rated_listing; other_listing] example_today 3
             example_state s' created example_today_valid); [| exact H].
    intros l Hl. apply list_elem_of_In in Hl.
    destruct Hl as [<- | [<- | []]]; reflexivity.
  - exfalso. vm_compute in H. discriminate H.
Defined.

(** X19.  The seeder needs a listing to choose and a guest who is not its host:
    with at least one booking to create, [create_bookings] raises
    [IndexError] when the list of listings is empty and when no user other
    than the host remains for any listing, before it touches the
    database. *)
Theorem seeder_without_guests_raises_IndexError
    (user_list : list Z) (listing_list : list Listing.t) (today : date)
    (count : Z) (s : SeedState) :
  0 < count ->
  (forall l, l ∈ listing_list -> guests_of user_list l = []) ->
  (create_bookings user_list listing_list today count s).1 = Raises IndexError /\
  world (create_bookings user_list listing_list today count s).2 = world s.
Proof.
  intros Hcount Hnone. unfold create_bookings.
  destruct (Z.to_nat count) as [| n] eqn:Hn; [lia |].
  cbn [create_bookings_loop]. unfold create_booking.
  destruct listing_list as [| l0 ls].
  - rewrite (Seed_bind_Raises _ _ s IndexError s);
      [split; reflexivity |].
    apply Seed_bind_Raises. reflexivity.
  - destruct (choice_nonempty (l0 :: ls) s ltac:(discriminate))
      as (l & s1 & Hl & Hin & (Hw & _)).
    rewrite (Seed_bind_Raises _ _ s IndexError s1); [auto |].
    rewrite (Seed_bind_eq _ _ _ _ _ Hl).
    apply Seed_bind_Raises. rewrite (Hnone l Hin). reflexivity.
Qed.

Lemma seeder_without_guests_raises_IndexError_witness :
  (create_bookings [1] [rated_listing] example_today 30 example_state).1
  = Raises IndexError.
Proof.
  apply (seeder_without_guests_raises_IndexError [1] [rated_listing]
           example_today 30 example_state).
  - lia.
  - intros l Hl. apply list_elem_of_In in Hl.
    destruct Hl as [<- | []]. reflexivity.
Defined.

(** *** Seeding reviews *)

Lemma choice_cases {A} (seq : list A) s :
  (seq = [] /\ random.choice seq s = (Raises IndexError, s)) \/
  (exists x s', random.choice seq s = (Returns x, s') /\ x ∈ seq /\ draws s s').
Proof.
  destruct seq as [| first rest] eqn:Hseq; [left; auto |].
  right. rewrite <- Hseq. apply choice_nonempty. subst. discriminate.
Qed.

(** The search for a new pair draws and nothing else; what it finds is a
    listing, a user other than its host and a pair that is not in the
    set. *)
Lemma find_pair_spec user_list listing_list pairs attempts s :
  exists out s',
    find_pair user_list listing_list pairs attempts s = (out, s') /\
    draws s s' /\
    (out = Raises IndexError /\
     (listing_list = [] \/
      exists l, l ∈ listing_list /\ guests_of user_list l = []) \/
     out = Returns None \/
     exists listing user,
       out = Returns (Some (listing, user)) /\
       listing ∈ listing_list /\
       user ∈ guests_of user_list listing /\
       (user, Listing.listing_id listing) ∉ pairs).
Proof.
  revert s. induction attempts as [| attempts IH]; intros s.
  - exists (Returns None), s. split; [reflexivity |].
    split; [apply draws_refl | auto].
  - cbn [find_pair].
    destruct (choice_cases listing_list s)
      as [[Hnil Hl] | (l & s1 & Hl & Hin & D1)].
    { exists (Raises IndexError), s. rewrite (Seed_bind_Raises _ _ _ _ _ Hl).
      split; [reflexivity |]. split; [apply draws_refl | auto]. }
    rewrite (Seed_bind_eq _ _ _ _ _ Hl).
    destruct (choice_cases (guests_of user_list l) s1)
      as [[Hnil Hu] | (u & s2 & Hu & Hguest & D2)].
    { exists (Raises IndexError), s1. rewrite (Seed_bind_Raises _ _ _ _ _ Hu).
      split; [reflexivity |]. split; [exact D1 |]. left. split; [reflexivity |].
      right. exists l. auto. }
    rewrite (Seed_bind_eq _ _ _ _ _ Hu). cbv zeta.
    destruct (decide ((u, Listing.listing_id l) ∉ pairs)) as [Hnew | Hold].
    + exists (Returns (Some (l, u))), s2. split; [reflexivity |].
      split; [exact (draws_trans _ _ _ D1 D2) |].
      right. right. exists l, u. auto.
    + destruct (IH s2) as (out & s' & Hfind & D3 & Hout).
      exists out, s'. split; [exact Hfind |].
      split; [exact (draws_trans _ _ _ D1 (draws_trans _ _ _ D2 D3)) |].
      exact Hout.
Qed.

Lemma Review_objects_create_Ok row w :
  Review_violation (db w) row = None ->
  Review_objects_create row w =
  (Ok row,
   mkWorld (mkDatabase (users (db w)) (listings (db w)) (bookings (db w))
              (row :: reviews (db w)))
           (queries w ++ [INSERT_review row])).
Proof. intros H. rewrite Review_objects_create_eq, H. reflexivity. Qed.

Lemma pair_not_in_table (pairs : gset (Z * UUID)) d row :
  (forall r, r ∈ reviews d -> pair_of r ∈ pairs) ->
  pair_of row ∉ pairs ->
  existsb (Review_same_pair row) (reviews d) = false.
Proof.
  intros Hinv Hnew. destruct (existsb _ _) eqn:He; [| reflexivity].
  exfalso. apply existsb_exists in He as (r & Hr & Hsame).
  apply Review_same_pair_iff in Hsame. injection Hsame as Hl Hu.
  apply Hnew. apply list_elem_of_In in Hr. specialize (Hinv r Hr).
  unfold pair_of in *. rewrite Hl, Hu. exact Hinv.
Qed.

(** The invariant of the loop of [create_reviews]: the pairs of all
    reviews in the table are in [user_listing_pairs]. *)
Lemma create_reviews_loop_spec user_list listing_list count :
  forall (pairs : gset (Z * UUID)) acc s,
    (forall r, r ∈ reviews (db (world s)) -> pair_of r ∈ pairs) ->
    seeded_from user_list listing_list (db (world s)) ->
    unique_reviews (db (world s)) ->
    exists out s' new,
      create_reviews_loop user_list listing_list count pairs acc s = (out, s') /\
      (out = Raises IndexError /\
       (listing_list = [] \/
        exists l, l ∈ listing_list /\ guests_of user_list l = []) \/
       out = Returns (acc ++ new)) /\
      reviews (db (world s')) = rev new ++ reviews (db (world s)) /\
      users (db (world s')) = users (db (world s)) /\
      listings (db (world s')) = listings (db (world s)) /\
      bookings (db (world s')) = bookings (db (world s)) /\
      (length new <= count)%nat /\
      Forall (seeded_review user_list listing_list) new /\
      unique_reviews (db (world s')).
Proof.
  induction count as [| count IH]; intros pairs acc s Hinv Hfrom Huniq.
  - exists (Returns acc), s, []. rewrite app_nil_r.
    repeat split; auto; try (simpl; lia); constructor.
  - cbn [create_reviews_loop].
    destruct (find_pair_spec user_list listing_list pairs 50 s)
      as (found & s1 & Hfind & (Hw1 & Hr1 & _) & Hfound).
    destruct Hfound as [[-> Hcause] | [-> | (l & u & -> & Hl & Hu & Hnew)]].
    + exists (Raises IndexError), s1, [].
      rewrite (Seed_bind_Raises _ _ _ _ _ Hfind), Hw1.
      repeat split; auto; try (simpl; lia); constructor.
    + rewrite (Seed_bind_eq _ _ _ _ _ Hfind).
      destruct (IH pairs acc s1) as (out & s' & new & Hloop & H);
        try (rewrite Hw1; assumption).
      exists out, s', new. rewrite Hw1 in H. split; [exact Hloop |].
      destruct H as (? & ? & ? & ? & ? & ? & ? & ?).
      repeat split; auto; lia.
    + rewrite (Seed_bind_eq _ _ _ _ _ Hfind). cbv zeta.
      destruct (randint_nonempty 3 5 s1 ltac:(lia))
        as (rating & s2 & Hrating & Hrange & (Hw2 & _)).
      rewrite (Seed_bind_eq _ _ _ _ _ Hrating).
      destruct (choice_nonempty review_comments s2 ltac:(discriminate))
        as (comment & s3 & Hcomment & Hcin & (Hw3 & _)).
      rewrite (Seed_bind_eq _ _ _ _ _ Hcomment).
      set (row := Review.mk (Listing.listing_id l) u rating comment).
      assert (Hw : world s3 = world s) by congruence.
      apply elem_of_guests_of in Hu as [Hu Hhost].
      destruct Hfrom as [Hlistings Husers].
      destruct (Hlistings l Hl) as [l' Hl'].
      assert (Hv : Review_violation (db (world s3)) row = None).
      { rewrite Hw. apply (Review_violation_fresh _ _ l').
        - simpl. lia.
        - apply (pair_not_in_table pairs); assumption.
        - exact Hl'.
        - apply Husers, Hu. }
      pose proof (Review_objects_create_Ok row (world s3) Hv) as Hcreate.
      pose proof (Review_objects_create_unique row (world s3)) as Hu3.
      rewrite Hcreate, Hw in Hu3. cbn [snd db] in Hu3. specialize (Hu3 Huniq).
      set (s4 := mkSeedState (Review_objects_create row (world s3)).2
                   (rng s3) (position s3)).
      assert (Hin_db : in_db (Review_objects_create row) s3 = (Returns row, s4)).
      { unfold in_db, s4. rewrite Hcreate. reflexivity. }
      rewrite (Seed_bind_eq _ _ _ _ _ Hin_db).
      assert (Hdb4 : db (world s4)
                     = mkDatabase (users (db (world s))) (listings (db (world s)))
                         (bookings (db (world s)))
                         (row :: reviews (db (world s)))).
      { unfold s4. cbn [world]. rewrite Hcreate, Hw. reflexivity. }
      destruct (IH ({[(u, Listing.listing_id l)]} ∪ pairs) (acc ++ [row]) s4)
        as (out & s' & new & Hloop & Hout & Hrev & Hus & Hls & Hbs & Hlen
            & Hall & Huniq').
      { rewrite Hdb4. cbn [reviews]. intros r [-> | Hr]%elem_of_cons.
        - apply elem_of_union_l, elem_of_singleton. reflexivity.
        - apply elem_of_union_r, Hinv, Hr. }
      { rewrite Hdb4. split; [exact Hlistings | exact Husers]. }
      { rewrite Hdb4. exact Hu3. }
      exists out, s', (row :: new). split; [exact Hloop |].
      rewrite Hdb4 in Hrev, Hus, Hls, Hbs.
      cbn [reviews users listings bookings] in Hrev, Hus, Hls, Hbs.
      split; [rewrite <- app_assoc in Hout; exact Hout |].
      split; [rewrite Hrev; cbn [rev]; rewrite <- app_assoc; reflexivity |].
      repeat split; auto; [simpl; lia |].
      constructor; [| exact Hall].
      exists l. subst row. cbn [Review.listing Review.user Review.rating
                                 Review.comment].
      repeat split; auto; lia.
Qed.

(** X20.  On a database without reviews that holds the listings and the users
    given, [create_reviews] never violates a constraint of the database: it
    returns, or it raises [IndexError], and this only for want of a listing
    or of a user other than the host of a listing.  Either way the table then holds at most [count]
    reviews, one at most for each pair of a user and a listing, each by a
    user other than the host, with a rating from 3 to 5, which
    [validate_rating] accepts, and a comment of the list; no other table
    is changed. *)
Theorem seeded_reviews_never_conflict
    (user_list : list Z) (listing_list : list Listing.t) (count : Z)
    (s : SeedState) :
  reviews (db (world s)) = [] ->
  seeded_from user_list listing_list (db (world s)) ->
  let run := create_reviews user_list listing_list count s in
  let d' := db (world run.2) in
  (run.1 = Raises IndexError /\
   (listing_list = [] \/
    exists l, l ∈ listing_list /\ guests_of user_list l = []) \/
   exists created, run.1 = Returns created /\ reviews d' = rev created) /\
  (length (reviews d') <= Z.to_nat count)%nat /\
  Forall (seeded_review user_list listing_list) (reviews d') /\
  Forall (fun r => validate_rating (Review.rating r) = Ok (Review.rating r))
    (reviews d') /\
  unique_reviews d' /\
  users d' = users (db (world s)) /\
  listings d' = listings (db (world s)) /\
  bookings d' = bookings (db (world s)).
Proof.
  intros Hempty Hfrom run d'. subst run d'. unfold create_reviews.
  destruct (create_reviews_loop_spec user_list listing_list (Z.to_nat count)
              ∅ [] s)
    as (out & s' & new & Hloop & Hout & Hrev & Hus & Hls & Hbs & Hlen & Hall
        & Huniq).
  - rewrite Hempty. intros r Hr. inversion Hr.
  - exact Hfrom.
  - unfold unique_reviews. rewrite Hempty. constructor.
  - rewrite Hloop. cbn [fst snd]. rewrite Hempty, app_nil_r in Hrev.
    rewrite Hrev.
    assert (Hall' : Forall (seeded_review user_list listing_list) (rev new)).
    { apply list.Forall_forall. intros r Hr.
      rewrite list.Forall_forall in Hall. apply Hall.
      apply list_elem_of_In. apply in_rev. apply list_elem_of_In. exact Hr. }
    split; [destruct Hout as [[-> Hcause] | ->];
            [left; auto | right; exists new; auto] |].
    split; [rewrite length_rev; exact Hlen |]. split; [exact Hall' |].
    split.
    + eapply Forall_impl; [| exact Hall'].
      intros r (_ & _ & _ & _ & _ & Hrating & _).
      apply validate_rating_in_range. lia.
    + auto.
Qed.

Lemma seeded_reviews_never_conflict_witness :
  let s := mkSeedState
             (mkWorld (mkDatabase {[1; 2; 3]}
                         {[ 7%N := rated_listing; 8%N := other_listing ]}
                         [] []) [])
             (fun n => N.of_nat (7 * n)) 0 in
  unique_reviews
    (db (world (create_reviews [1; 2; 3] [rated_listing; other_listing] 5 s).2)).
Proof.
  intros s.
  assert (Hfrom : seeded_from [1; 2; 3] [rated_listing; other_listing]
                    (db (world s))).
  { split.
    - intros l Hl. apply list_elem_of_In in Hl.
      destruct Hl as [<- | [<- | []]]; eexists; reflexivity.
    - intros u Hu. apply list_elem_of_In in Hu.
      destruct Hu as [<- | [<- | [<- | []]]]; vm_compute; reflexivity. }
  destruct (seeded_reviews_never_conflict
              [1; 2; 3] [rated_listing; other_listing] 5 s eq_refl Hfrom)
    as (_ & _ & _ & _ & Huniq & _).
  exact Huniq.
Defined.

(** X21.  The seeder checks new pairs only against those of its own run.  Run
    on a database in which every user other than the host has already
    reviewed every listing given, with at least one review to create,
    [create_reviews] ends with the [IntegrityError] of the uniqueness
    constraint, and the tables are as before. *)
Theorem seeding_reviews_twice_conflicts
    (user_list : list Z) (listing_list : list Listing.t) (count : Z)
    (s : SeedState) :
  0 < count ->
  listing_list <> [] ->
  (forall l, l ∈ listing_list -> guests_of user_list l <> []) ->
  (forall l u, l ∈ listing_list -> u ∈ guests_of user_list l ->
     exists r, r ∈ reviews (db (world s)) /\
               Review.listing r = Listing.listing_id l /\ Review.user r = u) ->
  let run := create_reviews user_list listing_list count s in
  run.1 = Raises (DatabaseError (IntegrityError review_unique_together)) /\
  db (world run.2) = db (world s).
Proof.
  intros Hcount Hne Hguests Hreviewed run. subst run. unfold create_reviews.
  destruct (Z.to_nat count) as [| n] eqn:Hn; [lia |].
  cbn [create_reviews_loop].
  assert (Hfind : exists l u s1,
            find_pair user_list listing_list ∅ 50 s = (Returns (Some (l, u)), s1)
            /\ l ∈ listing_list /\ u ∈ guests_of user_list l
            /\ world s1 = world s).
  { cbn [find_pair].
    destruct (choice_nonempty listing_list s Hne) as (l & s1 & Hl & Hin & D1).
    destruct (choice_nonempty (guests_of user_list l) s1 (Hguests l Hin))
      as (u & s2 & Hu & Hguest & D2).
    exists l, u, s2.
    rewrite (Seed_bind_eq _ _ _ _ _ Hl), (Seed_bind_eq _ _ _ _ _ Hu).
    cbv zeta. rewrite decide_True by apply not_elem_of_empty.
    destruct (draws_trans _ _ _ D1 D2) as [Hw _]. auto. }
  destruct Hfind as (l & u & s1 & Hfind & Hl & Hu & Hw1).
  rewrite (Seed_bind_eq _ _ _ _ _ Hfind). cbv zeta.
  destruct (randint_nonempty 3 5 s1 ltac:(lia))
    as (rating & s2 & Hrating & Hrange & (Hw2 & _)).
  rewrite (Seed_bind_eq _ _ _ _ _ Hrating).
  destruct (choice_nonempty review_comments s2 ltac:(discriminate))
    as (comment & s3 & Hcomment & _ & (Hw3 & _)).
  rewrite (Seed_bind_eq _ _ _ _ _ Hcomment).
  set (row := Review.mk (Listing.listing_id l) u rating comment).
  assert (Hw : world s3 = world s) by congruence.
  assert (Hv : Review_violation (db (world s3)) row
               = Some review_unique_together).
  { rewrite Hw. apply Review_violation_duplicate; [simpl; lia |].
    destruct (Hreviewed l u Hl Hu) as (r & Hr & Hrl & Hru).
    apply existsb_exists. exists r. split; [apply list_elem_of_In, Hr |].
    apply Review_same_pair_iff. subst row. simpl. congruence. }
  assert (Hin_db :
            in_db (Review_objects_create row) s3
            = (Raises (DatabaseError (IntegrityError review_unique_together)),
               mkSeedState
                 (mkWorld (db (world s3))
                    (queries (world s3) ++ [INSERT_review row]))
                 (rng s3) (position s3))).
  { unfold in_db. rewrite Review_objects_create_eq, Hv. reflexivity. }
  rewrite (Seed_bind_Raises _ _ _ _ _ Hin_db). cbn [fst snd world db].
  rewrite Hw. auto.
Qed.

Lemma seeding_reviews_twice_conflicts_witness :
  (create_reviews [1; 2] [other_listing] 50 example_state).1
  = Raises (DatabaseError (IntegrityError review_unique_together)).
Proof.
  apply (seeding_reviews_twice_conflicts [1; 2] [other_listing] 50
           example_state).
  - lia.
  - discriminate.
  - intros l Hl. apply list_elem_of_In in Hl. destruct Hl as [<- | []].
    discriminate.
  - intros l u Hl Hu. apply list_elem_of_In in Hl. destruct Hl as [<- | []].
    apply list_elem_of_In in Hu. destruct Hu as [<- | []].
    exists (Review.mk 8%N 2 1 "Not as described."). split; [| auto].
    apply list_elem_of_In. simpl. auto.
Defined.

(** *** Seeding listings *)

Lemma length_append (a b : string) :
  String.length (a +:+ b) = (String.length a + String.length b)%nat.
Proof.
  induction a as [| c a IH]; [reflexivity |].
  rewrite append_cons. simpl. rewrite IH. reflexivity.
Qed.

Lemma seeder_amenities_read_back :
  Forall (fun items =>
            ListingSerializer_get_amenities_list
              (with_amenities (join ", " items)) = items)
         amenities_list.
Proof.
  assert (Hclean : Forall (fun items =>
            Forall (fun x => contains "," x = false /\
                             starts_with_space x = false /\
                             ends_with_space x = false) items /\
            join ", " items <> EmptyString) amenities_list).
  { repeat constructor; discriminate. }
  eapply Forall_impl; [| exact Hclean].
  intros items [Hitems Hne].
  exact (proj1 (get_amenities_list_join items Hitems Hne)).
Qed.

(** X22.  With at least one user to host it, every listing the seeder builds is
    one the API would accept: its price, from 50 to 500, passes
    [validate_price_per_night] and the validator of the model, its maximum
    of guests, from 1 to 8, passes [validate_max_guest_count], its title
    and location fit the 200 and 100 characters of their columns, its host
    is one of the users, and its amenities read back through
    [get_amenities_list] are one of the seeder's lists.  Building it only
    draws from the random source. *)
Theorem seeded_listing_is_valid
    (user_list : list Z) (listing_id : UUID) (s : SeedState) :
  user_list <> [] ->
  exists l s',
    new_listing user_list listing_id s = (Returns l, s') /\
    world s' = world s /\
    seeded_listing user_list listing_id l.
Proof.
  intros Hne. unfold new_listing.
  destruct (choice_nonempty property_types s ltac:(discriminate))
    as (pt & s1 & H1 & Hpt & D1).
  destruct (choice_nonempty cities s1 ltac:(discriminate))
    as (city & s2 & H2 & Hcity & D2).
  destruct (choice_nonempty amenities_list s2 ltac:(discriminate))
    as (items & s3 & H3 & Hitems & D3).
  destruct (randint_nonempty 50 500 s3 ltac:(lia))
    as (price & s4 & H4 & Hprice & D4).
  destruct (randint_nonempty 1 4 s4 ltac:(lia))
    as (beds & s5 & H5 & Hbeds & D5).
  destruct (randint_nonempty 1 3 s5 ltac:(lia))
    as (baths & s6 & H6 & Hbaths & D6).
  destruct (randint_nonempty 1 8 s6 ltac:(lia))
    as (guests & s7 & H7 & Hguests & D7).
  destruct (choice_nonempty user_list s7 Hne) as (host & s8 & H8 & Hhost & D8).
  destruct (choice_nonempty [true; true; true; false] s8 ltac:(discriminate))
    as (available & s9 & H9 & _ & D9).
  rewrite (Seed_bind_eq _ _ _ _ _ H1), (Seed_bind_eq _ _ _ _ _ H2),
    (Seed_bind_eq _ _ _ _ _ H3), (Seed_bind_eq _ _ _ _ _ H4),
    (Seed_bind_eq _ _ _ _ _ H5), (Seed_bind_eq _ _ _ _ _ H6),
    (Seed_bind_eq _ _ _ _ _ H7), (Seed_bind_eq _ _ _ _ _ H8),
    (Seed_bind_eq _ _ _ _ _ H9).
  eexists _, s9. split; [reflexivity |]. split.
  { destruct (draws_trans _ _ _ D1 (draws_trans _ _ _ D2 (draws_trans _ _ _ D3
      (draws_trans _ _ _ D4 (draws_trans _ _ _ D5 (draws_trans _ _ _ D6
      (draws_trans _ _ _ D7 (draws_trans _ _ _ D8 D9)))))))) as [Hw _].
    exact Hw. }
  unfold seeded_listing.
  cbn [Listing.listing_id Listing.host Listing.location Listing.title
       Listing.price_per_night Listing.max_guest_count
       Listing.number_of_bedrooms Listing.number_of_bathrooms].
  assert (Hptlen : (String.length pt <= 15)%nat).
  { clear - Hpt. revert pt Hpt. apply list.Forall_forall.
    repeat constructor; simpl; lia. }
  assert (Hcitylen : (String.length city <= 13)%nat).
  { clear - Hcity. revert city Hcity. apply list.Forall_forall.
    repeat constructor; simpl; lia. }
  assert (Hpos : (0 < Qc_of_Z price)%Qc).
  { rewrite <- Z2Qc_inj_0. apply (proj1 (Z2Qc_inj_lt 0 price)). lia. }
  split; [reflexivity |]. split; [exact Hhost |]. split; [exact Hcity |].
  split; [exists pt; auto |].
  split; [rewrite !length_append; simpl; lia |]. split; [lia |].
  split; [unfold validate_price_per_night;
          rewrite bool_decide_eq_false_2 by (apply Qclt_not_le, Hpos);
          reflexivity |].
  split; [apply price_validators_spec, Qclt_le_weak, Hpos |].
  split; [split; apply (proj1 (Z2Qc_inj_le _ _)); lia |].
  split; [unfold validate_max_guest_count;
          destruct (Z.ltb_spec guests 1); [lia | reflexivity] |].
  split; [lia |]. split; [lia |]. split; [lia |].
  pose proof seeder_amenities_read_back as Hback.
  rewrite list.Forall_forall in Hback. specialize (Hback items Hitems).
  change (ListingSerializer_get_amenities_list
            (with_amenities (join ", " items)) ∈ amenities_list).
  rewrite Hback. exact Hitems.
Qed.

Lemma seeded_listing_is_valid_witness :
  exists l s',
    new_listing [1; 2; 3] 7%N example_state = (Returns l, s') /\
    world s' = world example_state /\
    seeded_listing [1; 2; 3] 7%N l.
Proof.
  apply (seeded_listing_is_valid [1; 2; 3] 7%N example_state).
  discriminate.
Defined.

(** *** The seeder completes *)

Lemma add_in_range d k :
  datetime.valid d ->
  1 <= datetime.toordinal d + k <= datetime_add._MAXORDINAL ->
  exists d', datetime_add.add d k = Some d' /\ datetime.valid d' /\
             datetime.toordinal d' = datetime.toordinal d + k.
Proof.
  intros Hd Hrange. unfold datetime_add.add. cbv zeta.
  destruct (Z.ltb_spec 0 (datetime.toordinal d + k)); [| lia].
  destruct (Z.leb_spec (datetime.toordinal d + k) datetime_add._MAXORDINAL);
    [| lia].
  eexists. split; [reflexivity |]. apply fromordinal_valid. exact Hrange.
Qed.

Lemma date_plus_in_range d k s :
  datetime.valid d ->
  1 <= datetime.toordinal d + k <= datetime_add._MAXORDINAL ->
  exists d', date_plus d k s = (Returns d', s) /\ datetime.valid d' /\
             datetime.toordinal d' = datetime.toordinal d + k.
Proof.
  intros Hd Hrange. destruct (add_in_range d k Hd Hrange) as (d' & Hadd & H).
  exists d'. unfold date_plus. rewrite Hadd. auto.
Qed.

(** One turn of the loop of [create_bookings] returns when there is a
    guest for every listing, room for a guest and time for the stay. *)
Section SeededTotals.
Local Open Scope Q_scope.

(** A price of at most 99999999 in absolute value has a place in the
    column of ten digits, whatever its decimal places. *)
Lemma format_number_bounded (q : Qc) :
  Qabs q <= 99999999 -> format_number q 10 2 = Ok (quantize 2 q).
Proof.
  intros Hq. unfold format_number.
  destruct (Qle_bool _ _) eqn:Hle; [| reflexivity]. exfalso.
  apply Qle_bool_iff in Hle. unfold quantize in Hle.
  rewrite this_Q2Qc in Hle. apply column_bound in Hle; [| lia].
  set (n := round_half_even (q * 10 ^ 2)) in *.
  assert (H1 : q * 10 ^ 2 <= inject_Z 9999999900).
  { change (10 ^ 2) with 100. change (inject_Z 9999999900) with 9999999900.
    revert Hq. qabs; intros; lra. }
  assert (H2 : inject_Z (- 9999999900) <= q * 10 ^ 2).
  { change (10 ^ 2) with 100. change (inject_Z (- 9999999900)) with (- 9999999900).
    revert Hq. qabs; intros; lra. }
  apply round_half_even_le in H1. apply round_half_even_ge in H2.
  fold n in H1, H2. lia.
Qed.

(** Up to fourteen nights at a price of at most seven million. *)
Lemma total_price_bounded (price : Qc) (nights : Z) :
  (Qc_of_Z (- 7000000) <= price)%Qc -> (price <= Qc_of_Z 7000000)%Qc ->
  (1 <= nights <= 14)%Z ->
  Qabs (price * Qc_of_Z nights)%Qc <= 99999999.
Proof.
  intros Hlo Hhi Hn.
  change (this (price * Qc_of_Z nights)%Qc)
    with (Qred (this price * inject_Z nights)).
  rewrite Qred_correct.
  change (inject_Z (- 7000000) <= this price) in Hlo.
  change (this price <= inject_Z 7000000) in Hhi.
  change (inject_Z (- 7000000)) with (- 7000000) in Hlo.
  change (inject_Z 7000000) with 7000000 in Hhi.
  assert (H1 : 1 <= inject_Z nights) by (change 1 with (inject_Z 1); rewrite <- Zle_Qle; lia).
  assert (H14 : inject_Z nights <= 14) by (change 14 with (inject_Z 14); rewrite <- Zle_Qle; lia).
  rewrite Qabs_Qmult, (Qabs_pos (inject_Z nights)) by lra.
  assert (Hp : Qabs (this price) <= 7000000) by (qabs; intros; lra).
  pose proof (Qabs_nonneg (this price)).
  apply Qle_trans with (7000000 * inject_Z nights).
  - apply Qmult_le_compat_r; [exact Hp | lra].
  - lra.
Qed.

End SeededTotals.

Lemma create_booking_returns user_list listing_list today s :
  datetime.valid today ->
  31 <= datetime.toordinal today ->
  datetime.toordinal today + 74 <= datetime_add._MAXORDINAL ->
  listing_list <> [] ->
  (forall l, l ∈ listing_list ->
     guests_of user_list l <> [] /\ 1 <= Listing.max_guest_count l /\
     (Qc_of_Z (- 7000000) <= Listing.price_per_night l)%Qc /\
     (Listing.price_per_night l <= Qc_of_Z 7000000)%Qc /\
     is_Some (listings (db (world s)) !! Listing.listing_id l)) ->
  (forall u, u ∈ user_list -> u ∈ users (db (world s))) ->
  exists row s',
    create_booking user_list listing_list today s = (Returns row, s') /\
    users (db (world s')) = users (db (world s)) /\
    listings (db (world s')) = listings (db (world s)).
Proof.
  intros Htoday Hlow Hhigh Hne Hlistings Husers. unfold create_booking.
  destruct (choice_nonempty listing_list s Hne) as (l & s1 & H1 & Hl & D1).
  destruct (Hlistings l Hl) as (Hguests & Hmax & Hplo & Hphi & Hfk).
  destruct (choice_nonempty (guests_of user_list l) s1 Hguests)
    as (u & s2 & H2 & Hu & D2).
  destruct (randint_nonempty (-30) 60 s2 ltac:(lia))
    as (offset & s3 & H3 & Hoffset & D3).
  destruct (date_plus_in_range today offset s3 Htoday ltac:(lia))
    as (start_date & H4 & Hvs & Hos).
  destruct (randint_nonempty 1 14 s3 ltac:(lia))
    as (duration & s5 & H5 & Hduration & D5).
  destruct (date_plus_in_range start_date duration s5 Hvs ltac:(lia))
    as (end_date & H6 & Hve & Hoe).
  destruct (randint_nonempty 1 (Z.min (Listing.max_guest_count l) 6) s5
              ltac:(lia)) as (guests & s7 & H7 & Hg & D7).
  destruct (choice_nonempty statuses s7 ltac:(discriminate))
    as (status & s8 & H8 & _ & D8).
  destruct (choice_nonempty special_requests_choices s8 ltac:(discriminate))
    as (requests & s9 & H9 & _ & D9).
  rewrite (Seed_bind_eq _ _ _ _ _ H1), (Seed_bind_eq _ _ _ _ _ H2),
    (Seed_bind_eq _ _ _ _ _ H3), (Seed_bind_eq _ _ _ _ _ H4),
    (Seed_bind_eq _ _ _ _ _ H5), (Seed_bind_eq _ _ _ _ _ H6),
    (Seed_bind_eq _ _ _ _ _ H7). cbv zeta.
  rewrite (Seed_bind_eq _ _ _ _ _ H8), (Seed_bind_eq _ _ _ _ _ H9).
  assert (Hw : world s9 = world s).
  { destruct (draws_trans _ _ _ D1 (draws_trans _ _ _ D2 (draws_trans _ _ _ D3
      (draws_trans _ _ _ D5 (draws_trans _ _ _ D7 (draws_trans _ _ _ D8 D9))))))
      as [Hw _]. exact Hw. }
  set (row := Booking.mk (Listing.listing_id l) u start_date end_date guests
                (Listing.price_per_night l * Qc_of_Z duration)%Qc status
                requests).
  assert (Hok : Booking_violation (db (world s9)) row = None).
  { rewrite Hw. destruct Hfk as [l' Hfk].
    rewrite (Booking_violation_guests _ _ l').
    - cbn [row Booking.number_of_guests].
      destruct (Z.geb_spec guests 1); [reflexivity | lia].
    - apply date_lt_iff_toordinal; auto using valid_in_calendar.
      cbn [row Booking.check_in_date Booking.check_out_date]. lia.
    - exact Hfk.
    - apply elem_of_guests_of in Hu as [Hu _]. apply Husers, Hu. }
  exists row. eexists. unfold in_db.
  rewrite Booking_objects_create_eq.
  rewrite format_number_bounded
    by (apply total_price_bounded; [exact Hplo | exact Hphi | lia]).
  cbv zeta. rewrite Hok. split; [reflexivity |].
  cbn [world db users listings]. rewrite Hw. auto.
Qed.

Lemma create_bookings_loop_returns user_list listing_list today count :
  datetime.valid today ->
  31 <= datetime.toordinal today ->
  datetime.toordinal today + 74 <= datetime_add._MAXORDINAL ->
  listing_list <> [] ->
  forall acc s,
    (forall l, l ∈ listing_list ->
       guests_of user_list l <> [] /\ 1 <= Listing.max_guest_count l /\
       (Qc_of_Z (- 7000000) <= Listing.price_per_night l)%Qc /\
       (Listing.price_per_night l <= Qc_of_Z 7000000)%Qc /\
       is_Some (listings (db (world s)) !! Listing.listing_id l)) ->
    (forall u, u ∈ user_list -> u ∈ users (db (world s))) ->
    exists created s',
      create_bookings_loop user_list listing_list today count acc s
      = (Returns created, s').
Proof.
  intros Htoday Hlow Hhigh Hne.
  induction count as [| count IH]; intros acc s Hlistings Husers.
  - exists acc, s. reflexivity.
  - cbn [create_bookings_loop].
    destruct (create_booking_returns user_list listing_list today s
                Htoday Hlow Hhigh Hne Hlistings Husers)
      as (row & s1 & Hrow & Hu & Hl).
    rewrite (Seed_bind_eq _ _ _ _ _ Hrow).
    apply IH.
    + intros l Hin. rewrite Hl. apply Hlistings, Hin.
    + intros u Hin. rewrite Hu. apply Husers, Hin.
Qed.

(** X23.  [create_bookings] runs to the end, without any exception, whenever
    the list of listings is not empty, every listing has a user other than
    its host to book it, a maximum of at least one guest, a price per
    night of at most seven million in absolute value, so that the price of
    fourteen nights has a place in the column of ten digits, and its row
    in the database, every user given is in the database, and today is at
    least 30 days after the first day and 74 days before the last day of
    the calendar. *)
Theorem seeded_bookings_complete
    (user_list : list Z) (listing_list : list Listing.t) (today : date)
    (count : Z) (s : SeedState) :
  datetime.valid today ->
  31 <= datetime.toordinal today ->
  datetime.toordinal today + 74 <= datetime_add._MAXORDINAL ->
  listing_list <> [] ->
  (forall l, l ∈ listing_list ->
     guests_of user_list l <> [] /\ 1 <= Listing.max_guest_count l /\
     (Qc_of_Z (- 7000000) <= Listing.price_per_night l)%Qc /\
     (Listing.price_per_night l <= Qc_of_Z 7000000)%Qc /\
     is_Some (listings (db (world s)) !! Listing.listing_id l)) ->
  (forall u, u ∈ user_list -> u ∈ users (db (world s))) ->
  exists created s',
    create_bookings user_list listing_list today count s = (Returns created, s')
    /\ length created = Z.to_nat count.
Proof.
  intros Htoday Hlow Hhigh Hne Hlistings Husers. unfold create_bookings.
  destruct (create_bookings_loop_returns user_list listing_list today
              (Z.to_nat count) Htoday Hlow Hhigh Hne [] s Hlistings Husers)
    as (created & s' & Hrun).
  exists created, s'. split; [exact Hrun |].
  apply (create_bookings_loop_Returns _ _ _ _ _ _ _ _ Htoday) in Hrun
    as (new & -> & Hlen & _).
  exact Hlen.
Qed.

Lemma seeded_bookings_complete_witness :
  exists created s',
    create_bookings [1; 2; 3] [rated_listing; other_listing] example_today 30
      example_state = (Returns created, s')
    /\ length created = 30%nat.
Proof.
  apply (seeded_bookings_complete [1; 2; 3] [rated_listing; other_listing]
           example_today 30 example_state example_today_valid).
  - vm_compute. discriminate.
  - vm_compute. discriminate.
  - discriminate.
  - intros l Hl. apply list_elem_of_In in Hl.
    destruct Hl as [<- | [<- | []]];
      (split; [discriminate |]; split; [simpl; lia |];
       split; [vm_compute; discriminate |];
       split; [vm_compute; discriminate | eexists; reflexivity]).
  - intros u Hu. apply list_elem_of_In in Hu.
    destruct Hu as [<- | [<- | [<- | []]]]; vm_compute; reflexivity.
Defined.
